(** * nanobot-web: the streaming-reply pipeline and the session store

    A shallow embedding of [src/pages/Chat.tsx], [src/hooks/useChat.ts] and
    the session context (the provider with [loadSessions], [saveSessions]
    and [deleteSession]), together with the properties the specification
    states about them.

    The TypeScript runs on a JavaScript engine.  What the engine and the
    browser provide (numbers, [JSON.parse], [JSON.stringify], [TextDecoder],
    ISO dates) is gathered in the class [Engine]; the development is
    parametric in it, and a reference engine that computes is used to run
    the examples.

    The file has four parts: the embedding of the code, the vocabulary of
    the statements with the data of the examples, the properties, and the
    examples. *)

From Stdlib Require Import ZArith NArith List Ascii String Bool Lia.
From stdpp Require Import base option list gmap.
Import ListNotations.

Set Warnings "-register-all".
Local Open Scope list_scope.

(** ** JavaScript strings

    A JavaScript string is a sequence of UTF-16 code units. *)

Definition jsstring := list N.

Definition js (s : string) : jsstring :=
  map N_of_ascii (list_ascii_of_string s).

(** Equality of two strings, unit by unit. *)
Fixpoint jsstring_eqb (a b : jsstring) : bool :=
  match a, b with
  | [], [] => true
  | x :: a', y :: b' => (x =? y)%N && jsstring_eqb a' b'
  | _, _ => false
  end.

(** [WhiteSpace] and [LineTerminator] of ECMA-262, the code units that
    [String.prototype.trim] strips. *)
Definition is_white_space (c : N) : bool :=
  ((9 <=? c) && (c <=? 13) || (c =? 32) || (c =? 160) || (c =? 5760)
   || (8192 <=? c) && (c <=? 8202) || (c =? 8232) || (c =? 8233)
   || (c =? 8239) || (c =? 8287) || (c =? 12288) || (c =? 65279))%N.

Fixpoint trimStart (s : jsstring) : jsstring :=
  match s with
  | c :: s' => if is_white_space c then trimStart s' else s
  | [] => []
  end.

Definition trimEnd (s : jsstring) : jsstring :=
  rev (trimStart (rev s)).

(** [s.trim()] *)
Definition trim (s : jsstring) : jsstring :=
  trimEnd (trimStart s).

(** [s.startsWith(p)] *)
Fixpoint startsWith (p s : jsstring) : bool :=
  match p, s with
  | [], _ => true
  | a :: p', b :: s' => (a =? b)%N && startsWith p' s'
  | _ :: _, [] => false
  end.

(** [s.slice(n)] for a literal [n >= 0]. *)
Definition slice_from (n : nat) (s : jsstring) : jsstring := drop n s.

(** [s.slice(0, n)] for a literal [n >= 0]. *)
Definition slice_to (n : nat) (s : jsstring) : jsstring := take n s.

(** [s.split(sep)] for a one-unit separator: never the empty array. *)
Fixpoint split (sep : N) (s : jsstring) : list jsstring :=
  match s with
  | [] => [[]]
  | c :: s' =>
      if (c =? sep)%N then [] :: split sep s'
      else match split sep s' with
           | l :: ls => (c :: l) :: ls
           | [] => [[c]]
           end
  end.

Definition LF : N := 10.

(** [a.pop()]: the last element (undefined on the empty array) and the
    array that remains. *)
Definition pop {A} (a : list A) : option A * list A :=
  (last a, removelast a).
#[global] Arguments pop : simpl never.

(** [s.includes(t)] *)
Fixpoint includes (t s : jsstring) : bool :=
  startsWith t s ||
  match s with
  | [] => false
  | _ :: s' => includes t s'
  end.

(** Decimal digits of a natural number, as [Number.prototype.toString]
    prints an integer below 10^21. *)
Fixpoint digits_fuel (fuel : nat) (n : N) (acc : jsstring) : jsstring :=
  match fuel with
  | O => acc
  | S fuel' =>
      let acc' := (48 + n mod 10)%N :: acc in
      if (n <? 10)%N then acc' else digits_fuel fuel' (n / 10)%N acc'
  end.

Definition N_digits (n : N) : jsstring :=
  digits_fuel (S (N.to_nat (N.log2 n))) n [].

Definition Z_digits (z : Z) : jsstring :=
  match z with
  | Zneg p => 45%N :: N_digits (Npos p)
  | _ => N_digits (Z.to_N z)
  end.

(** ** JavaScript values

    The values that reach this code: what [JSON.parse] returns, [undefined]
    for a property that is absent, and [Date] objects.  Numbers are the
    engine's, see [Engine]. *)

Inductive Date :=
| Time (ms : Z)       (* a time value, milliseconds since the epoch *)
| InvalidDate.        (* the time value NaN *)

Inductive value (number : Type) :=
| VUndefined
| VNull
| VBool (b : bool)
| VNum (n : number)
| VStr (s : jsstring)
| VDate (d : Date)
| VArr (items : list (value number))
| VObj (props : list (jsstring * value number)).

Arguments VUndefined {number}.
Arguments VNull {number}.
Arguments VBool {number} b.
Arguments VNum {number} n.
Arguments VStr {number} s.
Arguments VDate {number} d.
Arguments VArr {number} items.
Arguments VObj {number} props.

(** What the engine and the browser provide.  [JSON_parse] is [None] where
    [JSON.parse] throws a SyntaxError; it returns objects whose property
    names are distinct.  [JSON_stringify] is applied to objects and arrays
    only.  [Number_toJSON x] is the value that [JSON.stringify] writes
    for [x], read back: [x] itself for a finite number other than -0, the
    number 0 for -0, [null] for NaN and the infinities.  A [TextDecoder]
    called with [{stream: true}] is a transducer: it consumes the bytes one
    by one and keeps its state (a pending multi-byte sequence, the
    byte-order-mark flag) from one call to the next. *)
Class Engine := {
  number : Type;
  number_strict_eq : number -> number -> bool;   (* x === y *)
  number_truthy : number -> bool;                (* ToBoolean(x) *)
  Number_toString : number -> jsstring;          (* ToString(x) *)
  Number_TimeClip : number -> Date;              (* new Date(x) *)
  Number_toJSON : number -> value number;
  JSON_parse : jsstring -> option (value number);
  JSON_stringify : value number -> jsstring;
  Date_toISOString : Z -> jsstring;
  Date_parse : jsstring -> Date;                 (* new Date(text) *)
  Date_toString : Date -> jsstring;
  decoder : Type;
  decoder_new : decoder;                         (* new TextDecoder() *)
  decoder_step : decoder -> Byte.byte -> decoder * jsstring
}.

Section Values.
Context {E : Engine}.

Local Abbreviation val := (value number).

(** Own property lookup in a property list. *)
Fixpoint lookup_prop (k : jsstring) (props : list (jsstring * val)) : val :=
  match props with
  | [] => VUndefined
  | (k', v) :: rest => if jsstring_eqb k k' then v else lookup_prop k rest
  end.

Fixpoint has_own (k : jsstring) (props : list (jsstring * val)) : bool :=
  match props with
  | [] => false
  | (k', _) :: rest => jsstring_eqb k k' || has_own k rest
  end.

(** [v.k] for a property name [k] that no built-in prototype defines, as
    is every name this code reads ([tool], [file], [action], [status],
    [content], [response], [message], [toolCalls], [messages], [createdAt],
    [updatedAt], [timestamp]).  [None] is the TypeError of reading a
    property of [null] or [undefined]. *)
Definition Get (v : val) (k : jsstring) : option val :=
  match v with
  | VUndefined | VNull => None
  | VObj props => Some (lookup_prop k props)
  | _ => Some VUndefined
  end.

(** ToBoolean *)
Definition truthy (v : val) : bool :=
  match v with
  | VUndefined | VNull => false
  | VBool b => b
  | VNum n => number_truthy n
  | VStr s => negb (jsstring_eqb s [])
  | VDate _ | VArr _ | VObj _ => true
  end.

(** [a || b] *)
Definition or_else (a b : val) : val :=
  if truthy a then a else b.

(** [a === b].  Objects are equal when they are the same object; the
    comparisons made here are between a value kept from an earlier payload
    and a value of the payload just parsed, never the same object. *)
Definition strict_eq (a b : val) : bool :=
  match a, b with
  | VUndefined, VUndefined => true
  | VNull, VNull => true
  | VBool x, VBool y => Bool.eqb x y
  | VNum x, VNum y => number_strict_eq x y
  | VStr x, VStr y => jsstring_eqb x y
  | _, _ => false
  end.

(** [Array.prototype.join] with the separator [","]. *)
Fixpoint join (parts : list jsstring) : jsstring :=
  match parts with
  | [] => []
  | [p] => p
  | p :: rest => p ++ 44%N :: join rest
  end.

Fixpoint sequence {A} (l : list (option A)) : option (list A) :=
  match l with
  | [] => Some []
  | Some x :: rest =>
      match sequence rest with Some xs => Some (x :: xs) | None => None end
  | None :: _ => None
  end.

(** ToString, as applied by [text += v].  [None] is the TypeError
    "Cannot convert object to primitive value": a parsed object whose own
    property [toString] hides the inherited method. *)
Fixpoint ToString (v : val) : option jsstring :=
  match v with
  | VUndefined => Some (js "undefined")
  | VNull => Some (js "null")
  | VBool b => Some (if b then js "true" else js "false")
  | VNum n => Some (Number_toString n)
  | VStr s => Some s
  | VDate d => Some (Date_toString d)
  | VArr items =>
      let element := fun e : val =>
        match e with
        | VUndefined | VNull => Some []
        | _ => ToString e
        end in
      match sequence (map element items) with
      | Some parts => Some (join parts)
      | None => None
      end
  | VObj props =>
      if has_own (js "toString") props then None
      else Some (js "[object Object]")
  end.

End Values.

(** ** The data model ([src/types/chat.ts]) *)

Section Pipeline.
Context {E : Engine}.

Local Abbreviation val := (value number).

(** [ProgressStep].  The fields hold what the payload held: a step is built
    from parsed JSON without a check against the declared types. *)
Record ProgressStep := {
  tool : val;
  file : val;
  action : val;
  status : val;
  content : val
}.

Inductive Role := user | assistant.

(** [Message].  [content] is text wherever this code writes it; the
    fallback path stores the backend's [response] as it came.
    [toolCalls] is [VUndefined] when absent. *)
Record Message := {
  msg_id : jsstring;
  role : Role;
  msg_content : val;
  timestamp : Date;
  toolCalls : val
}.

(** ** The state of the Chat view ([Chat] in [src/pages/Chat.tsx])

    The [useState] cells the pipeline writes and the [useRef] cell
    [streamingContentRef]. *)
Record ChatState := {
  messages : list Message;
  isLoading : bool;
  isStreaming : bool;
  isThinking : bool;
  streamingContent : jsstring;
  progressSteps : list ProgressStep;
  showSummary : bool;
  streamingContentRef : jsstring
}.

Definition setIsLoading (b : bool) (c : ChatState) : ChatState :=
  {| messages := messages c; isLoading := b; isStreaming := isStreaming c;
     isThinking := isThinking c; streamingContent := streamingContent c;
     progressSteps := progressSteps c; showSummary := showSummary c;
     streamingContentRef := streamingContentRef c |}.

Definition setIsStreaming (b : bool) (c : ChatState) : ChatState :=
  {| messages := messages c; isLoading := isLoading c; isStreaming := b;
     isThinking := isThinking c; streamingContent := streamingContent c;
     progressSteps := progressSteps c; showSummary := showSummary c;
     streamingContentRef := streamingContentRef c |}.

Definition setIsThinking (b : bool) (c : ChatState) : ChatState :=
  {| messages := messages c; isLoading := isLoading c;
     isStreaming := isStreaming c; isThinking := b;
     streamingContent := streamingContent c;
     progressSteps := progressSteps c; showSummary := showSummary c;
     streamingContentRef := streamingContentRef c |}.

Definition setStreamingContent (s : jsstring) (c : ChatState) : ChatState :=
  {| messages := messages c; isLoading := isLoading c;
     isStreaming := isStreaming c; isThinking := isThinking c;
     streamingContent := s; progressSteps := progressSteps c;
     showSummary := showSummary c;
     streamingContentRef := streamingContentRef c |}.

(** [setProgressSteps(prev => f(prev))] *)
Definition setProgressSteps (f : list ProgressStep -> list ProgressStep)
    (c : ChatState) : ChatState :=
  {| messages := messages c; isLoading := isLoading c;
     isStreaming := isStreaming c; isThinking := isThinking c;
     streamingContent := streamingContent c;
     progressSteps := f (progressSteps c); showSummary := showSummary c;
     streamingContentRef := streamingContentRef c |}.

Definition setShowSummary (b : bool) (c : ChatState) : ChatState :=
  {| messages := messages c; isLoading := isLoading c;
     isStreaming := isStreaming c; isThinking := isThinking c;
     streamingContent := streamingContent c;
     progressSteps := progressSteps c; showSummary := b;
     streamingContentRef := streamingContentRef c |}.

(** [setMessages(prev => f(prev))] *)
Definition setMessages (f : list Message -> list Message)
    (c : ChatState) : ChatState :=
  {| messages := f (messages c); isLoading := isLoading c;
     isStreaming := isStreaming c; isThinking := isThinking c;
     streamingContent := streamingContent c;
     progressSteps := progressSteps c; showSummary := showSummary c;
     streamingContentRef := streamingContentRef c |}.

(** [streamingContentRef.current = s] *)
Definition setRef (s : jsstring) (c : ChatState) : ChatState :=
  {| messages := messages c; isLoading := isLoading c;
     isStreaming := isStreaming c; isThinking := isThinking c;
     streamingContent := streamingContent c;
     progressSteps := progressSteps c; showSummary := showSummary c;
     streamingContentRef := s |}.

(** ** The event dispatch (Chat.tsx 407-446, useChat.ts 211-258) *)

(** [a.findIndex(p)], [None] for -1. *)
Fixpoint findIndex {A} (p : A -> bool) (a : list A) : option nat :=
  match a with
  | [] => None
  | x :: rest => if p x then Some 0 else S <$> findIndex p rest
  end.

(** The property reads of a payload that has passed [data.tool || ...]:
    it is neither [null] nor [undefined], so they do not throw. *)
Definition prop (data : val) (k : jsstring) : val :=
  default VUndefined (Get data k).

(** [const newStep: ProgressStep = { tool: data.tool, ... }] *)
Definition newStep (data : val) : ProgressStep :=
  {| tool := prop data (js "tool");
     file := prop data (js "file");
     action := prop data (js "action");
     status := or_else (prop data (js "status")) (VStr (js "running"));
     content := prop data (js "content") |}.

(** [s => s.tool === data.tool && s.file === data.file] *)
Definition same_key (data : val) (s : ProgressStep) : bool :=
  strict_eq (tool s) (prop data (js "tool"))
  && strict_eq (file s) (prop data (js "file")).

(** The updater passed to [setProgressSteps] (Chat.tsx 416-433). *)
Definition upsert (data : val) (prev : list ProgressStep)
    : list ProgressStep :=
  let existingIndex := findIndex (same_key data) prev in
  match existingIndex with
  | Some i => <[i := newStep data]> prev
  | None => prev ++ [newStep data]
  end.

(** [data.tool || data.file || data.action] *)
Definition is_rich (data : val) : bool :=
  truthy (prop data (js "tool")) || truthy (prop data (js "file"))
  || truthy (prop data (js "action")).

(** The outcome of the [try] block around one payload: the state the
    statements reached, and whether one of them threw. *)
Inductive completion := Normal | Thrown.

(** The [switch (currentEventType)] on a parsed payload.  The cases of
    Chat.tsx are [thinking], [progress] and [error]; useChat.ts adds
    [case 'message': break], which does what the missing default does. *)
Definition dispatch (currentEventType : jsstring) (data : val)
    (c : ChatState) : ChatState * completion :=
  if jsstring_eqb currentEventType (js "thinking") then
    match Get data (js "status") with
    | None => (c, Thrown)
    | Some st =>
        (setIsThinking (strict_eq st (VStr (js "starting"))
                        || strict_eq st (VStr (js "queued"))) c, Normal)
    end
  else if jsstring_eqb currentEventType (js "progress") then
    match Get data (js "tool") with
    | None => (c, Thrown)
    | Some _ =>
        let c1 :=
          if is_rich data then setProgressSteps (upsert data) c else c in
        match ToString (prop data (js "content")) with
        | None => (c1, Thrown)
        | Some text =>
            let current := streamingContentRef c1 ++ text in
            (setStreamingContent current (setRef current c1), Normal)
        end
    end
  else if jsstring_eqb currentEventType (js "error") then
    match Get data (js "content") with
    | None => (c, Thrown)
    | Some _ => (c, Normal)           (* console.error *)
    end
  else (c, Normal).

(** The [catch] of the payload's [try]: "Not JSON, treat as plain text". *)
Definition append_raw (dataContent : jsstring) (c : ChatState) : ChatState :=
  let current := streamingContentRef c ++ dataContent in
  setStreamingContent current (setRef current c).

(** The body of [if (line.startsWith('data:'))], up to the reset of the
    event type. *)
Definition on_data (currentEventType : jsstring) (dataContent : jsstring)
    (c : ChatState) : ChatState :=
  match JSON_parse dataContent with
  | Some data =>
      match dispatch currentEventType data c with
      | (c', Normal) => c'
      | (c', Thrown) => append_raw dataContent c'
      end
  | None => append_raw dataContent c
  end.

(** [const dataContent = line.slice(5).trim()]: the payload of a
    [data:] line. *)
Definition dataContent (line : jsstring) : jsstring :=
  trim (slice_from 5 line).

(** The body of [for (const line of lines)]: the event type in force and
    the view state, before and after one line. *)
Definition on_line (st : jsstring * ChatState) (line : jsstring)
    : jsstring * ChatState :=
  let (currentEventType, c) := st in
  if jsstring_eqb (trim line) [] || startsWith (js ":") line then st
  else if startsWith (js "event:") line then
    (trim (slice_from 6 line), c)
  else if startsWith (js "data:") line then
    (js "message", on_data currentEventType (dataContent line) c)
  else st.

(** The local variables of the read loop. *)
Record Reader := {
  decoder_state : decoder;
  buffer : jsstring;
  currentEventType : jsstring
}.

(** [decoder.decode(value, { stream: true })] *)
Fixpoint decode (d : decoder) (chunk : list Byte.byte) : decoder * jsstring :=
  match chunk with
  | [] => (d, [])
  | b :: rest =>
      let (d1, out1) := decoder_step d b in
      let (d2, out2) := decode d1 rest in
      (d2, out1 ++ out2)
  end.

(** One turn of [while (true)] after a read that was not [done]
    (Chat.tsx 391-448). *)
Definition on_chunk (st : Reader * ChatState) (chunk : list Byte.byte)
    : Reader * ChatState :=
  let (r, c) := st in
  let (d, text) := decode (decoder_state r) chunk in
  let buffer1 := buffer r ++ text in
  let (popped, lines) := pop (split LF buffer1) in
  let buffer2 := default [] popped in
  let (ev, c') := fold_left on_line lines (currentEventType r, c) in
  ({| decoder_state := d; buffer := buffer2; currentEventType := ev |}, c').

(** The reader as the loop starts: [buffer = ''],
    [currentEventType = 'message']. *)
Definition reader_new : Reader :=
  {| decoder_state := decoder_new; buffer := [];
     currentEventType := js "message" |}.

(** The read loop over the chunks the body delivers before it ends. *)
Definition read_all (chunks : list (list Byte.byte)) (c : ChatState)
    : Reader * ChatState :=
  fold_left on_chunk chunks (reader_new, c).

End Pipeline.

(** ** Local storage

    [localStorage] maps keys to text.  [setItem] throws when the browser
    refuses the write (quota); [accepts] says which writes it takes. *)

Record Storage := {
  items : gmap jsstring jsstring;
  accepts : jsstring -> jsstring -> bool
}.

Definition getItem (k : jsstring) (st : Storage) : option jsstring :=
  items st !! k.

(** [None]: the write threw. *)
Definition setItem (k v : jsstring) (st : Storage) : option Storage :=
  if accepts st k v
  then Some {| items := <[k := v]> (items st); accepts := accepts st |}
  else None.

(** [localStorage.removeItem(k)] *)
Definition removeItem (k : jsstring) (st : Storage) : Storage :=
  {| items := delete k (items st); accepts := accepts st |}.

(** ** The session store (the session context provider) *)

Section SessionStore.
Context {E : Engine}.

Local Abbreviation val := (value number).

Record Session := {
  session_id : jsstring;
  session_name : jsstring;
  agentId : jsstring;
  session_messages : list Message;
  createdAt : Date;
  updatedAt : Date
}.

Definition STORAGE_KEY : jsstring := js "nanobot-sessions".
Definition ACTIVE_SESSION_KEY : jsstring := js "nanobot-active-session-id".

(** What a call draws from the clock and from [Math.random]:
    [now] is [new Date()], [id_now] is the [Date.now()] of [generateId] and
    [random] is [Math.random().toString(36).substring(2, 9)]. *)
Record Fresh := {
  now : Z;
  id_now : Z;
  random : jsstring
}.

Definition generateId (f : Fresh) : jsstring :=
  js "session_" ++ Z_digits (id_now f) ++ js "_" ++ random f.

Definition createEmptySession (agent : jsstring) (f : Fresh) : Session :=
  {| session_id := generateId f;
     session_name := js "New conversation";
     agentId := agent;
     session_messages := [];
     createdAt := Time (now f);
     updatedAt := Time (now f) |}.

(** The provider's state: the two [useState] cells and the browser's
    storage. *)
Record Store := {
  sessions : list Session;
  activeSessionId : option jsstring;       (* string | null *)
  localStorage : Storage
}.

(** [s.id === activeSessionId] *)
Definition is_active (active : option jsstring) (s : Session) : bool :=
  match active with
  | Some a => jsstring_eqb (session_id s) a
  | None => false
  end.

(** [sessions.find(s => s.id === activeSessionId) || null] *)
Definition activeSession (st : Store) : option Session :=
  List.find (is_active (activeSessionId st)) (sessions st).

(** [localStorage.setItem(ACTIVE_SESSION_KEY, id)] in an event handler:
    when it throws, the state updates made before it stay. *)
Definition store_active (sid : jsstring) (ls : Storage) : Storage :=
  default ls (setItem ACTIVE_SESSION_KEY sid ls).

Definition createSession (agent : jsstring) (f : Fresh) (st : Store)
    : Store :=
  let newSession := createEmptySession agent f in
  {| sessions := newSession :: sessions st;
     activeSessionId := Some (session_id newSession);
     localStorage := store_active (session_id newSession) (localStorage st) |}.

Definition switchSession (sid : jsstring) (st : Store) : Store :=
  {| sessions := sessions st;
     activeSessionId := Some sid;
     localStorage := store_active sid (localStorage st) |}.

(** [deleteSession].  The writes to the pointer happen inside the updater
    of [setSessions]; [None] is the updater throwing on [setItem], which
    takes the provider down. *)
Definition deleteSession (sid : jsstring) (f : Fresh) (st : Store)
    : option Store :=
  let filtered :=
    List.filter (fun s => negb (jsstring_eqb (session_id s) sid))
                (sessions st) in
  match filtered with
  | [] =>
      let newSession := createEmptySession (js "default") f in
      ls ← setItem ACTIVE_SESSION_KEY (session_id newSession)
                   (localStorage st);
      Some {| sessions := [newSession];
              activeSessionId := Some (session_id newSession);
              localStorage := ls |}
  | first :: _ =>
      if bool_decide (activeSessionId st = Some sid) then
        ls ← setItem ACTIVE_SESSION_KEY (session_id first) (localStorage st);
        Some {| sessions := filtered;
                activeSessionId := Some (session_id first);
                localStorage := ls |}
      else
        Some {| sessions := filtered;
                activeSessionId := activeSessionId st;
                localStorage := localStorage st |}
  end.

(** [setSessions(prev => prev.map(s => s.id === sessionId ? f(s) : s))] *)
Definition update_session (sid : jsstring) (f : Session -> Session)
    (st : Store) : Store :=
  {| sessions :=
       map (fun s => if jsstring_eqb (session_id s) sid then f s else s)
           (sessions st);
     activeSessionId := activeSessionId st;
     localStorage := localStorage st |}.

Definition updateSessionName (sid name : jsstring) (t : Z) : Store -> Store :=
  update_session sid (fun s =>
    {| session_id := session_id s; session_name := name;
       agentId := agentId s; session_messages := session_messages s;
       createdAt := createdAt s; updatedAt := Time t |}).

Definition updateSessionAgent (sid agent : jsstring) (t : Z)
    : Store -> Store :=
  update_session sid (fun s =>
    {| session_id := session_id s; session_name := session_name s;
       agentId := agent; session_messages := session_messages s;
       createdAt := createdAt s; updatedAt := Time t |}).

(** [text.slice(0, 30) + (text.length > 30 ? '...' : '')] *)
Definition title_of (text : jsstring) : jsstring :=
  slice_to 30 text ++ (if (30 <? length text)%nat then js "..." else []).

(** [addMessageToSession].  The name is derived from the first message
    when its role is [user]; the content of such a message is text (the
    caller builds it from [content.trim()]). *)
Definition addMessageToSession (sid : jsstring) (message : Message) (t : Z)
    : Store -> Store :=
  update_session sid (fun s =>
    let name :=
      match session_messages s, role message, msg_content message with
      | [], user, VStr text => title_of text
      | _, _, _ => session_name s
      end in
    {| session_id := session_id s; session_name := name;
       agentId := agentId s;
       session_messages := session_messages s ++ [message];
       createdAt := createdAt s; updatedAt := Time t |}).

Definition setSessionMessages (sid : jsstring) (msgs : list Message) (t : Z)
    : Store -> Store :=
  update_session sid (fun s =>
    {| session_id := session_id s; session_name := session_name s;
       agentId := agentId s; session_messages := msgs;
       createdAt := createdAt s; updatedAt := Time t |}).

Definition clearSessionMessages (sid : jsstring) (t : Z) : Store -> Store :=
  update_session sid (fun s =>
    {| session_id := session_id s; session_name := session_name s;
       agentId := agentId s; session_messages := [];
       createdAt := createdAt s; updatedAt := Time t |}).

End SessionStore.

(** ** Persistence of the sessions ([saveSessions], [loadSessions]) *)

Section Persistence.
Context {E : Engine}.

Local Abbreviation val := (value number).

Definition Role_value (r : Role) : val :=
  match r with
  | user => VStr (js "user")
  | assistant => VStr (js "assistant")
  end.

(** A property that an object has when it holds a value. *)
Definition optional_prop (k : jsstring) (v : val) : list (jsstring * val) :=
  match v with
  | VUndefined => []
  | _ => [(k, v)]
  end.

(** The object a [Message] is at run time.  The property [toolCalls] is
    listed when it holds a value. *)
Definition Message_value (m : Message) : val :=
  VObj ([(js "id", VStr (msg_id m));
         (js "role", Role_value (role m));
         (js "content", msg_content m);
         (js "timestamp", VDate (timestamp m))]
        ++ optional_prop (js "toolCalls") (toolCalls m)).

(** The object a [Session] is at run time. *)
Definition Session_value (s : Session) : val :=
  VObj [(js "id", VStr (session_id s));
        (js "name", VStr (session_name s));
        (js "agentId", VStr (agentId s));
        (js "messages", VArr (map Message_value (session_messages s)));
        (js "createdAt", VDate (createdAt s));
        (js "updatedAt", VDate (updatedAt s))].

(** [Date.prototype.toJSON] *)
Definition Date_toJSON (d : Date) : val :=
  match d with
  | Time t => VStr (Date_toISOString t)
  | InvalidDate => VNull
  end.

(** The value that [JSON.parse(JSON.stringify(v))] is: a date is written
    as its ISO text, a property holding [undefined] is left out, and
    [undefined] in an array is written [null]. *)
Fixpoint jsonify (v : val) : val :=
  match v with
  | VNum n => Number_toJSON n
  | VDate d => Date_toJSON d
  | VArr items =>
      VArr (map (fun e => match e with
                          | VUndefined => VNull
                          | _ => jsonify e
                          end) items)
  | VObj props =>
      VObj ((fix members (l : list (jsstring * val)) :=
               match l with
               | [] => []
               | (_, VUndefined) :: rest => members rest
               | (k, e) :: rest => (k, jsonify e) :: members rest
               end) props)
  | _ => v
  end.

(** [saveSessions]: a write that fails is logged and dropped. *)
Definition saveSessions (ss : list Session) (ls : Storage) : Storage :=
  match setItem STORAGE_KEY
                (JSON_stringify (VArr (map Session_value ss))) ls with
  | Some ls' => ls'
  | None => ls
  end.

(** [new Date(v)].  [None] is the TypeError of ToPrimitive. *)
Definition new_Date (v : val) : option Date :=
  match v with
  | VUndefined => Some InvalidDate
  | VNull => Some (Time 0)
  | VBool b => Some (Time (if b then 1 else 0))
  | VNum n => Some (Number_TimeClip n)
  | VStr s => Some (Date_parse s)
  | VDate d => Some d
  | VArr _ | VObj _ => Date_parse <$> ToString v
  end.

(** The own enumerable properties that [{...v}] copies. *)
Definition spread (v : val) : list (jsstring * val) :=
  match v with
  | VObj props => props
  | VStr s => imap (fun i c => (N_digits (N.of_nat i), VStr [c])) s
  | VArr items => imap (fun i e => (N_digits (N.of_nat i), e)) items
  | _ => []
  end.

(** A property of an object literal written after a spread: it replaces
    the copied one where it stands, or is added at the end. *)
Fixpoint set_prop (k : jsstring) (v : val) (props : list (jsstring * val))
    : list (jsstring * val) :=
  match props with
  | [] => [(k, v)]
  | (k', v') :: rest =>
      if jsstring_eqb k k' then (k, v) :: rest
      else (k', v') :: set_prop k v rest
  end.

(** [(msg) => ({ ...msg, timestamp: new Date(msg.timestamp) })] *)
Definition revive_message (msg : val) : option val :=
  ts ← Get msg (js "timestamp");
  d ← new_Date ts;
  Some (VObj (set_prop (js "timestamp") (VDate d) (spread msg))).

(** [session.messages?.map(...) || []] *)
Definition revive_messages (msgs : val) : option val :=
  match msgs with
  | VUndefined | VNull => Some (VArr [])
  | VArr items => VArr <$> mapM revive_message items
  | _ => None                       (* .map is not a function *)
  end.

(** The callback of [parsed.map] in [loadSessions]. *)
Definition revive_session (session : val) : option val :=
  c ← Get session (js "createdAt");
  created ← new_Date c;
  u ← Get session (js "updatedAt");
  updated ← new_Date u;
  m ← Get session (js "messages");
  msgs ← revive_messages m;
  Some (VObj (set_prop (js "messages") msgs
             (set_prop (js "updatedAt") (VDate updated)
             (set_prop (js "createdAt") (VDate created) (spread session))))).

(** [loadSessions]: whatever throws inside the [try] yields [[]]. *)
Definition loadSessions (ls : Storage) : list val :=
  match getItem STORAGE_KEY ls with
  | Some stored =>
      if jsstring_eqb stored [] then []
      else match JSON_parse stored with
           | Some (VArr items) => default [] (mapM revive_session items)
           | _ => []
           end
  | None => []
  end.

(** *** Reading a loaded object at its declared type

    [loadSessions] is declared to return [Session[]]; the provider keeps
    what it returns in its state.  These functions read an object that has
    the declared shape. *)

Definition as_text (v : val) : option jsstring :=
  match v with VStr s => Some s | _ => None end.

Definition as_Date (v : val) : option Date :=
  match v with VDate d => Some d | _ => None end.

Definition as_Role (v : val) : option Role :=
  match v with
  | VStr s =>
      if jsstring_eqb s (js "user") then Some user
      else if jsstring_eqb s (js "assistant") then Some assistant
      else None
  | _ => None
  end.

Definition as_Message (v : val) : option Message :=
  match v with
  | VObj props =>
      i ← as_text (lookup_prop (js "id") props);
      r ← as_Role (lookup_prop (js "role") props);
      t ← as_Date (lookup_prop (js "timestamp") props);
      Some {| msg_id := i; role := r;
              msg_content := lookup_prop (js "content") props;
              timestamp := t;
              toolCalls := lookup_prop (js "toolCalls") props |}
  | _ => None
  end.

Definition as_Session (v : val) : option Session :=
  match v with
  | VObj props =>
      i ← as_text (lookup_prop (js "id") props);
      n ← as_text (lookup_prop (js "name") props);
      a ← as_text (lookup_prop (js "agentId") props);
      ms ← match lookup_prop (js "messages") props with
           | VArr items => mapM as_Message items
           | _ => None
           end;
      c ← as_Date (lookup_prop (js "createdAt") props);
      u ← as_Date (lookup_prop (js "updatedAt") props);
      Some {| session_id := i; session_name := n; agentId := a;
              session_messages := ms; createdAt := c; updatedAt := u |}
  | _ => None
  end.

(** The sessions in storage, read at the declared type. *)
Definition loadSessions_typed (ls : Storage) : option (list Session) :=
  mapM as_Session (loadSessions ls).

(** *** The effects of the provider *)

(** The effect that saves the sessions whenever they change. *)
Definition save_effect (st : Store) : Store :=
  match sessions st with
  | [] => st
  | _ :: _ =>
      {| sessions := sessions st;
         activeSessionId := activeSessionId st;
         localStorage := saveSessions (sessions st) (localStorage st) |}
  end.

(** The effect that loads the sessions on mount.  [None]: the stored
    sessions are not of the declared shape, or the write of the pointer
    threw inside the effect. *)
Definition mount (f : Fresh) (ls : Storage) : option Store :=
  loadedSessions ← loadSessions_typed ls;
  match loadedSessions with
  | first :: _ =>
      let storedActiveId := getItem ACTIVE_SESSION_KEY ls in
      Some {| sessions := loadedSessions;
              activeSessionId :=
                match List.find (is_active storedActiveId) loadedSessions with
                | Some _ => storedActiveId
                | None => Some (session_id first)
                end;
              localStorage := ls |}
  | [] =>
      let initialSession := createEmptySession (js "default") f in
      ls' ← setItem ACTIVE_SESSION_KEY (session_id initialSession)
                    (saveSessions [initialSession] ls);
      Some {| sessions := [initialSession];
              activeSessionId := Some (session_id initialSession);
              localStorage := ls' |}
  end.

End Persistence.

(** ** Sending a message ([sendMessage])

    [sendMessage] is an async function with [try], [catch] and [finally]:
    it is written in a monad of state and exceptions over the world it
    acts on. *)

Section Send.
Context {E : Engine}.

Local Abbreviation val := (value number).

Inductive exn :=
| ApiError (code : Z)      (* new Error(`API error: ${res.status}`) *)
| NoResponseBody           (* new Error('No response body') *)
| NetworkError             (* fetch rejected *)
| ReadError                (* reader.read() rejected *)
| SyntaxError              (* res.json() rejected *)
| TypeError.

(** A [fetch] call: the endpoint and the text of the body.  Both calls
    of [sendMessage] are POSTs with the header
    [Content-Type: application/json]. *)
Record Request := {
  url : jsstring;
  payload : jsstring
}.

(** The body of a response as a reader sees it: the chunks it delivers,
    and whether the read after the last chunk rejects instead of reporting
    the end. *)
Record Body := {
  chunks : list (list Byte.byte);
  breaks : bool
}.

(** A response.  [res_body] is [None] for [res.body === null];
    [res_json] is what [res.json()] resolves to, [None] when it
    rejects. *)
Record Response := {
  res_status : Z;
  res_body : option Body;
  res_json : option val
}.

(** [res.ok] *)
Definition res_ok (res : Response) : bool :=
  (200 <=? res_status res)%Z && (res_status res <=? 299)%Z.

(** The surroundings of a call: what the backend answers to a request
    ([None]: the request fails on the network), and what the clock shows at
    each reading. *)
Record Env := {
  server : Request -> option Response;
  clock : nat -> Z
}.

(** The world a call acts on. *)
Record World := {
  chat : ChatState;
  store : Store;
  fetched : list Request;      (* the requests issued, oldest first *)
  clock_reads : nat
}.

Inductive outcome (A : Type) :=
| Returned (a : A)
| Raised (e : exn).
Arguments Returned {A} a.
Arguments Raised {A} e.

Definition M (A : Type) : Type := World -> outcome A * World.

Definition ret {A} (a : A) : M A := fun w => (Returned a, w).

Definition bind {A B} (m : M A) (k : A -> M B) : M B :=
  fun w =>
    match m w with
    | (Returned a, w') => k a w'
    | (Raised e, w') => (Raised e, w')
    end.

Definition throw {A} (e : exn) : M A := fun w => (Raised e, w).

(** [try { m } catch (e) { h e }] *)
Definition try_catch {A} (m : M A) (h : exn -> M A) : M A :=
  fun w =>
    match m w with
    | (Returned a, w') => (Returned a, w')
    | (Raised e, w') => h e w'
    end.

(** [try { m } finally { f }] *)
Definition try_finally {A} (m : M A) (f : M unit) : M A :=
  fun w =>
    match m w with
    | (r, w') =>
        match f w' with
        | (Returned _, w'') => (r, w'')
        | (Raised e, w'') => (Raised e, w'')
        end
    end.

#[local] Instance M_ret : MRet M := @ret.
#[local] Instance M_bind : MBind M := fun A B k m => bind m k.

Definition update_chat (f : ChatState -> ChatState) : M unit :=
  fun w =>
    (Returned tt,
     {| chat := f (chat w); store := store w; fetched := fetched w;
        clock_reads := clock_reads w |}).

Definition update_store (f : Store -> Store) : M unit :=
  fun w =>
    (Returned tt,
     {| chat := chat w; store := f (store w); fetched := fetched w;
        clock_reads := clock_reads w |}).

Definition get_chat : M ChatState := fun w => (Returned (chat w), w).

Variable env : Env.

(** [Date.now()], and the time value of [new Date()]. *)
Definition Date_now : M Z :=
  fun w =>
    (Returned (clock env (clock_reads w)),
     {| chat := chat w; store := store w; fetched := fetched w;
        clock_reads := S (clock_reads w) |}).

(** [await fetch(url, { method: 'POST', ..., body })] *)
Definition fetch (req : Request) : M Response :=
  fun w =>
    let w' := {| chat := chat w; store := store w;
                 fetched := fetched w ++ [req];
                 clock_reads := clock_reads w |} in
    match server env req with
    | Some res => (Returned res, w')
    | None => (Raised NetworkError, w')
    end.

(** [await res.json()] *)
Definition json (res : Response) : M val :=
  match res_json res with
  | Some data => ret data
  | None => throw SyntaxError
  end.

(** A property read that throws on [null]. *)
Definition get (data : val) (k : jsstring) : M val :=
  match Get data k with
  | Some v => ret v
  | None => throw TypeError
  end.

(** The [while (true)] loop over [reader.read()] (Chat.tsx 382-449): the
    chunks are handled as they come; a read that rejects leaves the loop
    with the exception. *)
Definition read_loop (b : Body) : M unit :=
  fun w =>
    let (_, c) := read_all (chunks b) (chat w) in
    let w' := {| chat := c; store := store w; fetched := fetched w;
                 clock_reads := clock_reads w |} in
    if breaks b then (Raised ReadError, w') else (Returned tt, w').

(** [JSON.stringify({ message, sessionId, agentId })] *)
Definition chat_payload (message sessionId agent : jsstring) : jsstring :=
  JSON_stringify (VObj [(js "message", VStr message);
                        (js "sessionId", VStr sessionId);
                        (js "agentId", VStr agent)]).

(** The request of the streaming attempt and the request of the
    fallback (Chat.tsx 365-373, 478-486). *)
Definition stream_request (active : Session) (text : jsstring) : Request :=
  {| url := js "/api/chat/stream";
     payload := chat_payload text (session_id active) (agentId active) |}.

Definition fallback_request (active : Session) (text : jsstring) : Request :=
  {| url := js "/api/chat";
     payload := chat_payload text (session_id active) (agentId active) |}.

(** [`msg-${n}`] *)
Definition msg_id_of (n : Z) : jsstring := js "msg-" ++ Z_digits n.

Definition apology : jsstring :=
  js "Sorry, I encountered an error processing your request.".

(** [setMessages(prev => [...prev, m]); addMessageToSession(id, m)] *)
Definition append_message (sid : jsstring) (m : Message) : M unit :=
  update_chat (setMessages (fun prev => prev ++ [m]));;
  t ← Date_now;
  update_store (addMessageToSession sid m t).

(** "Update session name if this is the first message" (Chat.tsx 466) *)
Definition name_first (active : Session) (userText : jsstring) : M unit :=
  match session_messages active with
  | [] =>
      t ← Date_now;
      update_store (updateSessionName (session_id active)
                                      (title_of userText) t)
  | _ :: _ => ret tt
  end.

(** The streaming attempt: the body of the outer [try] (Chat.tsx 364-473). *)
Definition stream_attempt (active : Session) (text : jsstring) : M unit :=
  res ← fetch (stream_request active text);
  if negb (res_ok res) then throw (ApiError (res_status res))
  else
    match res_body res with
    | Some b =>
        update_chat (setIsStreaming true);;
        read_loop b;;
        update_chat (setIsStreaming false);;
        update_chat (setIsThinking false);;
        t ← Date_now;
        d ← Date_now;
        c ← get_chat;
        let assistantMessage :=
          {| msg_id := msg_id_of (t + 1);
             role := assistant;
             msg_content :=
               VStr (match streamingContentRef c with
                     | [] => js "No response"
                     | current => current
                     end);
             timestamp := Time d;
             toolCalls := VUndefined |} in
        append_message (session_id active) assistantMessage;;
        name_first active text;;
        update_chat (setStreamingContent []);;
        update_chat (setShowSummary true)
    | None => ret tt
    end.

(** The fallback: the body of the inner [try] (Chat.tsx 478-511). *)
Definition fallback_attempt (active : Session) (text : jsstring) : M unit :=
  res ← fetch (fallback_request active text);
  if negb (res_ok res) then throw (ApiError (res_status res))
  else
    data ← json res;
    t ← Date_now;
    response ← get data (js "response");
    message ← get data (js "message");
    d ← Date_now;
    calls ← get data (js "toolCalls");
    let assistantMessage :=
      {| msg_id := msg_id_of (t + 1);
         role := assistant;
         msg_content :=
           or_else response (or_else message (VStr (js "No response")));
         timestamp := Time d;
         toolCalls := calls |} in
    append_message (session_id active) assistantMessage;;
    name_first active text;;
    update_chat (setShowSummary true).

(** The inner [catch] (Chat.tsx 512-522). *)
Definition apologize (active : Session) : M unit :=
  t ← Date_now;
  d ← Date_now;
  let errorMessage :=
    {| msg_id := msg_id_of (t + 1);
       role := assistant;
       msg_content := VStr apology;
       timestamp := Time d;
       toolCalls := VUndefined |} in
  append_message (session_id active) errorMessage.

(** The [finally] (Chat.tsx 523-529). *)
Definition settle : M unit :=
  update_chat (setIsLoading false);;
  update_chat (setIsStreaming false);;
  update_chat (setIsThinking false);;
  update_chat (setProgressSteps (fun _ => []));;
  update_chat (setStreamingContent []).

(** [sendMessage] of [src/pages/Chat.tsx]. *)
Definition sendMessage (content : jsstring) : M unit :=
  fun w =>
    match activeSession (store w) with
    | Some active =>
        if jsstring_eqb (trim content) [] || isLoading (chat w)
        then (Returned tt, w)
        else
          (t ← Date_now;
           d ← Date_now;
           let userMessage :=
             {| msg_id := msg_id_of t;
                role := user;
                msg_content := VStr (trim content);
                timestamp := Time d;
                toolCalls := VUndefined |} in
           append_message (session_id active) userMessage;;
           update_chat (setStreamingContent []);;
           update_chat (setIsStreaming false);;
           update_chat (setIsThinking false);;
           update_chat (setRef []);;
           update_chat (setIsLoading true);;
           try_finally
             (try_catch
                (stream_attempt active (trim content))
                (fun _ =>
                   try_catch
                     (fallback_attempt active (trim content))
                     (fun _ => apologize active)))
             settle) w
    | None => (Returned tt, w)
    end.

(** *** The hook [useChat] ([src/hooks/useChat.ts])

    The hook keeps the transcript in its own [messages] cell and in local
    storage; it knows no sessions and sends no [agentId]. *)

Definition CHAT_STORAGE_KEY : jsstring := js "nanobot-chat-history".

(** [saveMessages] *)
Definition saveMessages (ms : list Message) (ls : Storage) : Storage :=
  match setItem CHAT_STORAGE_KEY
                (JSON_stringify (VArr (map Message_value ms))) ls with
  | Some ls' => ls'
  | None => ls
  end.

(** [setMessages(prev => { const next = [...prev, m]; saveMessages(next);
    return next; })] *)
Definition useChat_append (m : Message) : M unit :=
  fun w =>
    let next := messages (chat w) ++ [m] in
    (Returned tt,
     {| chat := setMessages (fun _ => next) (chat w);
        store := {| sessions := sessions (store w);
                    activeSessionId := activeSessionId (store w);
                    localStorage :=
                      saveMessages next (localStorage (store w)) |};
        fetched := fetched w;
        clock_reads := clock_reads w |}).

(** [JSON.stringify({ message, sessionId })] *)
Definition useChat_payload (message sessionId : jsstring) : jsstring :=
  JSON_stringify (VObj [(js "message", VStr message);
                        (js "sessionId", VStr sessionId)]).

Definition useChat_stream_request (sessionId text : jsstring) : Request :=
  {| url := js "/api/chat/stream";
     payload := useChat_payload text sessionId |}.

Definition useChat_fallback_request (sessionId text : jsstring) : Request :=
  {| url := js "/api/chat";
     payload := useChat_payload text sessionId |}.

(** The outer [try] (useChat.ts 170-286). *)
Definition useChat_stream_attempt (sessionId text : jsstring) : M unit :=
  res ← fetch (useChat_stream_request sessionId text);
  if negb (res_ok res) then throw (ApiError (res_status res))
  else
    match res_body res with
    | Some b =>
        update_chat (setIsStreaming true);;
        read_loop b;;
        update_chat (setIsStreaming false);;
        update_chat (setIsThinking false);;
        t ← Date_now;
        d ← Date_now;
        c ← get_chat;
        let assistantMessage :=
          {| msg_id := msg_id_of (t + 1);
             role := assistant;
             msg_content :=
               VStr (match streamingContentRef c with
                     | [] => js "No response"
                     | current => current
                     end);
             timestamp := Time d;
             toolCalls := VUndefined |} in
        useChat_append assistantMessage;;
        update_chat (setStreamingContent []);;
        update_chat (setShowSummary true)
    | None => throw NoResponseBody
    end.

(** The inner [try] (useChat.ts 292-320). *)
Definition useChat_fallback_attempt (sessionId text : jsstring) : M unit :=
  res ← fetch (useChat_fallback_request sessionId text);
  if negb (res_ok res) then throw (ApiError (res_status res))
  else
    data ← json res;
    t ← Date_now;
    response ← get data (js "response");
    message ← get data (js "message");
    d ← Date_now;
    calls ← get data (js "toolCalls");
    let assistantMessage :=
      {| msg_id := msg_id_of (t + 1);
         role := assistant;
         msg_content :=
           or_else response (or_else message (VStr (js "No response")));
         timestamp := Time d;
         toolCalls := calls |} in
    useChat_append assistantMessage;;
    update_chat (setShowSummary true).

(** The inner [catch] (useChat.ts 321-335). *)
Definition useChat_apologize : M unit :=
  t ← Date_now;
  d ← Date_now;
  useChat_append {| msg_id := msg_id_of (t + 1);
                    role := assistant;
                    msg_content := VStr apology;
                    timestamp := Time d;
                    toolCalls := VUndefined |}.

(** [sendMessage] of [src/hooks/useChat.ts]. *)
Definition useChat_sendMessage (sessionId content : jsstring) : M unit :=
  fun w =>
    if jsstring_eqb (trim content) [] || isLoading (chat w)
    then (Returned tt, w)
    else
      (t ← Date_now;
       d ← Date_now;
       useChat_append {| msg_id := msg_id_of t;
                         role := user;
                         msg_content := VStr (trim content);
                         timestamp := Time d;
                         toolCalls := VUndefined |};;
       update_chat (setStreamingContent []);;
       update_chat (setIsStreaming false);;
       update_chat (setIsThinking false);;
       update_chat (setRef []);;
       update_chat (setIsLoading true);;
       try_finally
         (try_catch
            (useChat_stream_attempt sessionId (trim content))
            (fun _ =>
               try_catch
                 (useChat_fallback_attempt sessionId (trim content))
                 (fun _ => useChat_apologize)))
         settle) w.

End Send.

Arguments Returned {A} a.
Arguments Raised {A} e.

(** ** The rest of the hook ([src/hooks/useChat.ts])

    The messages are taken here as the objects they are at run time: what
    [JSON.parse] and the backend deliver is not checked against the type
    [Message]. *)

Section Hook.
Context {E : Engine}.

Local Abbreviation val := (value number).

#[local] Existing Instance M_ret.
#[local] Existing Instance M_bind.

Definition SESSION_ID_KEY : jsstring := js "nanobot-session-id".

(** [generateSessionId] *)
Definition generateSessionId (f : Fresh) : jsstring :=
  js "web:session_" ++ Z_digits (id_now f) ++ js "_" ++ random f.

(** [getOrCreateSessionId].  [f] is what the call of [generateSessionId]
    in the [try] draws, [g] what the call in the [catch] draws. *)
Definition getOrCreateSessionId (f g : Fresh) (ls : Storage)
    : jsstring * Storage :=
  match getItem SESSION_ID_KEY ls with
  | Some (c :: stored) => (c :: stored, ls)
  | _ =>
      let newSessionId := generateSessionId f in
      match setItem SESSION_ID_KEY newSessionId ls with
      | Some ls' => (newSessionId, ls')
      | None => (generateSessionId g, ls)
      end
  end.

(** [DEFAULT_MESSAGES], of useChat.ts and of Chat.tsx.  [loaded] is the
    time at which the module is evaluated. *)
Definition DEFAULT_MESSAGES (loaded : Z) : list Message :=
  [{| msg_id := js "welcome";
      role := assistant;
      msg_content :=
        VStr (js ("Hello! I'm your AI assistant powered by nanobot. "
                  ++ "How can I help you today?"));
      timestamp := Time loaded;
      toolCalls := VUndefined |}].

(** [loadMessages]: whatever throws inside the [try] yields the default. *)
Definition loadMessages (loaded : Z) (ls : Storage) : list val :=
  let default_messages := map Message_value (DEFAULT_MESSAGES loaded) in
  match getItem CHAT_STORAGE_KEY ls with
  | Some stored =>
      if jsstring_eqb stored [] then default_messages
      else match JSON_parse stored with
           | Some (VArr items) =>
               default default_messages (mapM revive_message items)
           | _ => default_messages
           end
  | None => default_messages
  end.

(** The messages in storage, read at the declared type. *)
Definition loadMessages_typed (loaded : Z) (ls : Storage)
    : option (list Message) :=
  mapM as_Message (loadMessages loaded ls).

(** [saveMessages] on the objects. *)
Definition saveMessages_values (vs : list val) (ls : Storage) : Storage :=
  match setItem CHAT_STORAGE_KEY (JSON_stringify (VArr vs)) ls with
  | Some ls' => ls'
  | None => ls
  end.

(** [m.content.trim()].  [None] is the TypeError: [m] is [null], or its
    [content] is no string. *)
Definition content_trim (m : val) : option jsstring :=
  c ← Get m (js "content");
  match c with
  | VStr s => Some (trim s)
  | _ => None
  end.

(** [localMessages[0]?.id === 'welcome'] *)
Definition head_is_welcome (localMessages : list val) : bool :=
  match localMessages with
  | m :: _ =>
      match Get m (js "id") with
      | Some i => strict_eq i (VStr (js "welcome"))
      | None => false
      end
  | [] => false
  end.

(** [backendContentSet.has(t)] *)
Definition has (set : list jsstring) (t : jsstring) : bool :=
  existsb (jsstring_eqb t) set.

(** [localMessages.filter(m => m.id !== 'welcome' &&
    !backendContentSet.has(m.content.trim()))] *)
Fixpoint local_only (set : list jsstring) (localMessages : list val)
    : option (list val) :=
  match localMessages with
  | [] => Some []
  | m :: rest =>
      i ← Get m (js "id");
      keep ← (if strict_eq i (VStr (js "welcome")) then Some false
              else t ← content_trim m; Some (negb (has set t)));
      rest' ← local_only set rest;
      Some (if keep : bool then m :: rest' else rest')
  end.

(** [mergeMessages].  [None] is a TypeError. *)
Definition mergeMessages (backendMessages localMessages : list val)
    : option (list val) :=
  if (length localMessages <=? 1)%nat && head_is_welcome localMessages then
    Some (match backendMessages with
          | _ :: _ => backendMessages
          | [] => localMessages
          end)
  else
    backendContentSet ← mapM content_trim backendMessages;
    localOnlyMessages ← local_only backendContentSet localMessages;
    Some (backendMessages ++ localOnlyMessages).

(** The cells and the storage that [initChat] writes. *)
Record History := {
  history_messages : list val;
  isLoadingHistory : bool;
  history_storage : Storage
}.

(** [initChat], from the point at which [loadHistory] has resolved to
    [backendMessages] (it never rejects). *)
Definition initChat (loaded : Z) (backendMessages : list val) (h : History)
    : History :=
  let localMessages := loadMessages loaded (history_storage h) in
  match backendMessages with
  | _ :: _ =>
      match mergeMessages backendMessages localMessages with
      | Some mergedMessages =>
          {| history_messages := mergedMessages;
             isLoadingHistory := false;
             history_storage :=
               saveMessages_values mergedMessages (history_storage h) |}
      | None =>
          {| history_messages := history_messages h;
             isLoadingHistory := false;
             history_storage := history_storage h |}
      end
  | [] =>
      {| history_messages := history_messages h;
         isLoadingHistory := false;
         history_storage := history_storage h |}
  end.

Variable env : Env.

(** The request of [clearHistory]. *)
Definition clear_request (sessionId : jsstring) : Request :=
  {| url := js "/api/chat/clear";
     payload := JSON_stringify (VObj [(js "sessionId", VStr sessionId)]) |}.

(** [clearHistory] *)
Definition clearHistory (loaded : Z) (sessionId : jsstring) : M unit :=
  try_catch (fetch env (clear_request sessionId);; ret tt)
            (fun _ => ret tt);;
  update_chat (setMessages (fun _ => DEFAULT_MESSAGES loaded));;
  update_store (fun st =>
    {| sessions := sessions st;
       activeSessionId := activeSessionId st;
       localStorage := removeItem CHAT_STORAGE_KEY (localStorage st) |}).

End Hook.

(** ** The rest of the view ([src/pages/Chat.tsx]) *)

Section View.
Context {E : Engine}.
Variable env : Env.

#[local] Existing Instance M_ret.
#[local] Existing Instance M_bind.

(** The effect that loads the messages when the active session changes
    (Chat.tsx 304-322). *)
Definition show_session (loaded : Z) (active : option Session)
    : list Message :=
  match active with
  | Some s =>
      match session_messages s with
      | _ :: _ => session_messages s
      | [] => DEFAULT_MESSAGES loaded
      end
  | None => DEFAULT_MESSAGES loaded
  end.

(** [handleClearHistory] *)
Definition handleClearHistory (loaded : Z) : M unit :=
  fun w =>
    ((match activeSession (store w) with
      | Some active =>
          t ← Date_now env;
          update_store (clearSessionMessages (session_id active) t)
      | None => ret tt
      end);;
     update_chat (setMessages (fun _ => DEFAULT_MESSAGES loaded))) w.

End View.

(** ** The sidebar ([Sidebar] in [src/App.tsx]) *)

Section Sidebar.
Context {E : Engine}.

(** [handleNewSession]: [activeSession?.agentId || 'default'] *)
Definition handleNewSession (f : Fresh) (st : Store) : Store :=
  let agent :=
    match activeSession st with
    | Some active =>
        match agentId active with
        | [] => js "default"
        | a => a
        end
    | None => js "default"
    end in
  createSession agent f st.

(** [handleAgentSelect] *)
Definition handleAgentSelect (agent : jsstring) (t : Z) (st : Store)
    : Store :=
  match activeSession st with
  | Some active => updateSessionAgent (session_id active) agent t st
  | None => st
  end.

(** [handleDeleteSession], and [handleContextMenuDelete] for the session
    of the context menu. *)
Definition handleDeleteSession (sid : jsstring) (f : Fresh) (st : Store)
    : option Store :=
  if (1 <? length (sessions st))%nat then deleteSession sid f st
  else Some st.

End Sidebar.

(** ** A reference engine

    An executable engine on which the examples run: exact decimal numbers
    (they agree with the engine's doubles on the numbers a double
    represents exactly), a JSON reader and writer after ECMA-404, the
    UTF-8 decoder of the Encoding standard and the ISO format of
    [Date.prototype.toISOString].  The theorems do not depend on it. *)

Module Reference.

(** *** Numbers: [mantissa * 10 ^ exponent], the mantissa not divisible
    by 10, and (0, 0) for zero. *)
Record decimal := {
  mantissa : Z;
  exponent : Z
}.

Fixpoint strip_zeros (fuel : nat) (m e : Z) : decimal :=
  match fuel with
  | O => {| mantissa := m; exponent := e |}
  | S fuel' =>
      if (m =? 0)%Z then {| mantissa := 0; exponent := 0 |}
      else if (m mod 10 =? 0)%Z then strip_zeros fuel' (m / 10)%Z (e + 1)%Z
      else {| mantissa := m; exponent := e |}
  end.

Definition normalize (m e : Z) : decimal :=
  strip_zeros (S (Z.to_nat (Z.log2 (Z.abs m)))) m e.

Definition decimal_eqb (a b : decimal) : bool :=
  (mantissa a =? mantissa b)%Z && (exponent a =? exponent b)%Z.

Definition decimal_truthy (a : decimal) : bool :=
  negb (mantissa a =? 0)%Z.

Definition zeros (n : Z) : jsstring := repeat 48%N (Z.to_nat n).

(** Number::toString of ECMA-262, radix 10. *)
Definition decimal_toString (a : decimal) : jsstring :=
  if (mantissa a =? 0)%Z then js "0"
  else
    let s := N_digits (Z.to_N (Z.abs (mantissa a))) in
    let k := Z.of_nat (length s) in
    let n := (k + exponent a)%Z in
    let sign := if (mantissa a <? 0)%Z then js "-" else [] in
    sign ++
    if (k <=? n)%Z && (n <=? 21)%Z then s ++ zeros (n - k)
    else if (0 <? n)%Z && (n <=? 21)%Z then
      take (Z.to_nat n) s ++ js "." ++ drop (Z.to_nat n) s
    else if (-6 <? n)%Z && (n <=? 0)%Z then js "0." ++ zeros (- n) ++ s
    else
      let e := (n - 1)%Z in
      let exp := (if (e <? 0)%Z then js "e-" else js "e+")
                 ++ N_digits (Z.to_N (Z.abs e)) in
      match s with
      | [d] => d :: exp
      | d :: rest => d :: js "." ++ rest ++ exp
      | [] => []
      end.

(** TimeClip(ToIntegerOrInfinity(x)) *)
Definition decimal_TimeClip (a : decimal) : Date :=
  if (mantissa a =? 0)%Z then Time 0
  else if (16 <? exponent a)%Z then InvalidDate
  else
    let t := if (0 <=? exponent a)%Z
             then (mantissa a * 10 ^ exponent a)%Z
             else if (exponent a <? -400)%Z then 0%Z
             else Z.quot (mantissa a) (10 ^ (- exponent a)) in
    if (Z.abs t <=? 8640000000000000)%Z then Time t else InvalidDate.

Abbreviation rval := (value decimal).

(** *** Reading JSON *)

Definition is_json_ws (c : N) : bool :=
  ((c =? 32) || (c =? 9) || (c =? 10) || (c =? 13))%N.

Fixpoint skip_ws (s : jsstring) : jsstring :=
  match s with
  | c :: s' => if is_json_ws c then skip_ws s' else s
  | [] => []
  end.

Definition is_digit (c : N) : bool := ((48 <=? c) && (c <=? 57))%N.

Definition hex_value (c : N) : option N :=
  if is_digit c then Some (c - 48)%N
  else if ((97 <=? c) && (c <=? 102))%N then Some (c - 87)%N
  else if ((65 <=? c) && (c <=? 70))%N then Some (c - 55)%N
  else None.

(** The characters of a string literal after its opening quote; the
    result is the string and the text after the closing quote. *)
Fixpoint read_string (s acc : jsstring) : option (jsstring * jsstring) :=
  match s with
  | [] => None
  | 34%N :: rest => Some (rev acc, rest)
  | 92%N :: 117%N :: a :: b :: c :: d :: rest =>
      match hex_value a, hex_value b, hex_value c, hex_value d with
      | Some x, Some y, Some z, Some w =>
          read_string rest ((x * 4096 + y * 256 + z * 16 + w)%N :: acc)
      | _, _, _, _ => None
      end
  | 92%N :: e :: rest =>
      let unit :=
        if (e =? 34)%N then Some 34%N          (* the quotation mark *)
        else if (e =? 92)%N then Some 92%N     (* \\ *)
        else if (e =? 47)%N then Some 47%N     (* \/ *)
        else if (e =? 98)%N then Some 8%N      (* \b *)
        else if (e =? 102)%N then Some 12%N    (* \f *)
        else if (e =? 110)%N then Some 10%N    (* \n *)
        else if (e =? 114)%N then Some 13%N    (* \r *)
        else if (e =? 116)%N then Some 9%N     (* \t *)
        else None in
      match unit with
      | Some u => read_string rest (u :: acc)
      | None => None
      end
  | c :: rest =>
      if (c <? 32)%N then None else read_string rest (c :: acc)
  end.

Fixpoint read_digits (s : jsstring) (acc : list N) : list N * jsstring :=
  match s with
  | c :: rest =>
      if is_digit c then read_digits rest ((c - 48)%N :: acc)
      else (rev acc, s)
  | [] => (rev acc, [])
  end.

Definition digits_value (ds : list N) : Z :=
  fold_left (fun v d => (v * 10 + Z.of_N d)%Z) ds 0%Z.

(** A number literal: [-? int frac? exp?]. *)
Definition read_number (s : jsstring) : option (decimal * jsstring) :=
  let (negative, s1) :=
    match s with
    | 45%N :: r => (true, r)
    | _ => (false, s)
    end in
  let (int, s2) := read_digits s1 [] in
  match int with
  | [] => None
  | 0%N :: _ :: _ => None                     (* no leading zero *)
  | _ =>
      let frac_part :=
        match s2 with
        | 46%N :: r =>
            match read_digits r [] with
            | ([], _) => None
            | (fs, r') => Some (fs, r')
            end
        | _ => Some ([], s2)
        end in
      match frac_part with
      | None => None
      | Some (frac, s3) =>
          let exp_part :=
            match s3 with
            | c :: r =>
                if ((c =? 101) || (c =? 69))%N then
                  let (neg_exp, r1) :=
                    match r with
                    | 45%N :: r' => (true, r')
                    | 43%N :: r' => (false, r')
                    | _ => (false, r)
                    end in
                  match read_digits r1 [] with
                  | ([], _) => None
                  | (es, r2) =>
                      Some (if neg_exp then (- digits_value es)%Z
                            else digits_value es, r2)
                  end
                else Some (0%Z, s3)
            | [] => Some (0%Z, [])
            end in
          match exp_part with
          | None => None
          | Some (e, s4) =>
              let m := digits_value (int ++ frac) in
              Some (normalize (if negative then (- m)%Z else m)
                              (e - Z.of_nat (length frac)), s4)
          end
      end
  end.

(** CreateDataProperty on the object being read: a repeated name keeps
    its place and takes the later value. *)
Fixpoint put (k : jsstring) (v : rval) (props : list (jsstring * rval))
    : list (jsstring * rval) :=
  match props with
  | [] => [(k, v)]
  | (k', v') :: rest =>
      if jsstring_eqb k k' then (k, v) :: rest
      else (k', v') :: put k v rest
  end.

Fixpoint read_value (fuel : nat) (s : jsstring) : option (rval * jsstring) :=
  match fuel with
  | O => None
  | S fuel' =>
      match skip_ws s with
      | 123%N :: r =>                                        (* { *)
          match skip_ws r with
          | 125%N :: r' => Some (VObj [], r')
          | _ => read_members fuel' r []
          end
      | 91%N :: r =>                                         (* [ *)
          match skip_ws r with
          | 93%N :: r' => Some (VArr [], r')
          | _ => read_elements fuel' r []
          end
      | 34%N :: r =>
          match read_string r [] with
          | Some (text, r') => Some (VStr text, r')
          | None => None
          end
      | 116%N :: 114%N :: 117%N :: 101%N :: r => Some (VBool true, r)
      | 102%N :: 97%N :: 108%N :: 115%N :: 101%N :: r => Some (VBool false, r)
      | 110%N :: 117%N :: 108%N :: 108%N :: r => Some (VNull, r)
      | s' =>
          match read_number s' with
          | Some (n, r) => Some (VNum n, r)
          | None => None
          end
      end
  end
with read_members (fuel : nat) (s : jsstring) (acc : list (jsstring * rval))
    : option (rval * jsstring) :=
  match fuel with
  | O => None
  | S fuel' =>
      match skip_ws s with
      | 34%N :: r =>
          match read_string r [] with
          | Some (k, r1) =>
              match skip_ws r1 with
              | 58%N :: r2 =>
                  match read_value fuel' r2 with
                  | Some (v, r3) =>
                      match skip_ws r3 with
                      | 44%N :: r4 => read_members fuel' r4 (put k v acc)
                      | 125%N :: r4 => Some (VObj (put k v acc), r4)
                      | _ => None
                      end
                  | None => None
                  end
              | _ => None
              end
          | None => None
          end
      | _ => None
      end
  end
with read_elements (fuel : nat) (s : jsstring) (acc : list rval)
    : option (rval * jsstring) :=
  match fuel with
  | O => None
  | S fuel' =>
      match read_value fuel' s with
      | Some (v, r) =>
          match skip_ws r with
          | 44%N :: r' => read_elements fuel' r' (v :: acc)
          | 93%N :: r' => Some (VArr (rev (v :: acc)), r')
          | _ => None
          end
      | None => None
      end
  end.

(** [JSON.parse(text)] *)
Definition parse (text : jsstring) : option rval :=
  match read_value (S (length text)) text with
  | Some (v, rest) =>
      match skip_ws rest with
      | [] => Some v
      | _ :: _ => None
      end
  | None => None
  end.

(** *** Writing JSON *)

Definition hex_digit (n : N) : N :=
  if (n <? 10)%N then (48 + n)%N else (87 + n)%N.

(** [\uXXXX] *)
Definition unicode_escape (c : N) : jsstring :=
  [92; 117; hex_digit (c / 4096 mod 16); hex_digit (c / 256 mod 16);
   hex_digit (c / 16 mod 16); hex_digit (c mod 16)]%N.

Definition is_high_surrogate (c : N) : bool :=
  ((55296 <=? c) && (c <=? 56319))%N.
Definition is_low_surrogate (c : N) : bool :=
  ((56320 <=? c) && (c <=? 57343))%N.

(** The inside of QuoteJSONString. *)
Fixpoint quote_units (s : jsstring) : jsstring :=
  match s with
  | [] => []
  | c :: rest =>
      if (c =? 8)%N then js "\b" ++ quote_units rest
      else if (c =? 9)%N then js "\t" ++ quote_units rest
      else if (c =? 10)%N then js "\n" ++ quote_units rest
      else if (c =? 12)%N then js "\f" ++ quote_units rest
      else if (c =? 13)%N then js "\r" ++ quote_units rest
      else if (c =? 34)%N then [92; 34]%N ++ quote_units rest
      else if (c =? 92)%N then [92; 92]%N ++ quote_units rest
      else if (c <? 32)%N then unicode_escape c ++ quote_units rest
      else if is_high_surrogate c then
        match rest with
        | l :: rest' =>
            if is_low_surrogate l then c :: l :: quote_units rest'
            else unicode_escape c ++ quote_units rest
        | [] => unicode_escape c
        end
      else if is_low_surrogate c then unicode_escape c ++ quote_units rest
      else c :: quote_units rest
  end.

Definition quote (s : jsstring) : jsstring :=
  34%N :: quote_units s ++ [34%N].

Fixpoint pad (width : nat) (s : jsstring) : jsstring :=
  match width with
  | O => s
  | S w => if (length s <=? w)%nat then 48%N :: pad w s else s
  end.

(** Days since 1970-01-01 to a civil date of the proleptic Gregorian
    calendar, and back. *)
Definition civil_from_days (days : Z) : Z * Z * Z :=
  let z := (days + 719468)%Z in
  let era := (z / 146097)%Z in
  let doe := (z - era * 146097)%Z in
  let yoe := ((doe - doe / 1460 + doe / 36524 - doe / 146096) / 365)%Z in
  let doy := (doe - (365 * yoe + yoe / 4 - yoe / 100))%Z in
  let mp := ((5 * doy + 2) / 153)%Z in
  let d := (doy - (153 * mp + 2) / 5 + 1)%Z in
  let m := (if (mp <? 10)%Z then mp + 3 else mp - 9)%Z in
  ((yoe + era * 400 + (if (m <=? 2)%Z then 1 else 0))%Z, m, d).

Definition days_from_civil (y m d : Z) : Z :=
  let y' := (if (m <=? 2)%Z then y - 1 else y)%Z in
  let era := (y' / 400)%Z in
  let yoe := (y' - era * 400)%Z in
  let doy := ((153 * (if (2 <? m)%Z then m - 3 else m + 9) + 2) / 5
              + d - 1)%Z in
  let doe := (yoe * 365 + yoe / 4 - yoe / 100 + doy)%Z in
  (era * 146097 + doe - 719468)%Z.

Definition two (n : Z) : jsstring := pad 2 (N_digits (Z.to_N n)).

Definition clock_text (ms : Z) : jsstring :=
  two (ms / 3600000) ++ js ":" ++ two (ms / 60000 mod 60) ++ js ":"
  ++ two (ms / 1000 mod 60).

(** [Date.prototype.toISOString] *)
Definition toISOString (t : Z) : jsstring :=
  let '(y, m, d) := civil_from_days (t / 86400000) in
  let ms := (t mod 86400000)%Z in
  let year :=
    if (0 <=? y)%Z && (y <=? 9999)%Z then pad 4 (N_digits (Z.to_N y))
    else (if (y <? 0)%Z then js "-" else js "+")
         ++ pad 6 (N_digits (Z.to_N (Z.abs y))) in
  year ++ js "-" ++ two m ++ js "-" ++ two d ++ js "T" ++ clock_text ms
  ++ js "." ++ pad 3 (N_digits (Z.to_N (ms mod 1000))) ++ js "Z".

(** [n] digits, as a number. *)
Fixpoint read_fixed (n : nat) (s : jsstring) (acc : Z)
    : option (Z * jsstring) :=
  match n, s with
  | O, _ => Some (acc, s)
  | S n', c :: rest =>
      if is_digit c then read_fixed n' rest (acc * 10 + Z.of_N (c - 48))%Z
      else None
  | S _, [] => None
  end.

Definition expect (c : N) (s : jsstring) : option jsstring :=
  match s with
  | c' :: rest => if (c =? c')%N then Some rest else None
  | [] => None
  end.

Definition days_in_month (y m : Z) : Z :=
  (days_from_civil (if (m =? 12)%Z then y + 1 else y)
                   (if (m =? 12)%Z then 1 else m + 1) 1
   - days_from_civil y m 1)%Z.

(** The date-time format [YYYY-MM-DDTHH:mm:ss.sssZ] with its expanded
    years.  The other forms that [Date.parse] reads are left to the
    engines by ECMA-262; here they are invalid dates. *)
Definition parse_date (s : jsstring) : Date :=
  let year :=
    match s with
    | 43%N :: r => read_fixed 6 r 0%Z
    | 45%N :: r =>
        match read_fixed 6 r 0%Z with
        | Some (y, r') => if (y =? 0)%Z then None else Some ((- y)%Z, r')
        | None => None
        end
    | _ => read_fixed 4 s 0%Z
    end in
  let fields :=
    '(y, r) ← year;
    r ← expect 45 r;
    '(m, r) ← read_fixed 2 r 0%Z;
    r ← expect 45 r;
    '(d, r) ← read_fixed 2 r 0%Z;
    r ← expect 84 r;
    '(hh, r) ← read_fixed 2 r 0%Z;
    r ← expect 58 r;
    '(mm, r) ← read_fixed 2 r 0%Z;
    r ← expect 58 r;
    '(ss, r) ← read_fixed 2 r 0%Z;
    r ← expect 46 r;
    '(ms, r) ← read_fixed 3 r 0%Z;
    r ← expect 90 r;
    match r with
    | [] => Some (y, m, d, hh, mm, ss, ms)
    | _ :: _ => None
    end in
  match fields with
  | Some (y, m, d, hh, mm, ss, ms) =>
      if (1 <=? m)%Z && (m <=? 12)%Z && (1 <=? d)%Z
         && (d <=? days_in_month y m)%Z
         && ((hh <? 24)%Z
             || (hh =? 24)%Z && (mm =? 0)%Z && (ss =? 0)%Z && (ms =? 0)%Z)
         && (mm <? 60)%Z && (ss <? 60)%Z
      then
        let t := (days_from_civil y m d * 86400000 + hh * 3600000
                  + mm * 60000 + ss * 1000 + ms)%Z in
        if (Z.abs t <=? 8640000000000000)%Z then Time t else InvalidDate
      else InvalidDate
  | None => InvalidDate
  end.

(** [Date.prototype.toString] in the time zone UTC. *)
Definition date_toString (d : Date) : jsstring :=
  match d with
  | InvalidDate => js "Invalid Date"
  | Time t =>
      let days := (t / 86400000)%Z in
      let '(y, m, dd) := civil_from_days days in
      let weekday :=
        nth (Z.to_nat ((days + 4) mod 7))
            [js "Sun"; js "Mon"; js "Tue"; js "Wed"; js "Thu"; js "Fri";
             js "Sat"] [] in
      let month :=
        nth (Z.to_nat (m - 1))
            [js "Jan"; js "Feb"; js "Mar"; js "Apr"; js "May"; js "Jun";
             js "Jul"; js "Aug"; js "Sep"; js "Oct"; js "Nov"; js "Dec"] [] in
      weekday ++ js " " ++ month ++ js " " ++ two dd ++ js " "
      ++ (if (y <? 0)%Z then js "-" else [])
      ++ pad 4 (N_digits (Z.to_N (Z.abs y))) ++ js " "
      ++ clock_text (t mod 86400000)
      ++ js " GMT+0000 (Coordinated Universal Time)"
  end.

(** SerializeJSONProperty; [None] for a value that is not written. *)
Fixpoint write_value (v : rval) : option jsstring :=
  match v with
  | VUndefined => None
  | VNull => Some (js "null")
  | VBool b => Some (if b then js "true" else js "false")
  | VNum n => Some (decimal_toString n)
  | VStr s => Some (quote s)
  | VDate (Time t) => Some (quote (toISOString t))
  | VDate InvalidDate => Some (js "null")
  | VArr items =>
      Some (js "[" ++
            (fix elements (l : list rval) : jsstring :=
               match l with
               | [] => []
               | e :: rest =>
                   default (js "null") (write_value e)
                   ++ match rest with
                      | [] => []
                      | _ :: _ => js "," ++ elements rest
                      end
               end) items ++ js "]")
  | VObj props =>
      Some (js "{" ++
            (fix members (first : bool) (l : list (jsstring * rval))
                 : jsstring :=
               match l with
               | [] => []
               | (k, e) :: rest =>
                   match write_value e with
                   | Some text =>
                       (if first then [] else js ",")
                       ++ quote k ++ js ":" ++ text ++ members false rest
                   | None => members first rest
                   end
               end) true props ++ js "}")
  end.

(** [JSON.stringify(v)]; for [undefined] the text that [setItem] would
    store. *)
Definition stringify (v : rval) : jsstring :=
  default (js "undefined") (write_value v).

(** *** The UTF-8 decoder of the Encoding standard *)

Record utf8 := {
  code_point : N;
  bytes_seen : N;
  bytes_needed : N;
  lower_boundary : N;
  upper_boundary : N;
  bom_seen : bool
}.

Definition utf8_new : utf8 :=
  {| code_point := 0; bytes_seen := 0; bytes_needed := 0;
     lower_boundary := 128; upper_boundary := 191; bom_seen := false |}.

Definition utf8_reset (bom : bool) : utf8 :=
  {| code_point := 0; bytes_seen := 0; bytes_needed := 0;
     lower_boundary := 128; upper_boundary := 191; bom_seen := bom |}.

(** A code point as UTF-16, the byte order mark dropped when it is the
    first one of the stream. *)
Definition emit (bom : bool) (cp : N) : jsstring :=
  if negb bom && (cp =? 65279)%N then []
  else if (cp <? 65536)%N then [cp]
  else [(55296 + (cp - 65536) / 1024)%N; (56320 + (cp - 65536) mod 1024)%N].

(** A byte met when no sequence is pending. *)
Definition utf8_lead (bom : bool) (b : N) : utf8 * jsstring :=
  if (b <=? 127)%N then (utf8_reset true, emit bom b)
  else if ((194 <=? b) && (b <=? 223))%N then
    ({| code_point := N.land b 31; bytes_seen := 0; bytes_needed := 1;
        lower_boundary := 128; upper_boundary := 191; bom_seen := bom |}, [])
  else if ((224 <=? b) && (b <=? 239))%N then
    ({| code_point := N.land b 15; bytes_seen := 0; bytes_needed := 2;
        lower_boundary := if (b =? 224)%N then 160 else 128;
        upper_boundary := if (b =? 237)%N then 159 else 191;
        bom_seen := bom |}, [])
  else if ((240 <=? b) && (b <=? 244))%N then
    ({| code_point := N.land b 7; bytes_seen := 0; bytes_needed := 3;
        lower_boundary := if (b =? 240)%N then 144 else 128;
        upper_boundary := if (b =? 244)%N then 143 else 191;
        bom_seen := bom |}, [])
  else (utf8_reset true, emit bom 65533).

Definition utf8_step (d : utf8) (byte : Byte.byte) : utf8 * jsstring :=
  let b := Byte.to_N byte in
  if (bytes_needed d =? 0)%N then utf8_lead (bom_seen d) b
  else if negb ((lower_boundary d <=? b) && (b <=? upper_boundary d))%N then
    (* the sequence is broken: U+FFFD, and the byte is read again *)
    let (d', out) := utf8_lead true b in
    (d', emit (bom_seen d) 65533 ++ out)
  else
    let cp := N.lor (N.shiftl (code_point d) 6) (N.land b 63) in
    if (bytes_seen d + 1 =? bytes_needed d)%N
    then (utf8_reset true, emit (bom_seen d) cp)
    else ({| code_point := cp; bytes_seen := bytes_seen d + 1;
             bytes_needed := bytes_needed d;
             lower_boundary := 128; upper_boundary := 191;
             bom_seen := bom_seen d |}, []).

Definition engine : Engine := {|
  number := decimal;
  number_strict_eq := decimal_eqb;
  number_truthy := decimal_truthy;
  Number_toString := decimal_toString;
  Number_TimeClip := decimal_TimeClip;
  Number_toJSON := VNum;
  JSON_parse := parse;
  JSON_stringify := stringify;
  Date_toISOString := toISOString;
  Date_parse := parse_date;
  Date_toString := date_toString;
  decoder := utf8;
  decoder_new := utf8_new;
  decoder_step := utf8_step
|}.

(** The UTF-8 bytes of an ASCII text. *)
Definition bytes (s : string) : list Byte.byte :=
  map byte_of_ascii (list_ascii_of_string s).

(** A text in which the apostrophe stands for the quotation mark, to
    write JSON in the examples. *)
Definition quoted (s : string) : string :=
  string_of_list_ascii
    (map (fun c => if Ascii.eqb c (ascii_of_nat 39) then ascii_of_nat 34
                   else c)
         (list_ascii_of_string s)).

End Reference.

(** * The vocabulary of the statements *)

(** ** Frames and keys *)

Section PipelineVocabulary.
Context {E : Engine}.

Local Abbreviation val := (value number).

(** The StreamFrame of the specification: an event type and the raw text
    of the data, carried by an [event:] line and a [data:] line. *)
Record Frame := {
  frame_event : jsstring;
  frame_data : jsstring
}.

Definition frame_lines (f : Frame) : list jsstring :=
  [js "event:" ++ frame_event f; js "data:" ++ frame_data f].

Definition is_progress (f : Frame) : bool :=
  jsstring_eqb (trim (frame_event f)) (js "progress").

(** The payload of a well-formed frame is a JSON object. *)
Definition well_formed (f : Frame) : Prop :=
  exists props, JSON_parse (trim (frame_data f)) = Some (VObj props).

(** The [content] of a progress frame is text. *)
Definition has_text_content (f : Frame) : Prop :=
  is_progress f = true ->
  exists props text,
    JSON_parse (trim (frame_data f)) = Some (VObj props)
    /\ lookup_prop (js "content") props = VStr text.

(** The text a frame adds to the content buffer according to the
    specification: the [content] of a progress payload, the empty text when
    the payload has no [content], and nothing for the other events. *)
Definition specified_contribution (f : Frame) : jsstring :=
  if is_progress f then
    match JSON_parse (trim (frame_data f)) with
    | Some data =>
        match prop data (js "content") with
        | VStr text => text
        | _ => []
        end
    | None => []
    end
  else [].

(** The key of a step. *)
Definition step_key (s : ProgressStep) : val * val := (tool s, file s).

(** A key value of the declared type [string | null], or absent. *)
Definition is_key (v : val) : Prop :=
  match v with
  | VStr _ | VNull | VUndefined => True
  | _ => False
  end.

Definition typed_key (data : val) : Prop :=
  is_key (prop data (js "tool")) /\ is_key (prop data (js "file")).

(** The progress payloads of the declared type that [JSON.parse]
    reads. *)
Definition progress_payload (payload : jsstring) : Prop :=
  exists data, JSON_parse payload = Some data /\ typed_key data.

(** The updater the specification describes: every progress event is
    inserted, or replaces the step that has its key. *)
Definition specified_upsert (data : val) (prev : list ProgressStep)
    : list ProgressStep :=
  upsert data prev.

End PipelineVocabulary.

(** ** Failures, and the stages of a send *)

Section SendVocabulary.
Context {E : Engine}.
Variable env : Env.

Local Abbreviation val := (value number).

(** The failures of the streaming request: the network, a status that
    is not 2xx, a read of the body that rejects. *)
Inductive stream_failure (req : Request) : Prop :=
| stream_network_error :
    server env req = None -> stream_failure req
| stream_http_error (res : Response) :
    server env req = Some res -> res_ok res = false -> stream_failure req
| stream_read_error (res : Response) (b : Body) :
    server env req = Some res -> res_ok res = true ->
    res_body res = Some b -> breaks b = true -> stream_failure req.

(** The failures of the fallback request: the network, a status that is
    not 2xx, a body that is not JSON, the JSON [null]. *)
Inductive fallback_failure (req : Request) : Prop :=
| fallback_network_error :
    server env req = None -> fallback_failure req
| fallback_http_error (res : Response) :
    server env req = Some res -> res_ok res = false -> fallback_failure req
| fallback_not_json (res : Response) :
    server env req = Some res -> res_ok res = true ->
    res_json res = None -> fallback_failure req
| fallback_null (res : Response) :
    server env req = Some res -> res_ok res = true ->
    res_json res = Some VNull -> fallback_failure req.

(** The message [apologize] appends, read at the clock of the world. *)
Definition errorMessage_at (w : World) : Message :=
  {| msg_id := msg_id_of (clock env (clock_reads w) + 1);
     role := assistant;
     msg_content := VStr apology;
     timestamp := Time (clock env (S (clock_reads w)));
     toolCalls := VUndefined |}.

(** The content of the assistant message after a failed streaming
    attempt: what the backend answers to the fallback request decides it. *)
Definition reply_content (req : Request) : val :=
  match server env req with
  | Some res =>
      if res_ok res then
        match res_json res with
        | Some data =>
            match Get data (js "response"), Get data (js "message") with
            | Some response, Some message =>
                or_else response
                        (or_else message (VStr (js "No response")))
            | _, _ => VStr apology
            end
        | None => VStr apology
        end
      else VStr apology
  | None => VStr apology
  end.

(** The transcripts of the sessions, and a message appended to those of
    the sessions that have a given id. *)
Definition transcripts (st : Store) : list (jsstring * list Message) :=
  map (fun s => (session_id s, session_messages s)) (sessions st).

Definition appended (sid : jsstring) (m : Message)
    (ts : list (jsstring * list Message)) : list (jsstring * list Message) :=
  map (fun t => if jsstring_eqb t.1 sid then (t.1, t.2 ++ [m]) else t) ts.

(** The user message [sendMessage] builds, read at the clock of the
    world, and the world in which the streaming attempt starts. *)
Definition userMessage_at (content : jsstring) (w : World) : Message :=
  {| msg_id := msg_id_of (clock env (clock_reads w));
     role := user;
     msg_content := VStr (trim content);
     timestamp := Time (clock env (S (clock_reads w)));
     toolCalls := VUndefined |}.

Definition started (active : Session) (content : jsstring) (w : World)
    : World :=
  {| chat :=
       setIsLoading true
         (setRef []
            (setIsThinking false
               (setIsStreaming false
                  (setStreamingContent []
                     (setMessages
                        (fun prev => prev ++ [userMessage_at content w])
                        (chat w))))));
     store := addMessageToSession (session_id active)
                (userMessage_at content w)
                (clock env (S (S (clock_reads w)))) (store w);
     fetched := fetched w;
     clock_reads := S (S (S (clock_reads w))) |}.

Definition useChat_started (content : jsstring) (w : World) : World :=
  let next := messages (chat w) ++ [userMessage_at content w] in
  {| chat :=
       setIsLoading true
         (setRef []
            (setIsThinking false
               (setIsStreaming false
                  (setStreamingContent []
                     (setMessages (fun _ => next) (chat w))))));
     store := {| sessions := sessions (store w);
                 activeSessionId := activeSessionId (store w);
                 localStorage := saveMessages next (localStorage (store w)) |};
     fetched := fetched w;
     clock_reads := S (S (clock_reads w)) |}.

(** The state the chunks of a body leave, from the state in which the
    streaming attempt starts reading. *)
Definition streamed (b : Body) (w : World) : ChatState :=
  (read_all (chunks b) (setIsStreaming true (chat w))).2.

(** [streamingContentRef.current || 'No response'] *)
Definition final_content (c : ChatState) : jsstring :=
  match streamingContentRef c with
  | [] => js "No response"
  | current => current
  end.

End SendVocabulary.

(** ** The operations of the store *)

Section StoreVocabulary.
Context {E : Engine}.

(** The operations of the store, as the provider offers them. *)
Inductive Op :=
| OpCreate (agent : jsstring) (f : Fresh)
| OpSwitch (sid : jsstring)
| OpDelete (sid : jsstring) (f : Fresh)
| OpUpdateName (sid name : jsstring) (t : Z)
| OpUpdateAgent (sid agent : jsstring) (t : Z)
| OpAddMessage (sid : jsstring) (m : Message) (t : Z)
| OpSetMessages (sid : jsstring) (ms : list Message) (t : Z)
| OpClearMessages (sid : jsstring) (t : Z).

(** An operation, followed by the effect that saves the sessions when the
    operation has replaced them.  [None]: the provider is down. *)
Definition perform (op : Op) (st : Store) : option Store :=
  match op with
  | OpCreate agent f => Some (save_effect (createSession agent f st))
  | OpSwitch sid => Some (switchSession sid st)
  | OpDelete sid f => save_effect <$> deleteSession sid f st
  | OpUpdateName sid name t =>
      Some (save_effect (updateSessionName sid name t st))
  | OpUpdateAgent sid agent t =>
      Some (save_effect (updateSessionAgent sid agent t st))
  | OpAddMessage sid m t => Some (save_effect (addMessageToSession sid m t st))
  | OpSetMessages sid ms t =>
      Some (save_effect (setSessionMessages sid ms t st))
  | OpClearMessages sid t => Some (save_effect (clearSessionMessages sid t st))
  end.

Fixpoint run (ops : list Op) (st : Store) : option Store :=
  match ops with
  | [] => Some st
  | op :: rest =>
      match perform op st with
      | Some st' => run rest st'
      | None => None
      end
  end.

(** The pointer references a session of the collection: [activeSession]
    is not [null]. *)
Definition pointer_ok (st : Store) : Prop :=
  is_Some (activeSession st).

(** Every switch of a run goes to a session that is in the collection
    when the switch is made. *)
Fixpoint switches_known (ops : list Op) (st : Store) : Prop :=
  match ops with
  | [] => True
  | op :: rest =>
      match op with
      | OpSwitch sid => In sid (map session_id (sessions st))
      | _ => True
      end
      /\ match perform op st with
         | Some st' => switches_known rest st'
         | None => True
         end
  end.

End StoreVocabulary.

(** ** What can be stored *)

Section PersistenceVocabulary.
Context {E : Engine}.

Local Abbreviation val := (value number).

(** A member of an object as [JSON.stringify] writes it. *)
Definition json_member (k : jsstring) (e : val) : list (jsstring * val) :=
  match e with
  | VUndefined => []
  | _ => [(k, jsonify e)]
  end.

(** A date that has an ISO text from which it is read back. *)
Definition valid_date (d : Date) : Prop :=
  exists t, d = Time t /\ Date_parse (Date_toISOString t) = Time t.

(** A value that [JSON.stringify] and [JSON.parse] give back as it is. *)
Definition plain (v : val) : Prop := jsonify v = v.

Definition storable_message (m : Message) : Prop :=
  valid_date (timestamp m) /\ plain (msg_content m) /\ plain (toolCalls m).

Definition storable (s : Session) : Prop :=
  valid_date (createdAt s) /\ valid_date (updatedAt s)
  /\ Forall storable_message (session_messages s).

End PersistenceVocabulary.

(** ** The view, the store and the storage after a call *)

Section MoreVocabulary.
Context {E : Engine}.

Local Abbreviation val := (value number).

(** What a state inherits from the state before it: the buffer, with
    text added at its end, and the partial content on display, which is
    the buffer when it was. *)
Definition extends (c c' : ChatState) : Prop :=
  (exists added, streamingContentRef c' = streamingContentRef c ++ added)
  /\ (streamingContent c = streamingContentRef c ->
      streamingContent c' = streamingContentRef c').

(** The view after the [finally] of [sendMessage]. *)
Definition settled (c : ChatState) : Prop :=
  isLoading c = false /\ isStreaming c = false /\ isThinking c = false
  /\ progressSteps c = [] /\ streamingContent c = [].

(** Local storage holds the pointer and the sessions of the store. *)
Definition mirrors (st : Store) : Prop :=
  getItem ACTIVE_SESSION_KEY (localStorage st) = activeSessionId st
  /\ getItem STORAGE_KEY (localStorage st)
     = Some (JSON_stringify (VArr (map Session_value (sessions st)))).

(** A storage that takes every write. *)
Definition roomy (ls : Storage) : Prop :=
  forall k v, accepts ls k v = true.

(** A message that [mergeMessages] keeps from the local ones: it is not
    the welcome message, and no backend message has its content. *)
Definition local_only_message (set : list jsstring) (m : val) : Prop :=
  exists i t,
    Get m (js "id") = Some i /\ i <> VStr (js "welcome")
    /\ content_trim m = Some t /\ ~ In t set.

(** The store of the hook after its messages [ms] have been saved. *)
Definition saved_with (ms : list Message) (st : Store) : Store :=
  {| sessions := sessions st;
     activeSessionId := activeSessionId st;
     localStorage := saveMessages ms (localStorage st) |}.

(** What an update of the sessions with the id [sid] keeps: the pointer,
    the storage, the ids in their order, and the sessions with another
    id. *)
Definition same_frame (sid : jsstring) (st st' : Store) : Prop :=
  activeSessionId st' = activeSessionId st
  /\ localStorage st' = localStorage st
  /\ map session_id (sessions st') = map session_id (sessions st)
  /\ forall s, In s (sessions st) -> session_id s <> sid ->
               In s (sessions st').

(** The store after the assistant message [a] has been added to the
    session [active] at the time [t], and the session named when the send
    found it empty. *)
Definition replied (active : Session) (text : jsstring) (a : Message)
    (t : Z) (st st' : Store) : Prop :=
  st' = addMessageToSession (session_id active) a t st
  \/ (session_messages active = []
      /\ exists t',
           st' = updateSessionName (session_id active) (title_of text) t'
                   (addMessageToSession (session_id active) a t st)).

End MoreVocabulary.

(** * The data of the examples *)

Module Samples.
Import Reference.
#[local] Existing Instance engine.
Local Open Scope string_scope.
Local Open Scope list_scope.

(** A text of the examples, the apostrophe standing for the quotation
    mark. *)
Definition text (s : string) : jsstring := js (quoted s).

(** The bytes of lines, each ended by a line feed. *)
Definition wire (lines : list string) : list Byte.byte :=
  concat (map (fun l => bytes (quoted l) ++ [Byte.x0a]) lines).

Definition chat0 : ChatState :=
  {| messages := []; isLoading := false; isStreaming := false;
     isThinking := false; streamingContent := []; progressSteps := [];
     showSummary := false; streamingContentRef := [] |}.

Definition storage0 : Storage :=
  {| items := ∅; accepts := fun _ _ => true |}.

Definition session0 : Session :=
  {| session_id := js "session_1_abc"; session_name := js "New conversation";
     agentId := js "default"; session_messages := [];
     createdAt := Time 1730600000000; updatedAt := Time 1730600000000 |}.

Definition store0 : Store :=
  {| sessions := [session0]; activeSessionId := Some (js "session_1_abc");
     localStorage := storage0 |}.

Definition world0 : World :=
  {| chat := chat0; store := store0; fetched := []; clock_reads := 0 |}.

Definition ticking (n : nat) : Z := (1730600000000 + Z.of_nat n)%Z.

(** A backend that answers every request with the status 500. *)
Definition env_500 : Env :=
  {| server := fun _ => Some {| res_status := 500; res_body := None;
                                res_json := None |};
     clock := ticking |}.

(** A backend whose stream delivers one line and then breaks, and whose
    fallback endpoint is unreachable. *)
Definition broken_body : Body :=
  {| chunks := [wire ["data:hello"]]; breaks := true |}.

Definition broken_response : Response :=
  {| res_status := 200; res_body := Some broken_body; res_json := None |}.

Definition env_broken : Env :=
  {| server := fun req =>
       if jsstring_eqb (url req) (js "/api/chat/stream")
       then Some broken_response else None;
     clock := ticking |}.

(** A backend whose stream holds an [error] event between two progress
    events, and ends. *)
Definition env_error_event : Env :=
  {| server := fun req =>
       if jsstring_eqb (url req) (js "/api/chat/stream")
       then Some {| res_status := 200;
                    res_body :=
                      Some {| chunks :=
                                [wire ["event:progress";
                                       "data:{'tool':'grep','content':'ab'}";
                                       "";
                                       "event:error";
                                       "data:{'content':'boom'}";
                                       "";
                                       "event:progress";
                                       "data:{'content':'c'}"]];
                              breaks := false |};
                    res_json := None |}
       else None;
     clock := ticking |}.

(** The two frames of the specification, over the wire, in one chunk and
    cut inside the second payload. *)
Definition grep_frames : list string :=
  ["event:progress";
   "data:{'tool':'grep','file':'a.py','status':'running','content':'x'}";
   "event:progress";
   "data:{'tool':'grep','file':'a.py','status':'completed','content':'y'}"].

(** The fields of a step, to compare steps by value. *)
Definition fields (s : ProgressStep) : rval * rval * rval * rval * rval :=
  (tool s, file s, action s, status s, content s).

Definition fresh1 : Fresh :=
  {| now := 1730600001000; id_now := 1730600001001; random := js "k3x9q2a" |}.

Definition stored_session : Session :=
  {| session_id := js "session_1_abc"; session_name := js "hi";
     agentId := js "coder";
     session_messages :=
       [{| msg_id := js "msg-1730600000000"; role := user;
           msg_content := VStr (js "hi");
           timestamp := Time 1730600000001; toolCalls := VUndefined |};
        {| msg_id := js "msg-1730600000501"; role := assistant;
           msg_content := VStr (text "a 'quoted' reply");
           timestamp := Time 1730600000502;
           toolCalls :=
             VArr [VObj [(js "id", VStr (js "1"));
                         (js "name", VStr (js "grep"));
                         (js "arguments",
                          VObj [(js "pattern", VStr (js "x"));
                                (js "n", VNum (normalize 25 (-1)))])]] |}];
     createdAt := Time 1730600000000; updatedAt := Time 1730600000503 |}.

(** A backend that answers every request with the status 200 and without
    a body. *)
Definition bodiless_response : Response :=
  {| res_status := 200; res_body := None; res_json := None |}.

Definition env_bodiless : Env :=
  {| server := fun _ => Some bodiless_response; clock := ticking |}.

(** A backend whose stream holds two progress events and ends. *)
Definition complete_body : Body :=
  {| chunks := [wire ["event:progress"; "data:{'content':'hel'}"; "";
                      "event:progress"; "data:{'content':'lo'}"; ""]];
     breaks := false |}.

Definition complete_response : Response :=
  {| res_status := 200; res_body := Some complete_body; res_json := None |}.

Definition env_complete : Env :=
  {| server := fun req =>
       if jsstring_eqb (url req) (js "/api/chat/stream")
       then Some complete_response else None;
     clock := ticking |}.

Definition fresh2 : Fresh :=
  {| now := 1730600002000; id_now := 1730600002001; random := js "p0o9i8u" |}.

(** The store of one session, with local storage holding what the store
    holds. *)
Definition store1 : Store :=
  {| sessions := [session0]; activeSessionId := Some (js "session_1_abc");
     localStorage :=
       {| items :=
            <[ACTIVE_SESSION_KEY := js "session_1_abc"]>
              (<[STORAGE_KEY :=
                   JSON_stringify (VArr (map Session_value [session0]))]> ∅);
          accepts := fun _ _ => true |} |}.

(** The store after a second session has been created. *)
Definition store2 : Store := createSession (js "coder") fresh1 store0.

(** A storage whose sessions hold a [null]. *)
Definition storage_null : Storage :=
  {| items := <[STORAGE_KEY := text "[null]"]> ∅;
     accepts := fun _ _ => true |}.

(** A user message. *)
Definition question : Message :=
  {| msg_id := js "msg-1730600003000"; role := user;
     msg_content :=
       VStr (js "How do I read a stream of server-sent events?");
     timestamp := Time 1730600003000; toolCalls := VUndefined |}.

(** The messages of the backend and the messages in storage, as objects. *)
Definition backend_history : list rval :=
  [VObj [(js "id", VStr (js "msg-1")); (js "role", VStr (js "user"));
         (js "content", VStr (js "hi"))]].

Definition local_history : list rval :=
  [VObj [(js "id", VStr (js "welcome")); (js "role", VStr (js "assistant"));
         (js "content", VStr (js "Hello!"))];
   VObj [(js "id", VStr (js "msg-7")); (js "role", VStr (js "user"));
         (js "content", VStr (js " hi "))];
   VObj [(js "id", VStr (js "msg-8")); (js "role", VStr (js "user"));
         (js "content", VStr (js "draft"))]].

End Samples.

(** * Properties *)

(** ** Strings *)

Lemma jsstring_eqb_eq (a b : jsstring) : jsstring_eqb a b = true <-> a = b.
Proof.
  revert b. induction a as [|x a IH]; intros [|y b]; simpl; try done.
  rewrite andb_true_iff, N.eqb_eq, IH. split; [by intros [-> ->]|].
  by intros [= -> ->].
Qed.

Lemma jsstring_eqb_refl (a : jsstring) : jsstring_eqb a a = true.
Proof. by apply jsstring_eqb_eq. Qed.

Lemma jsstring_eqb_neq (a b : jsstring) : jsstring_eqb a b = false <-> a <> b.
Proof.
  rewrite <- (jsstring_eqb_eq a b). by destruct (jsstring_eqb a b).
Qed.

Lemma startsWith_app (p r : jsstring) : startsWith p (p ++ r) = true.
Proof.
  induction p as [|a p IH]; simpl; [done|].
  by rewrite N.eqb_refl, IH.
Qed.

Lemma startsWith_inv (p s : jsstring) :
  startsWith p s = true -> s = p ++ drop (length p) s.
Proof.
  revert s. induction p as [|a p IH]; intros [|b s]; simpl; try done.
  intros [Hab Hps]%andb_prop. apply N.eqb_eq in Hab. subst b.
  f_equal. by apply IH.
Qed.

(** A text that holds a unit that is no white space does not trim to
    nothing. *)
Lemma trimStart_nil (s : jsstring) :
  trimStart s = [] -> forallb is_white_space s = true.
Proof.
  induction s as [|c s IH]; simpl; [done|].
  destruct (is_white_space c); [exact IH | discriminate].
Qed.

Lemma trimStart_idem_head (c : N) (s : jsstring) :
  is_white_space c = false -> trimStart (c :: s) = c :: s.
Proof. intros H. simpl. by rewrite H. Qed.

Lemma trim_cons_not_nil (c : N) (s : jsstring) :
  is_white_space c = false -> trim (c :: s) <> [].
Proof.
  intros Hc Htrim. unfold trim, trimEnd in Htrim.
  rewrite (trimStart_idem_head c s Hc) in Htrim.
  assert (Hnil : trimStart (rev (c :: s)) = []).
  { destruct (trimStart (rev (c :: s))) as [|x l] eqn:Heq; [done|].
    simpl in Htrim. by destruct (rev l). }
  apply trimStart_nil in Hnil.
  rewrite forallb_forall in Hnil.
  specialize (Hnil c). rewrite Hc in Hnil.
  discriminate Hnil. apply in_rev. rewrite rev_involutive. by left.
Qed.

(** ** Splitting into lines *)

Lemma split_not_nil (sep : N) (s : jsstring) : split sep s <> [].
Proof.
  induction s as [|c s IH]; simpl; [done|].
  destruct (c =? sep)%N; [done|]. by destruct (split sep s).
Qed.

(** The lines of [x ++ y]: the complete lines of [x], then the lines of
    the unfinished line of [x] followed by [y]. *)
Lemma split_app (sep : N) (x y : jsstring) :
  split sep (x ++ y)
  = removelast (split sep x) ++ split sep (List.last (split sep x) [] ++ y).
Proof.
  induction x as [|c x IH]; simpl; [done|].
  destruct (c =? sep)%N eqn:Hc.
  - destruct (split sep x) as [|l ls] eqn:Hx; [by apply split_not_nil in Hx|].
    rewrite IH. done.
  - destruct (split sep x) as [|l ls] eqn:Hx; [by apply split_not_nil in Hx|].
    rewrite IH.
    destruct ls as [|l' ls'].
    + simpl. by rewrite Hc.
    + simpl. done.
Qed.

Lemma last_split_app (sep : N) (x y : jsstring) :
  last (split sep (x ++ y))
  = last (split sep (default [] (last (split sep x)) ++ y)).
Proof.
  assert (Hlast : forall l : list jsstring,
             l <> [] -> last l = Some (List.last l [])).
  { induction l as [|a [|b l] IH]; intros Hl; try done.
    change (last (a :: b :: l)) with (last (b :: l)).
    change (List.last (a :: b :: l) []) with (List.last (b :: l) []).
    by apply IH. }
  rewrite (Hlast (split sep x)) by apply split_not_nil. simpl.
  rewrite split_app, last_app.
  by rewrite (Hlast (split sep _)) by apply split_not_nil.
Qed.

Lemma removelast_split_app (sep : N) (x y : jsstring) :
  removelast (split sep (x ++ y))
  = removelast (split sep x)
    ++ removelast (split sep (default [] (last (split sep x)) ++ y)).
Proof.
  assert (Hlast : forall l : list jsstring,
             l <> [] -> last l = Some (List.last l [])).
  { induction l as [|a [|b l] IH]; intros Hl; try done.
    change (last (a :: b :: l)) with (last (b :: l)).
    change (List.last (a :: b :: l) []) with (List.last (b :: l) []).
    by apply IH. }
  rewrite (Hlast (split sep x)) by apply split_not_nil. simpl.
  rewrite split_app. apply removelast_app, split_not_nil.
Qed.

(** ** The read loop *)

Section PipelineFacts.
Context {E : Engine}.

Local Abbreviation val := (value number).

Lemma decode_app (d : decoder) (a b : list Byte.byte) :
  decode d (a ++ b)
  = ((decode (decode d a).1 b).1,
     (decode d a).2 ++ (decode (decode d a).1 b).2).
Proof.
  revert d. induction a as [|x a IH]; intros d; simpl.
  - by destruct (decode d b).
  - destruct (decoder_step d x) as [d1 out1]. rewrite IH.
    destruct (decode d1 a) as [d2 out2]. simpl.
    destruct (decode d2 b) as [d3 out3]. simpl. by rewrite app_assoc.
Qed.

Lemma on_chunk_eq (r : Reader) (c : ChatState) (chunk : list Byte.byte) :
  on_chunk (r, c) chunk
  = let dt := decode (decoder_state r) chunk in
    let lines := split LF (buffer r ++ dt.2) in
    let res := fold_left on_line (removelast lines) (currentEventType r, c) in
    ({| decoder_state := dt.1; buffer := default [] (last lines);
        currentEventType := res.1 |}, res.2).
Proof.
  unfold on_chunk, pop.
  destruct (decode (decoder_state r) chunk) as [d text]. simpl.
  by destruct (fold_left on_line _ _).
Qed.

(** Two reads in a row do what one read of the two chunks joined does. *)
Lemma on_chunk_app (st : Reader * ChatState) (a b : list Byte.byte) :
  on_chunk (on_chunk st a) b = on_chunk st (a ++ b).
Proof.
  destruct st as [r c].
  rewrite (on_chunk_eq r c a), (on_chunk_eq r c (a ++ b)). cbv zeta.
  rewrite on_chunk_eq. cbv zeta.
  cbn [decoder_state buffer currentEventType fst snd].
  rewrite decode_app. cbn [fst snd].
  set (da := decode (decoder_state r) a).
  set (db := decode da.1 b).
  rewrite (app_assoc (buffer r) da.2 db.2).
  rewrite (last_split_app LF (buffer r ++ da.2) db.2).
  rewrite (removelast_split_app LF (buffer r ++ da.2) db.2).
  rewrite fold_left_app.
  by rewrite <- (surjective_pairing (fold_left on_line
                    (removelast (split LF (buffer r ++ da.2))) _)).
Qed.

Lemma on_chunk_nil (st : Reader * ChatState) :
  buffer st.1 = default [] (last (split LF (buffer st.1))) ->
  removelast (split LF (buffer st.1)) = [] ->
  on_chunk st [] = st.
Proof.
  destruct st as [[d buf ev] c]. cbn [fst buffer]. intros Hbuf Hlines.
  rewrite on_chunk_eq. cbv zeta. cbn [decode fst snd decoder_state buffer
                                      currentEventType].
  by rewrite app_nil_r, Hlines, <- Hbuf.
Qed.

Lemma fold_on_chunk_concat (chunks : list (list Byte.byte))
    (st : Reader * ChatState) :
  fold_left on_chunk chunks (on_chunk st [])
  = on_chunk st (concat chunks).
Proof.
  revert st. induction chunks as [|a chunks IH]; intros st; simpl; [done|].
  rewrite on_chunk_app. simpl. rewrite <- on_chunk_app.
  rewrite <- IH. by rewrite on_chunk_app, app_nil_r.
Qed.

(** C3. Chunk boundaries are unobservable: however the bytes of the
    response are cut into chunks, the read loop ends with the reader (the
    decoder, the buffered unfinished line, the event type in force) and the
    view state (the accumulated content, the progress list, the thinking
    flag and the rest) that it ends with when the bytes come as one
    chunk. *)
Theorem chunking_is_unobservable (chunks : list (list Byte.byte))
    (c : ChatState) :
  read_all chunks c = read_all [concat chunks] c.
Proof.
  unfold read_all. cbn [fold_left].
  rewrite <- fold_on_chunk_concat.
  by rewrite on_chunk_nil.
Qed.

End PipelineFacts.

(** ** The lines and the dispatch *)

Section DispatchFacts.
Context {E : Engine}.

Local Abbreviation val := (value number).

Lemma on_line_data (ev : jsstring) (c : ChatState) (line : jsstring) :
  startsWith (js "data:") line = true ->
  on_line (ev, c) line = (js "message", on_data ev (dataContent line) c).
Proof.
  intros Hdata. pose proof (startsWith_inv _ _ Hdata) as Hline.
  assert (H1 : jsstring_eqb (trim line) [] = false).
  { rewrite Hline. apply jsstring_eqb_neq.
    by apply (trim_cons_not_nil 100%N). }
  assert (H2 : startsWith (js ":") line = false) by (by rewrite Hline).
  assert (H3 : startsWith (js "event:") line = false) by (by rewrite Hline).
  unfold on_line. by rewrite H1, H2, H3, Hdata.
Qed.

Lemma on_line_event (ev : jsstring) (c : ChatState) (line : jsstring) :
  startsWith (js "event:") line = true ->
  on_line (ev, c) line = (trim (slice_from 6 line), c).
Proof.
  intros Hevent. pose proof (startsWith_inv _ _ Hevent) as Hline.
  assert (H1 : jsstring_eqb (trim line) [] = false).
  { rewrite Hline. apply jsstring_eqb_neq.
    by apply (trim_cons_not_nil 101%N). }
  assert (H2 : startsWith (js ":") line = false) by (by rewrite Hline).
  unfold on_line. by rewrite H1, H2, Hevent.
Qed.


(** *** [findIndex] and the updater *)

Lemma findIndex_Some {A} (p : A -> bool) (l : list A) (i : nat) :
  findIndex p l = Some i ->
  exists x, l !! i = Some x /\ p x = true
            /\ forall j y, (j < i)%nat -> l !! j = Some y -> p y = false.
Proof.
  revert i. induction l as [|a l IH]; intros i; simpl; [done|].
  destruct (p a) eqn:Hpa.
  - intros [= <-]. exists a. repeat split; [done|]. intros j y Hj. lia.
  - destruct (findIndex p l) as [k|] eqn:Hk; [|done].
    intros [= <-]. destruct (IH k eq_refl) as (x & Hx & Hpx & Hbefore).
    exists x. repeat split; [done..|].
    intros [|j] y Hj; simpl; [by intros [= <-]|].
    apply Hbefore. lia.
Qed.

Lemma findIndex_None {A} (p : A -> bool) (l : list A) :
  findIndex p l = None <-> Forall (fun x => p x = false) l.
Proof.
  induction l as [|a l IH]; simpl; [by split; [constructor|]|].
  destruct (p a) eqn:Hpa.
  - split; [done|]. intros H. inversion H; congruence.
  - destruct (findIndex p l) eqn:Hk; simpl.
    + split; [done|]. intros H. inversion H as [|? ? _ Hl]; subst.
      by apply IH in Hl.
    + split; [|done]. intros _. constructor; [done|]. by apply IH.
Qed.


Lemma event_progress_not_thinking :
  jsstring_eqb (js "progress") (js "thinking") = false.
Proof. by apply jsstring_eqb_neq. Qed.



(** What the [progress] case does to a payload that is not [null]. *)
Lemma dispatch_progress (data : val) (c : ChatState) (t : val) :
  Get data (js "tool") = Some t ->
  dispatch (js "progress") data c
  = let c1 := if is_rich data then setProgressSteps (upsert data) c else c in
    match ToString (prop data (js "content")) with
    | None => (c1, Thrown)
    | Some text =>
        (setStreamingContent (streamingContentRef c1 ++ text)
           (setRef (streamingContentRef c1 ++ text) c1), Normal)
    end.
Proof.
  intros Ht. unfold dispatch.
  rewrite event_progress_not_thinking, jsstring_eqb_refl, Ht. done.
Qed.


(** *** Frames *)

(** What the two lines of a frame do. *)
Lemma on_frame_lines (f : Frame) (ev : jsstring) (c : ChatState) :
  fold_left on_line (frame_lines f) (ev, c)
  = (js "message", on_data (trim (frame_event f)) (trim (frame_data f)) c).
Proof.
  unfold frame_lines. cbn [fold_left].
  rewrite on_line_event by apply startsWith_app.
  rewrite on_line_data by apply startsWith_app.
  done.
Qed.

(** An event that is not [progress] and has an object as payload leaves
    the content buffer alone and throws nothing. *)
Lemma dispatch_other (ev : jsstring) (props : list (jsstring * val))
    (c : ChatState) :
  jsstring_eqb ev (js "progress") = false ->
  (dispatch ev (VObj props) c).2 = Normal
  /\ streamingContentRef (dispatch ev (VObj props) c).1
     = streamingContentRef c
  /\ progressSteps (dispatch ev (VObj props) c).1 = progressSteps c.
Proof.
  intros Hev. unfold dispatch. rewrite Hev. simpl.
  by repeat case_match.
Qed.

(** C1, amended. For a sequence of frames whose payloads are JSON objects
    and whose progress payloads hold a text [content], the content buffer
    the lines leave is the buffer before them followed by the [content]s of
    the progress frames, in arrival order. *)
Theorem content_is_the_progress_contents
    (frames : list Frame) (ev : jsstring) (c : ChatState) :
  Forall well_formed frames ->
  Forall has_text_content frames ->
  streamingContentRef
    (fold_left on_line (concat (map frame_lines frames)) (ev, c)).2
  = streamingContentRef c ++ concat (map specified_contribution frames).
Proof.
  intros Hwf Htext. revert ev c.
  induction frames as [|f frames IH]; intros ev c.
  - simpl. by rewrite app_nil_r.
  - inversion Hwf as [|? ? [props Hprops] Hwf']; subst.
    inversion Htext as [|? ? Hf Htext']; subst.
    cbn [map concat]. rewrite fold_left_app, on_frame_lines.
    rewrite (IH Hwf' Htext'). rewrite app_assoc. f_equal.
    unfold specified_contribution, on_data. rewrite Hprops.
    destruct (is_progress f) eqn:Hprog.
    + destruct (Hf Hprog) as (props' & text & Hparse & Hcontent).
      rewrite Hprops in Hparse. injection Hparse as <-.
      unfold is_progress in Hprog. apply jsstring_eqb_eq in Hprog.
      rewrite Hprog, (dispatch_progress (VObj props) c _ eq_refl).
      cbv zeta. unfold prop. cbn [Get default]. rewrite Hcontent.
      cbn [ToString]. by destruct (is_rich (VObj props)).
    + destruct (dispatch_other (trim (frame_event f)) props c Hprog)
        as (Hnormal & Href & _).
      destruct (dispatch (trim (frame_event f)) (VObj props) c) as [c' k].
      simpl in *. subst k. by rewrite Href, app_nil_r.
Qed.

(** *** The progress list *)

Lemma strict_eq_key (a b : val) :
  is_key b -> strict_eq a b = true <-> a = b.
Proof.
  intros Hb. destruct a, b; simpl in *; try done.
  rewrite jsstring_eqb_eq. split; congruence.
Qed.

Lemma same_key_spec (data : val) (s : ProgressStep) :
  typed_key data ->
  same_key data s = true <-> step_key s = step_key (newStep data).
Proof.
  intros [Htool Hfile]. unfold same_key, step_key. cbn [newStep tool file].
  rewrite andb_true_iff, (strict_eq_key _ _ Htool), (strict_eq_key _ _ Hfile).
  split; [by intros [-> ->]|]. by intros [= -> ->].
Qed.

Lemma same_key_false (data : val) (s : ProgressStep) :
  typed_key data ->
  same_key data s = false <-> step_key s <> step_key (newStep data).
Proof.
  intros Htyped. rewrite <- (same_key_spec data s Htyped).
  by destruct (same_key data s).
Qed.

(** The updater keeps the keys distinct. *)
Lemma upsert_NoDup (data : val) (prev : list ProgressStep) :
  typed_key data ->
  NoDup (map step_key prev) -> NoDup (map step_key (upsert data prev)).
Proof.
  intros Htyped Hnodup. unfold upsert.
  destruct (findIndex (same_key data) prev) as [i|] eqn:Hi.
  - destruct (findIndex_Some _ _ _ Hi) as (x & Hx & Hsame & _).
    apply (same_key_spec data x Htyped) in Hsame.
    replace (map step_key (<[i:=newStep data]> prev)) with (map step_key prev);
      [done|].
    change (map step_key) with (fmap (M:=list) step_key).
    rewrite list_fmap_insert, list_insert_id; [done|].
    by rewrite list_lookup_fmap, Hx, <- Hsame.
  - apply findIndex_None in Hi.
    rewrite map_app. cbn [map].
    apply NoDup_app. split; [done|]. split; [|apply NoDup_singleton].
    intros k Hk Hin. apply list_elem_of_singleton in Hin. subst k.
    apply list_elem_of_fmap in Hk as (s & Hks & Hs).
    rewrite Forall_forall in Hi. specialize (Hi s Hs).
    apply (same_key_false data s Htyped) in Hi. by apply Hi.
Qed.

(** The progress list after a progress payload. *)
Lemma on_data_progress_steps (payload : jsstring) (data : val)
    (c : ChatState) :
  JSON_parse payload = Some data ->
  progressSteps (on_data (js "progress") payload c)
  = if is_rich data then upsert data (progressSteps c) else progressSteps c.
Proof.
  intros Hparse. unfold on_data. rewrite Hparse.
  destruct (Get data (js "tool")) as [t|] eqn:Ht.
  - rewrite (dispatch_progress data c t Ht). cbv zeta.
    destruct (is_rich data);
      by destruct (ToString (prop data (js "content"))).
  - assert (Hplain : is_rich data = false) by (by destruct data).
    unfold dispatch.
    by rewrite event_progress_not_thinking, jsstring_eqb_refl, Ht, Hplain.
Qed.

Lemma progress_NoDup (payloads : list jsstring) (c : ChatState) :
  Forall progress_payload payloads ->
  NoDup (map step_key (progressSteps c)) ->
  NoDup (map step_key
           (progressSteps
              (fold_left (fun c p => on_data (js "progress") p c)
                         payloads c))).
Proof.
  intros Hall. revert c.
  induction Hall as [|p payloads (data & Hparse & Htyped) _ IH]; intros c Hc;
    [done|].
  cbn [fold_left]. apply IH.
  rewrite (on_data_progress_steps p data c Hparse).
  destruct (is_rich data); [by apply upsert_NoDup | done].
Qed.

(** C2, amended. Through any sequence of progress events whose [tool] and
    [file] are of the declared type, the progress list holds at most one
    step per ([tool], [file]).  An event that carries a truthy [tool],
    [file] or [action] replaces the step that has its key, where that step
    stands, and is put at the end of the list when no step has its key; an
    event that carries none of the three leaves the list as it is.  The two
    frames of the specification, (grep, a.py) running with content x and
    then completed with content y, leave one step, completed, and the
    content buffer xy. *)
Theorem progress_list_is_keyed
    (payloads : list jsstring) (c : ChatState)
    (payload : jsstring) (data : val) :
  Forall progress_payload payloads ->
  NoDup (map step_key (progressSteps c)) ->
  JSON_parse payload = Some data ->
  typed_key data ->
  NoDup (map step_key
           (progressSteps
              (fold_left (fun c p => on_data (js "progress") p c)
                         payloads c)))
  /\ (is_rich data = true ->
      forall i s, progressSteps c !! i = Some s ->
                  step_key s = step_key (newStep data) ->
                  progressSteps (on_data (js "progress") payload c)
                  = <[i := newStep data]> (progressSteps c))
  /\ (is_rich data = true ->
      (forall s, s ∈ progressSteps c ->
                 step_key s <> step_key (newStep data)) ->
      progressSteps (on_data (js "progress") payload c)
      = progressSteps c ++ [newStep data])
  /\ (is_rich data = false ->
      progressSteps (on_data (js "progress") payload c) = progressSteps c)
  /\ (forall c0 : ChatState,
        progressSteps c0 = [] -> streamingContentRef c0 = [] ->
        let running : val :=
          VObj [(js "tool", VStr (js "grep")); (js "file", VStr (js "a.py"));
                (js "status", VStr (js "running"));
                (js "content", VStr (js "x"))] in
        let completed : val :=
          VObj [(js "tool", VStr (js "grep")); (js "file", VStr (js "a.py"));
                (js "status", VStr (js "completed"));
                (js "content", VStr (js "y"))] in
        let c2 :=
          (dispatch (js "progress") completed
             (dispatch (js "progress") running c0).1).1 in
        progressSteps c2
        = [{| tool := VStr (js "grep"); file := VStr (js "a.py");
              action := VUndefined; status := VStr (js "completed");
              content := VStr (js "y") |}]
        /\ streamingContentRef c2 = js "xy").
Proof.
  intros Hall Hnodup Hparse Htyped.
  split; [by apply progress_NoDup|].
  rewrite (on_data_progress_steps payload data c Hparse).
  split; [|split; [|split]].
  - intros -> i s Hi Hkey. unfold upsert.
    destruct (findIndex (same_key data) (progressSteps c)) as [j|] eqn:Hj.
    + destruct (findIndex_Some _ _ _ Hj) as (x & Hx & Hsame & _).
      apply (same_key_spec data x Htyped) in Hsame.
      assert (j = i) as ->; [|done].
      apply (NoDup_lookup _ j i (step_key s) Hnodup).
      * change (map step_key) with (fmap (M:=list) step_key).
        rewrite list_lookup_fmap, Hx. simpl. by rewrite Hsame, Hkey.
      * change (map step_key) with (fmap (M:=list) step_key).
        by rewrite list_lookup_fmap, Hi.
    + apply findIndex_None in Hj. rewrite Forall_forall in Hj.
      assert (Hin : s ∈ progressSteps c) by (by eapply list_elem_of_lookup_2).
      apply (same_key_false data s Htyped) in Hkey; [done|by apply Hj].
  - intros -> Hnew. unfold upsert.
    destruct (findIndex (same_key data) (progressSteps c)) as [j|] eqn:Hj;
      [|done].
    destruct (findIndex_Some _ _ _ Hj) as (x & Hx & Hsame & _).
    apply (same_key_spec data x Htyped) in Hsame.
    by apply Hnew in Hsame; [|eapply list_elem_of_lookup_2].
  - by intros ->.
  - intros c0 Hsteps Href running completed c2.
    subst c2 running completed.
    destruct c0. simpl in Hsteps, Href. subst. by vm_compute.
Qed.

End DispatchFacts.

(** ** Sending *)

Section SendFacts.
Context {E : Engine}.
Variable env : Env.

Local Abbreviation val := (value number).

(** *** The read loop leaves the transcript alone *)

Lemma dispatch_messages (ev : jsstring) (data : val) (c : ChatState) :
  messages (dispatch ev data c).1 = messages c.
Proof.
  unfold dispatch. repeat case_match; done.
Qed.

Lemma on_data_messages (ev payload : jsstring) (c : ChatState) :
  messages (on_data ev payload c) = messages c.
Proof.
  unfold on_data. destruct (JSON_parse payload) as [data|]; [|done].
  pose proof (dispatch_messages ev data c) as H.
  destruct (dispatch ev data c) as [c' []]; simpl in *; done.
Qed.

Lemma on_line_messages (st : jsstring * ChatState) (line : jsstring) :
  messages (on_line st line).2 = messages st.2.
Proof.
  destruct st as [ev c]. unfold on_line.
  repeat case_match; try done. simpl. apply on_data_messages.
Qed.

Lemma fold_on_line_messages (lines : list jsstring)
    (st : jsstring * ChatState) :
  messages (fold_left on_line lines st).2 = messages st.2.
Proof.
  revert st. induction lines as [|l lines IH]; intros st; simpl; [done|].
  by rewrite IH, on_line_messages.
Qed.

Lemma read_all_messages (chunks : list (list Byte.byte)) (c : ChatState) :
  messages (read_all chunks c).2 = messages c.
Proof.
  unfold read_all.
  assert (H : forall st, messages (fold_left on_chunk chunks st).2
                         = messages st.2).
  { induction chunks as [|a chunks IH]; intros st; simpl; [done|].
    rewrite IH. destruct st as [r c0]. rewrite on_chunk_eq. cbv zeta.
    cbn [snd]. apply fold_on_line_messages. }
  by rewrite H.
Qed.

(** *** The stages of [sendMessage] *)

Lemma try_catch_run {A} (m : M A) (h : exn -> M A) (w : World) :
  try_catch m h w
  = match (m w).1 with
    | Returned a => (Returned a, (m w).2)
    | Raised e => h e (m w).2
    end.
Proof. unfold try_catch. by destruct (m w) as [[a|e] w']. Qed.

Lemma try_finally_run {A} (m : M A) (f : M unit) (w : World) :
  (forall w', (f w').1 = Returned tt) ->
  try_finally m f w = ((m w).1, (f (m w).2).2).
Proof.
  intros Hf. unfold try_finally. destruct (m w) as [r w']. simpl.
  specialize (Hf w'). by destruct (f w') as [[[]|e] w''].
Qed.

Lemma settle_run (w : World) :
  settle w
  = (Returned tt,
     {| chat :=
          setStreamingContent []
            (setProgressSteps (fun _ => [])
               (setIsThinking false
                  (setIsStreaming false (setIsLoading false (chat w)))));
        store := store w; fetched := fetched w;
        clock_reads := clock_reads w |}).
Proof. reflexivity. Qed.

Lemma apologize_run (active : Session) (w : World) :
  apologize env active w
  = (Returned tt,
     {| chat := setMessages (fun prev => prev ++ [errorMessage_at env w])
                            (chat w);
        store := addMessageToSession (session_id active) (errorMessage_at env w)
                   (clock env (S (S (clock_reads w)))) (store w);
        fetched := fetched w;
        clock_reads := S (S (S (clock_reads w))) |}).
Proof. reflexivity. Qed.

(** A failing streaming attempt raises, after one request, and leaves
    the store and the transcript as they were. *)
Lemma stream_attempt_fails (active : Session) (text : jsstring) (w : World) :
  stream_failure env (stream_request active text) ->
  (exists e, (stream_attempt env active text w).1 = Raised e)
  /\ store (stream_attempt env active text w).2 = store w
  /\ fetched (stream_attempt env active text w).2
     = fetched w ++ [stream_request active text]
  /\ clock_reads (stream_attempt env active text w).2 = clock_reads w
  /\ messages (chat (stream_attempt env active text w).2)
     = messages (chat w).
Proof.
  intros Hfail. unfold stream_attempt, mbind, M_bind, bind, fetch.
  destruct Hfail as [Hnet | res Hres Hok | res b Hres Hok Hbody Hbreaks].
  - rewrite Hnet. simpl. split; [by eexists | done].
  - rewrite Hres, Hok. simpl. split; [by eexists | done].
  - rewrite Hres, Hok, Hbody. simpl.
    unfold read_loop, update_chat. simpl.
    pose proof (read_all_messages (chunks b) (setIsStreaming true (chat w)))
      as Hmsgs.
    destruct (read_all (chunks b) (setIsStreaming true (chat w))) as [r c'].
    rewrite Hbreaks. simpl in *. split; [by eexists | done].
Qed.

Lemma reply_content_failure (req : Request) :
  fallback_failure env req -> reply_content env req = VStr apology.
Proof.
  unfold reply_content.
  intros [Hnet | res Hres Hok | res Hres Hok Hjson | res Hres Hok Hjson].
  - by rewrite Hnet.
  - by rewrite Hres, Hok.
  - by rewrite Hres, Hok, Hjson.
  - by rewrite Hres, Hok, Hjson.
Qed.

Lemma transcripts_addMessage (sid : jsstring) (m : Message) (t : Z)
    (st : Store) :
  transcripts (addMessageToSession sid m t st)
  = appended sid m (transcripts st).
Proof.
  unfold transcripts, appended, addMessageToSession, update_session.
  cbn [sessions]. rewrite !map_map. apply map_ext. intros s. cbn [fst snd].
  by destruct (jsstring_eqb (session_id s) sid).
Qed.

Lemma transcripts_updateName (sid name : jsstring) (t : Z) (st : Store) :
  transcripts (updateSessionName sid name t st) = transcripts st.
Proof.
  unfold transcripts, updateSessionName, update_session.
  cbn [sessions]. rewrite map_map. apply map_ext. intros s.
  by destruct (jsstring_eqb (session_id s) sid).
Qed.

Lemma name_first_transcripts (active : Session) (text : jsstring)
    (w : World) :
  (name_first env active text w).1 = Returned tt
  /\ transcripts (store (name_first env active text w).2)
     = transcripts (store w)
  /\ chat (name_first env active text w).2 = chat w
  /\ fetched (name_first env active text w).2 = fetched w.
Proof.
  unfold name_first. destruct (session_messages active); [|done].
  simpl. by rewrite transcripts_updateName.
Qed.

(** The fallback and, when it fails, the apology: one request, no
    exception, one assistant message. *)
Lemma recover_run (active : Session) (text : jsstring) (w : World) :
  let r := try_catch (fallback_attempt env active text)
                     (fun _ => apologize env active) w in
  r.1 = Returned tt
  /\ fetched r.2 = fetched w ++ [fallback_request active text]
  /\ exists a,
       role a = assistant
       /\ msg_content a = reply_content env (fallback_request active text)
       /\ messages (chat r.2) = messages (chat w) ++ [a]
       /\ transcripts (store r.2)
          = appended (session_id active) a (transcripts (store w)).
Proof.
  cbv zeta. rewrite try_catch_run.
  unfold reply_content, fallback_attempt, mbind, M_bind, bind, fetch.
  destruct (server env (fallback_request active text)) as [res|];
    cbn [fst snd].
  2: { rewrite apologize_run. cbn [fst snd fetched chat store].
       split; [done|]. split; [done|].
       eexists. split; [|split; [|split]]; [| |done|];
         [done|done|apply transcripts_addMessage]. }
  destruct (res_ok res); cbn [negb].
  2: { unfold throw. cbn [fst snd]. rewrite apologize_run.
       cbn [fst snd fetched chat store].
       split; [done|]. split; [done|].
       eexists. split; [|split; [|split]]; [| |done|];
         [done|done|apply transcripts_addMessage]. }
  unfold json. destruct (res_json res) as [data|].
  2: { unfold throw. cbn [fst snd]. rewrite apologize_run.
       cbn [fst snd fetched chat store].
       split; [done|]. split; [done|].
       eexists. split; [|split; [|split]]; [| |done|];
         [done|done|apply transcripts_addMessage]. }
  unfold ret, get, Date_now. cbn [fst snd].
  destruct (Get data (js "response")) as [response|] eqn:Hresponse.
  2: { unfold throw. cbn [fst snd]. rewrite apologize_run.
       cbn [fst snd fetched chat store].
       split; [done|]. split; [done|].
       eexists. split; [|split; [|split]]; [| |done|];
         [done|done|apply transcripts_addMessage]. }
  assert (Hget : forall k, Get data k = Some (prop data k)).
  { intros k. destruct data; try done. }
  rewrite (Hget (js "message")), (Hget (js "toolCalls")).
  unfold ret. cbn [fst snd].
  unfold append_message, mbind, M_bind, bind, update_chat, update_store,
    Date_now. cbn [fst snd chat store fetched clock_reads].
  match goal with
  | |- context [name_first env active text ?w1] =>
      destruct (name_first_transcripts active text w1)
        as (Hret & Htr & Hchat & Hfetched);
      destruct (name_first env active text w1) as [r1 w2]
  end.
  cbn [fst snd] in *. subst r1.
  cbn [fst snd chat store fetched clock_reads].
  rewrite Hfetched, Hchat, Htr. cbn [fetched chat store].
  split; [done|]. split; [done|].
  eexists. split; [|split; [|split]]; [| |done|];
    [done|done|apply transcripts_addMessage].
Qed.

Lemma sendMessage_eq (content : jsstring) (w : World) :
  sendMessage env content w
  = match activeSession (store w) with
    | Some active =>
        if jsstring_eqb (trim content) [] || isLoading (chat w)
        then (Returned tt, w)
        else
          try_finally
            (try_catch
               (stream_attempt env active (trim content))
               (fun _ =>
                  try_catch (fallback_attempt env active (trim content))
                            (fun _ => apologize env active)))
            (settle) (started env active content w)
    | None => (Returned tt, w)
    end.
Proof.
  unfold sendMessage.
  destruct (activeSession (store w)) as [active|]; [|done].
  by destruct (jsstring_eqb (trim content) [] || isLoading (chat w)).
Qed.

Lemma sendMessage_run (content : jsstring) (w : World) (active : Session) :
  activeSession (store w) = Some active ->
  trim content <> [] ->
  isLoading (chat w) = false ->
  sendMessage env content w
  = try_finally
      (try_catch
         (stream_attempt env active (trim content))
         (fun _ =>
            try_catch (fallback_attempt env active (trim content))
                      (fun _ => apologize env active)))
      (settle) (started env active content w).
Proof.
  intros Hactive Htext Hloading. rewrite sendMessage_eq.
  rewrite Hactive, Hloading.
  apply jsstring_eqb_neq in Htext. by rewrite Htext.
Qed.

Lemma settle_returns (w : World) : (settle w).1 = Returned tt.
Proof. reflexivity. Qed.

(** [sendMessage] resolves: no exception leaves it. *)
Lemma sendMessage_never_raises (content : jsstring) (w : World) :
  (sendMessage env content w).1 = Returned tt.
Proof.
  rewrite sendMessage_eq.
  destruct (activeSession (store w)) as [active|]; [|done].
  destruct (jsstring_eqb (trim content) [] || isLoading (chat w)); [done|].
  rewrite try_finally_run by apply settle_returns. cbn [fst].
  rewrite try_catch_run.
  destruct (stream_attempt env active (trim content)
              (started env active content w)) as [[[]|e] w2]; [done|].
  cbn [fst snd].
  by destruct (recover_run active (trim content) w2) as [Hret _].
Qed.

Lemma failed_stream_requests (content : jsstring) (w : World)
    (active : Session) :
  activeSession (store w) = Some active ->
  trim content <> [] ->
  isLoading (chat w) = false ->
  stream_failure env (stream_request active (trim content)) ->
  fetched (sendMessage env content w).2
  = fetched w ++ [stream_request active (trim content);
                  fallback_request active (trim content)].
Proof.
  intros Hactive Htext Hloading Hfail.
  rewrite (sendMessage_run content w active Hactive Htext Hloading).
  rewrite try_finally_run by apply settle_returns. cbn [snd].
  rewrite settle_run. cbn [snd fetched].
  rewrite try_catch_run.
  destruct (stream_attempt_fails active (trim content)
              (started env active content w) Hfail)
    as ([e He] & _ & Hfetched & _).
  rewrite He.
  destruct (recover_run active (trim content)
              (stream_attempt env active (trim content)
                 (started env active content w)).2) as (_ & Hf & _).
  rewrite Hf, Hfetched. cbn [started fetched]. by rewrite <- app_assoc.
Qed.

Lemma appended_elem (sid : jsstring) (m : Message)
    (ts : list (jsstring * list Message)) (ms : list Message) :
  (sid, ms) ∈ ts -> (sid, ms ++ [m]) ∈ appended sid m ts.
Proof.
  intros Hin. unfold appended.
  apply list_elem_of_fmap. exists (sid, ms). split; [|done].
  cbn [fst snd]. by rewrite jsstring_eqb_refl.
Qed.

Lemma activeSession_transcript (st : Store) (active : Session) :
  activeSession st = Some active ->
  (session_id active, session_messages active) ∈ transcripts st.
Proof.
  unfold activeSession, transcripts. intros Hfind.
  apply find_some in Hfind as [Hin _].
  apply list_elem_of_fmap. exists active. split; [done|].
  by apply list_elem_of_In.
Qed.

(** What a send leaves when the streaming attempt fails: the user message
    and one assistant message, whose content the fallback decides. *)
Lemma failed_stream_run (content : jsstring) (w : World) (active : Session) :
  activeSession (store w) = Some active ->
  trim content <> [] ->
  isLoading (chat w) = false ->
  stream_failure env (stream_request active (trim content)) ->
  exists u a,
    role u = user /\ msg_content u = VStr (trim content)
    /\ role a = assistant
    /\ msg_content a
       = reply_content env (fallback_request active (trim content))
    /\ messages (chat (sendMessage env content w).2)
       = messages (chat w) ++ [u; a]
    /\ transcripts (store (sendMessage env content w).2)
       = appended (session_id active) a
           (appended (session_id active) u (transcripts (store w)))
    /\ (session_id active, session_messages active ++ [u; a])
       ∈ transcripts (store (sendMessage env content w).2).
Proof.
  intros Hactive Htext Hloading Hfail.
  rewrite (sendMessage_run content w active Hactive Htext Hloading).
  rewrite try_finally_run by apply settle_returns. cbn [snd].
  rewrite settle_run. cbn [snd chat store].
  rewrite try_catch_run.
  destruct (stream_attempt_fails active (trim content)
              (started env active content w) Hfail)
    as ([e He] & Hstore & _ & _ & Hmsgs).
  rewrite He.
  destruct (recover_run active (trim content)
              (stream_attempt env active (trim content)
                 (started env active content w)).2)
    as (_ & _ & a & Hrole & Hcontent & Hmessages & Htranscripts).
  cbv zeta in *.
  exists (userMessage_at env content w), a.
  split; [done|]. split; [done|]. split; [done|]. split; [done|].
  assert (Htr : transcripts
                  (store
                     (try_catch (fallback_attempt env active (trim content))
                        (fun _ => apologize env active)
                        (stream_attempt env active (trim content)
                           (started env active content w)).2).2)
                = appended (session_id active) a
                    (appended (session_id active) (userMessage_at env content w)
                       (transcripts (store w)))).
  { rewrite Htranscripts, Hstore. cbn [started store].
    by rewrite transcripts_addMessage. }
  split; [|split; [exact Htr|]].
  - cbn [messages setStreamingContent setProgressSteps setIsThinking
         setIsStreaming setIsLoading].
    rewrite Hmessages, Hmsgs. cbn [started chat messages setIsLoading setRef
      setIsThinking setIsStreaming setStreamingContent setMessages].
    by rewrite <- app_assoc.
  - rewrite Htr.
    replace (session_messages active ++ [userMessage_at env content w; a])
      with ((session_messages active ++ [userMessage_at env content w]) ++ [a])
      by (by rewrite <- app_assoc).
    by apply appended_elem, appended_elem, activeSession_transcript.
Qed.

(** *** The hook *)

Lemma useChat_stream_attempt_fails (sessionId text : jsstring) (w : World) :
  stream_failure env (useChat_stream_request sessionId text) ->
  (exists e, (useChat_stream_attempt env sessionId text w).1 = Raised e)
  /\ fetched (useChat_stream_attempt env sessionId text w).2
     = fetched w ++ [useChat_stream_request sessionId text]
  /\ messages (chat (useChat_stream_attempt env sessionId text w).2)
     = messages (chat w).
Proof.
  intros Hfail. unfold useChat_stream_attempt, mbind, M_bind, bind, fetch.
  destruct Hfail as [Hnet | res Hres Hok | res b Hres Hok Hbody Hbreaks].
  - rewrite Hnet. simpl. split; [by eexists | done].
  - rewrite Hres, Hok. simpl. split; [by eexists | done].
  - rewrite Hres, Hok, Hbody. simpl.
    unfold read_loop, update_chat. simpl.
    pose proof (read_all_messages (chunks b) (setIsStreaming true (chat w)))
      as Hmsgs.
    destruct (read_all (chunks b) (setIsStreaming true (chat w))) as [r c'].
    rewrite Hbreaks. simpl in *. split; [by eexists | done].
Qed.

Lemma useChat_apologize_run (w : World) :
  useChat_apologize env w
  = (Returned tt,
     {| chat := setMessages
                  (fun _ => messages (chat w) ++ [errorMessage_at env w])
                  (chat w);
        store := {| sessions := sessions (store w);
                    activeSessionId := activeSessionId (store w);
                    localStorage :=
                      saveMessages
                        (messages (chat w) ++ [errorMessage_at env w])
                                   (localStorage (store w)) |};
        fetched := fetched w;
        clock_reads := S (S (clock_reads w)) |}).
Proof. reflexivity. Qed.

Lemma useChat_recover_run (sessionId text : jsstring) (w : World) :
  let r := try_catch (useChat_fallback_attempt env sessionId text)
                     (fun _ => useChat_apologize env) w in
  r.1 = Returned tt
  /\ fetched r.2 = fetched w ++ [useChat_fallback_request sessionId text]
  /\ exists a,
       role a = assistant
       /\ msg_content a
          = reply_content env (useChat_fallback_request sessionId text)
       /\ messages (chat r.2) = messages (chat w) ++ [a].
Proof.
  cbv zeta. rewrite try_catch_run.
  unfold reply_content, useChat_fallback_attempt, mbind, M_bind, bind, fetch.
  destruct (server env (useChat_fallback_request sessionId text)) as [res|];
    cbn [fst snd].
  2: { unfold throw. cbn [fst snd]. rewrite useChat_apologize_run.
       cbn [fst snd fetched chat]. split; [done|]. split; [done|].
       eexists. split; [|split]; [| |simpl; reflexivity]; reflexivity. }
  destruct (res_ok res); cbn [negb].
  2: { unfold throw. cbn [fst snd]. rewrite useChat_apologize_run.
       cbn [fst snd fetched chat]. split; [done|]. split; [done|].
       eexists. split; [|split]; [| |simpl; reflexivity]; reflexivity. }
  unfold json. destruct (res_json res) as [data|].
  2: { unfold throw. cbn [fst snd]. rewrite useChat_apologize_run.
       cbn [fst snd fetched chat]. split; [done|]. split; [done|].
       eexists. split; [|split]; [| |simpl; reflexivity]; reflexivity. }
  unfold ret, get, Date_now. cbn [fst snd].
  destruct (Get data (js "response")) as [response|] eqn:Hresponse.
  2: { unfold throw. cbn [fst snd]. rewrite useChat_apologize_run.
       cbn [fst snd fetched chat]. split; [done|]. split; [done|].
       eexists. split; [|split]; [| |simpl; reflexivity]; reflexivity. }
  assert (Hget : forall k, Get data k = Some (prop data k)).
  { intros k. destruct data; try done. }
  rewrite (Hget (js "message")), (Hget (js "toolCalls")).
  unfold ret. cbn [fst snd].
  split; [done|]. split; [done|].
  eexists. split; [|split]; [| |simpl; reflexivity]; reflexivity.
Qed.

Lemma useChat_sendMessage_eq (sessionId content : jsstring) (w : World) :
  useChat_sendMessage env sessionId content w
  = if jsstring_eqb (trim content) [] || isLoading (chat w)
    then (Returned tt, w)
    else
      try_finally
        (try_catch
           (useChat_stream_attempt env sessionId (trim content))
           (fun _ =>
              try_catch (useChat_fallback_attempt env sessionId (trim content))
                        (fun _ => useChat_apologize env)))
        (settle) (useChat_started env content w).
Proof.
  unfold useChat_sendMessage.
  by destruct (jsstring_eqb (trim content) [] || isLoading (chat w)).
Qed.

Lemma useChat_sendMessage_never_raises (sessionId content : jsstring)
    (w : World) :
  (useChat_sendMessage env sessionId content w).1 = Returned tt.
Proof.
  rewrite useChat_sendMessage_eq.
  destruct (jsstring_eqb (trim content) [] || isLoading (chat w)); [done|].
  rewrite try_finally_run by apply settle_returns. cbn [fst].
  rewrite try_catch_run.
  destruct (useChat_stream_attempt env sessionId (trim content)
              (useChat_started env content w)) as [[[]|e] w2]; [done|].
  cbn [fst snd].
  by destruct (useChat_recover_run sessionId (trim content) w2) as [Hret _].
Qed.

Lemma useChat_failed_stream_run (sessionId content : jsstring) (w : World) :
  trim content <> [] ->
  isLoading (chat w) = false ->
  stream_failure env (useChat_stream_request sessionId (trim content)) ->
  fetched (useChat_sendMessage env sessionId content w).2
  = fetched w ++ [useChat_stream_request sessionId (trim content);
                  useChat_fallback_request sessionId (trim content)]
  /\ exists u a,
       role u = user /\ msg_content u = VStr (trim content)
       /\ role a = assistant
       /\ msg_content a
          = reply_content env
              (useChat_fallback_request sessionId (trim content))
       /\ messages (chat (useChat_sendMessage env sessionId content w).2)
          = messages (chat w) ++ [u; a].
Proof.
  intros Htext Hloading Hfail.
  rewrite useChat_sendMessage_eq, Hloading.
  apply jsstring_eqb_neq in Htext. rewrite Htext. cbn [orb].
  rewrite try_finally_run by apply settle_returns. cbn [snd].
  rewrite settle_run. cbn [snd chat fetched].
  rewrite try_catch_run.
  destruct (useChat_stream_attempt_fails sessionId (trim content)
              (useChat_started env content w) Hfail)
    as ([e He] & Hfetched & Hmsgs).
  rewrite He.
  destruct (useChat_recover_run sessionId (trim content)
              (useChat_stream_attempt env sessionId (trim content)
                 (useChat_started env content w)).2)
    as (_ & Hf & a & Hrole & Hcontent & Hmessages).
  cbv zeta in *. split.
  - rewrite Hf, Hfetched. cbn [useChat_started fetched].
    by rewrite <- app_assoc.
  - exists (userMessage_at env content w), a.
    split; [done|]. split; [done|]. split; [done|]. split; [done|].
    cbn [messages setStreamingContent setProgressSteps setIsThinking
         setIsStreaming setIsLoading].
    rewrite Hmessages, Hmsgs.
    cbn [useChat_started chat messages setIsLoading setRef
         setIsThinking setIsStreaming setStreamingContent setMessages].
    by rewrite <- app_assoc.
Qed.

(** *** A stream that is read to its end *)

Lemma completed_stream_run (content : jsstring) (w : World)
    (active : Session) (res : Response) (b : Body) :
  activeSession (store w) = Some active ->
  trim content <> [] ->
  isLoading (chat w) = false ->
  server env (stream_request active (trim content)) = Some res ->
  res_ok res = true -> res_body res = Some b -> breaks b = false ->
  fetched (sendMessage env content w).2
  = fetched w ++ [stream_request active (trim content)]
  /\ exists u a,
       role u = user /\ msg_content u = VStr (trim content)
       /\ role a = assistant
       /\ msg_content a
          = VStr (final_content (streamed b (started env active content w)))
       /\ messages (chat (sendMessage env content w).2)
          = messages (chat w) ++ [u; a].
Proof.
  intros Hactive Htext Hloading Hres Hok Hbody Hbreaks.
  rewrite (sendMessage_run content w active Hactive Htext Hloading).
  rewrite try_finally_run by apply settle_returns. cbn [snd].
  rewrite settle_run. cbn [snd chat fetched].
  rewrite try_catch_run.
  unfold stream_attempt, mbind, M_bind, bind, fetch.
  rewrite Hres. cbn [fst snd]. rewrite Hok, Hbody. cbn [negb].
  unfold read_loop, update_chat, streamed, final_content.
  cbn [fst snd chat store fetched clock_reads].
  pose proof (read_all_messages (chunks b)
                (setIsStreaming true (chat (started env active content w))))
    as Hmsgs.
  destruct (read_all (chunks b)
              (setIsStreaming true (chat (started env active content w))))
    as [r c'].
  rewrite Hbreaks. cbn [fst snd] in *.
  unfold Date_now, get_chat, append_message, mbind, M_bind, bind,
    update_chat, update_store, Date_now.
  cbn [fst snd chat store fetched clock_reads].
  match goal with
  | |- context [name_first env active (trim content) ?w1] =>
      destruct (name_first_transcripts active (trim content) w1)
        as (Hret & _ & Hchat & Hfetched);
      destruct (name_first env active (trim content) w1) as [r1 w2]
  end.
  cbn [fst snd] in *. subst r1.
  cbn [fst snd chat store fetched clock_reads].
  rewrite Hfetched, Hchat. cbn [fetched chat started]. split; [done|].
  eexists (userMessage_at env content w), _.
  split; [done|]. split; [done|]. split; [|split]; [| |
    cbn [messages setStreamingContent setProgressSteps setIsThinking
         setIsStreaming setIsLoading setShowSummary setMessages];
    rewrite Hmsgs;
    cbn [messages setIsLoading setRef setIsThinking setIsStreaming
         setStreamingContent setMessages];
    cbn [started chat messages setIsLoading setRef setIsThinking
         setIsStreaming setStreamingContent setMessages];
    rewrite <- app_assoc; reflexivity]; reflexivity.
Qed.

(** C4. When the streaming request fails (on the network, with a status
    that is not 2xx, or with a read of the body that rejects), [sendMessage]
    issues, after it, one request to the fallback endpoint [/api/chat] and
    no other, and the body of that request is the body of the streaming
    request.  So does the [sendMessage] of the hook. *)
Theorem one_fallback_request_with_the_same_payload
    (content : jsstring) (w : World) (active : Session)
    (sessionId : jsstring) :
  activeSession (store w) = Some active ->
  trim content <> [] ->
  isLoading (chat w) = false ->
  stream_failure env (stream_request active (trim content)) ->
  stream_failure env (useChat_stream_request sessionId (trim content)) ->
  (fetched (sendMessage env content w).2
   = fetched w ++ [stream_request active (trim content);
                   fallback_request active (trim content)]
   /\ url (stream_request active (trim content)) = js "/api/chat/stream"
   /\ url (fallback_request active (trim content)) = js "/api/chat"
   /\ payload (fallback_request active (trim content))
      = payload (stream_request active (trim content)))
  /\ (fetched (useChat_sendMessage env sessionId content w).2
      = fetched w ++ [useChat_stream_request sessionId (trim content);
                      useChat_fallback_request sessionId (trim content)]
     /\ url (useChat_stream_request sessionId (trim content))
        = js "/api/chat/stream"
     /\ url (useChat_fallback_request sessionId (trim content))
        = js "/api/chat"
     /\ payload (useChat_fallback_request sessionId (trim content))
        = payload (useChat_stream_request sessionId (trim content))).
Proof.
  intros Hactive Htext Hloading Hfail Hfail'. split.
  - split; [|done]. by apply failed_stream_requests.
  - split; [|done].
    by destruct (useChat_failed_stream_run sessionId content w
                   Htext Hloading Hfail') as [Hfetched _].
Qed.

(** C5. When the streaming request and the fallback request both fail,
    [sendMessage] does not raise: it returns, having appended to the
    transcript of the active session the user message and then one
    assistant message whose content is the fixed apology, and nothing
    else.  So does the [sendMessage] of the hook, on its own transcript. *)
Theorem both_fail_appends_the_apology_once
    (content : jsstring) (w : World) (active : Session)
    (sessionId : jsstring) :
  activeSession (store w) = Some active ->
  trim content <> [] ->
  isLoading (chat w) = false ->
  stream_failure env (stream_request active (trim content)) ->
  fallback_failure env (fallback_request active (trim content)) ->
  stream_failure env (useChat_stream_request sessionId (trim content)) ->
  fallback_failure env (useChat_fallback_request sessionId (trim content)) ->
  ((sendMessage env content w).1 = Returned tt
   /\ exists u a,
        role u = user /\ msg_content u = VStr (trim content)
        /\ role a = assistant /\ msg_content a = VStr apology
        /\ messages (chat (sendMessage env content w).2)
           = messages (chat w) ++ [u; a]
        /\ transcripts (store (sendMessage env content w).2)
           = appended (session_id active) a
               (appended (session_id active) u (transcripts (store w)))
        /\ (session_id active, session_messages active ++ [u; a])
           ∈ transcripts (store (sendMessage env content w).2))
  /\ ((useChat_sendMessage env sessionId content w).1 = Returned tt
      /\ exists u a,
           role u = user /\ msg_content u = VStr (trim content)
           /\ role a = assistant /\ msg_content a = VStr apology
           /\ messages (chat (useChat_sendMessage env sessionId content w).2)
              = messages (chat w) ++ [u; a]).
Proof.
  intros Hactive Htext Hloading Hstream Hfallback Hstream' Hfallback'. split.
  - split; [apply sendMessage_never_raises|].
    destruct (failed_stream_run content w active Hactive Htext Hloading
                Hstream)
      as (u & a & Hu & Hcu & Ha & Hca & Hmsgs & Htr & Hin).
    rewrite (reply_content_failure _ Hfallback) in Hca.
    by exists u, a.
  - split; [apply useChat_sendMessage_never_raises|].
    destruct (useChat_failed_stream_run sessionId content w
                Htext Hloading Hstream')
      as (_ & u & a & Hu & Hcu & Ha & Hca & Hmsgs).
    rewrite (reply_content_failure _ Hfallback') in Hca.
    by exists u, a.
Qed.

(** C6, amended. When the read of the streamed body rejects after any
    number of chunks, the assistant message that [sendMessage] appends is
    the one of the fallback path: its content is what the backend answers
    to the fallback request ([response], else [message], else a
    placeholder), or the fixed apology when the fallback fails too.  What
    the chunks had accumulated is not part of it.  So for the hook.  An
    [error] event inside the stream is no such failure: it leaves the state
    as it is, and a body that is read to its end is finalized with what its
    chunks have accumulated (a placeholder when that is empty). *)
Theorem broken_stream_is_answered_by_the_fallback
    (content : jsstring) (w : World) (active : Session)
    (sessionId : jsstring) :
  activeSession (store w) = Some active ->
  trim content <> [] ->
  isLoading (chat w) = false ->
  (forall res b,
     server env (stream_request active (trim content)) = Some res ->
     res_ok res = true -> res_body res = Some b -> breaks b = true ->
     exists u a,
       role u = user /\ msg_content u = VStr (trim content)
       /\ role a = assistant
       /\ msg_content a
          = reply_content env (fallback_request active (trim content))
       /\ messages (chat (sendMessage env content w).2)
          = messages (chat w) ++ [u; a]
       /\ (session_id active, session_messages active ++ [u; a])
          ∈ transcripts (store (sendMessage env content w).2))
  /\ (forall res b,
        server env (useChat_stream_request sessionId (trim content))
        = Some res ->
        res_ok res = true -> res_body res = Some b -> breaks b = true ->
        exists u a,
          role u = user /\ msg_content u = VStr (trim content)
          /\ role a = assistant
          /\ msg_content a
             = reply_content env
                 (useChat_fallback_request sessionId (trim content))
          /\ messages
               (chat (useChat_sendMessage env sessionId content w).2)
             = messages (chat w) ++ [u; a])
  /\ (forall res b,
        server env (stream_request active (trim content)) = Some res ->
        res_ok res = true -> res_body res = Some b -> breaks b = false ->
        exists u a,
          role u = user /\ msg_content u = VStr (trim content)
          /\ role a = assistant
          /\ msg_content a
             = VStr (final_content (streamed b (started env active content w)))
          /\ messages (chat (sendMessage env content w).2)
             = messages (chat w) ++ [u; a])
  /\ (forall (payload : jsstring) props (c : ChatState),
        JSON_parse payload = Some (VObj props) ->
        on_data (js "error") payload c = c).
Proof.
  intros Hactive Htext Hloading.
  split; [|split; [|split]].
  - intros res b Hres Hok Hbody Hbreaks.
    destruct (failed_stream_run content w active Hactive Htext Hloading
                (stream_read_error env _ res b Hres Hok Hbody Hbreaks))
      as (u & a & Hu & Hcu & Ha & Hca & Hmsgs & _ & Hin).
    by exists u, a.
  - intros res b Hres Hok Hbody Hbreaks.
    destruct (useChat_failed_stream_run sessionId content w Htext Hloading
                (stream_read_error env _ res b Hres Hok Hbody Hbreaks))
      as (_ & u & a & Hu & Hcu & Ha & Hca & Hmsgs).
    by exists u, a.
  - intros res b Hres Hok Hbody Hbreaks.
    by destruct (completed_stream_run content w active res b
                   Hactive Htext Hloading Hres Hok Hbody Hbreaks)
      as [_ Hrun].
  - intros payload props c Hparse. unfold on_data. by rewrite Hparse.
Qed.

End SendFacts.

(** ** The session store *)

Section StoreFacts.
Context {E : Engine}.

Lemma find_is_Some {A} (p : A -> bool) (l : list A) :
  is_Some (List.find p l) <-> exists x, In x l /\ p x = true.
Proof.
  split.
  - intros [x Hx]. exists x. by apply find_some in Hx.
  - intros (x & Hin & Hpx).
    destruct (List.find p l) as [y|] eqn:Hfind; [by eexists|].
    by rewrite (find_none _ _ Hfind x Hin) in Hpx.
Qed.

Lemma save_effect_sessions (st : Store) :
  sessions (save_effect st) = sessions st
  /\ activeSessionId (save_effect st) = activeSessionId st.
Proof. unfold save_effect. by destruct (sessions st) eqn:Hs. Qed.

Lemma pointer_ok_save (st : Store) :
  pointer_ok st -> pointer_ok (save_effect st).
Proof.
  unfold pointer_ok, activeSession.
  by destruct (save_effect_sessions st) as [-> ->].
Qed.

Lemma pointer_ok_update (sid : jsstring) (f : Session -> Session)
    (st : Store) :
  (forall s, session_id (f s) = session_id s) ->
  pointer_ok st -> pointer_ok (update_session sid f st).
Proof.
  intros Hid. unfold pointer_ok, activeSession, update_session.
  cbn [sessions activeSessionId]. rewrite !find_is_Some.
  intros (s & Hin & Hs).
  exists (if jsstring_eqb (session_id s) sid then f s else s). split.
  - apply in_map_iff. by exists s.
  - destruct (jsstring_eqb (session_id s) sid); [|done].
    unfold is_active in *. by rewrite Hid.
Qed.

Lemma pointer_ok_delete (sid : jsstring) (f : Fresh) (st st' : Store) :
  pointer_ok st -> deleteSession sid f st = Some st' -> pointer_ok st'.
Proof.
  unfold pointer_ok, activeSession, deleteSession.
  intros Hok Hdel.
  destruct (List.filter _ (sessions st)) as [|first rest] eqn:Hfiltered.
  - destruct (setItem _ _ _); [|done]. injection Hdel as <-. simpl.
    by rewrite jsstring_eqb_refl.
  - case_bool_decide as Hactive.
    + destruct (setItem _ _ _); [|done]. injection Hdel as <-. simpl.
      by rewrite jsstring_eqb_refl.
    + injection Hdel as <-. cbn [sessions activeSessionId].
      rewrite find_is_Some in Hok. destruct Hok as (s & Hin & Hs).
      rewrite <- Hfiltered. apply find_is_Some. exists s. split; [|done].
      apply filter_In. split; [done|].
      apply negb_true_iff, jsstring_eqb_neq. intros Heq.
      apply Hactive. unfold is_active in Hs.
      destruct (activeSessionId st) as [a|]; [|done].
      apply jsstring_eqb_eq in Hs. congruence.
Qed.

Lemma perform_pointer_ok (op : Op) (st st' : Store) :
  pointer_ok st ->
  match op with
  | OpSwitch sid => In sid (map session_id (sessions st))
  | _ => True
  end ->
  perform op st = Some st' -> pointer_ok st'.
Proof.
  intros Hok Hknown Hperform.
  destruct op; simpl in Hperform.
  - injection Hperform as <-. apply pointer_ok_save.
    unfold pointer_ok, activeSession. simpl. by rewrite jsstring_eqb_refl.
  - injection Hperform as <-.
    unfold pointer_ok, activeSession. cbn [switchSession sessions
      activeSessionId]. apply find_is_Some.
    apply in_map_iff in Hknown as (s & Hs & Hin). exists s. split; [done|].
    simpl. by apply jsstring_eqb_eq.
  - destruct (deleteSession sid f st) as [st1|] eqn:Hdel; [|done].
    injection Hperform as <-.
    by eapply pointer_ok_save, pointer_ok_delete.
  - injection Hperform as <-. by apply pointer_ok_save, pointer_ok_update.
  - injection Hperform as <-. by apply pointer_ok_save, pointer_ok_update.
  - injection Hperform as <-. by apply pointer_ok_save, pointer_ok_update.
  - injection Hperform as <-. by apply pointer_ok_save, pointer_ok_update.
  - injection Hperform as <-. by apply pointer_ok_save, pointer_ok_update.
Qed.

Lemma perform_nonempty (op : Op) (st st' : Store) :
  sessions st <> [] -> perform op st = Some st' -> sessions st' <> [].
Proof.
  intros Hne Hperform.
  assert (Hmap : forall sid g,
             sessions (save_effect (update_session sid g st)) <> []).
  { intros sid g. destruct (save_effect_sessions (update_session sid g st))
      as [-> _]. simpl. by destruct (sessions st). }
  destruct op; simpl in Hperform;
    try (injection Hperform as <-; try apply Hmap).
  - by destruct (save_effect_sessions (createSession agent f st)) as [-> _].
  - done.
  - destruct (deleteSession sid f st) as [st1|] eqn:Hdel; [|done].
    injection Hperform as <-.
    destruct (save_effect_sessions st1) as [-> _].
    unfold deleteSession in Hdel.
    destruct (List.filter _ (sessions st)) as [|first rest].
    + destruct (setItem _ _ _); [|done]. by injection Hdel as <-.
    + case_bool_decide.
      * destruct (setItem _ _ _); [|done]. by injection Hdel as <-.
      * by injection Hdel as <-.
Qed.

Lemma run_invariant (ops : list Op) (st st' : Store) :
  sessions st <> [] ->
  run ops st = Some st' ->
  sessions st' <> []
  /\ (pointer_ok st -> switches_known ops st -> pointer_ok st').
Proof.
  revert st. induction ops as [|op ops IH]; intros st Hne Hrun; simpl in *.
  - by injection Hrun as <-.
  - destruct (perform op st) as [st1|] eqn:Hperform; [|done].
    destruct (IH st1 (perform_nonempty op st st1 Hne Hperform) Hrun)
      as [Hne' Hptr].
    split; [done|]. intros Hok [Hknown Hrest]. apply Hptr; [|done].
    by eapply perform_pointer_ok.
Qed.

(** Deleting the only session. *)
Lemma delete_sole (s : Session) (f : Fresh) (st : Store) :
  sessions st = [s] ->
  accepts (localStorage st) ACTIVE_SESSION_KEY (generateId f) = true ->
  exists st',
    perform (OpDelete (session_id s) f) st = Some st'
    /\ sessions st' = [createEmptySession (js "default") f]
    /\ activeSessionId st' = Some (generateId f).
Proof.
  intros Hsessions Haccepts. unfold perform, deleteSession.
  rewrite Hsessions. cbn [List.filter]. rewrite jsstring_eqb_refl. cbn [negb].
  unfold setItem. cbn [createEmptySession session_id]. rewrite Haccepts.
  eexists. split; [reflexivity|]. by apply save_effect_sessions.
Qed.

(** C7, amended. No operation of the store leaves the collection empty.
    Deleting the only session leaves a collection of one session, new and
    empty, and the pointer holds its id.  Through a run of operations in
    which every switch goes to a session that is in the collection, the
    pointer references a session of the collection. *)
Theorem store_keeps_a_session
    (ops : list Op) (st st' : Store) (s : Session) (f : Fresh) :
  sessions st <> [] ->
  run ops st = Some st' ->
  sessions st' <> []
  /\ (pointer_ok st -> switches_known ops st -> pointer_ok st')
  /\ (sessions st = [s] ->
      accepts (localStorage st) ACTIVE_SESSION_KEY (generateId f) = true ->
      exists st1,
        perform (OpDelete (session_id s) f) st = Some st1
        /\ length (sessions st1) = 1%nat
        /\ sessions st1 = [createEmptySession (js "default") f]
        /\ session_messages (createEmptySession (js "default") f) = []
        /\ activeSessionId st1
           = Some (session_id (createEmptySession (js "default") f))).
Proof.
  intros Hne Hrun.
  destruct (run_invariant ops st st' Hne Hrun) as [Hne' Hptr].
  split; [done|]. split; [done|].
  intros Hsole Haccepts.
  destruct (delete_sole s f st Hsole Haccepts) as (st1 & Hdel & Hs & Ha).
  exists st1. by rewrite Hs.
Qed.

End StoreFacts.

(** ** Saving and loading the sessions *)

Section PersistenceFacts.
Context {E : Engine}.

Local Abbreviation val := (value number).

Lemma jsonify_VObj (props : list (jsstring * val)) :
  jsonify (VObj props)
  = VObj (concat (map (fun kv => json_member kv.1 kv.2) props)).
Proof.
  simpl. f_equal.
  induction props as [|[k e] rest IH]; [done|].
  cbn [map concat fst snd]. rewrite <- IH. by destruct e.
Qed.

Lemma json_member_plain (k : jsstring) (e : val) :
  plain e -> json_member k e = optional_prop k e.
Proof. unfold plain. intros He. destruct e; simpl in *; congruence. Qed.

Lemma as_Role_value (r : Role) : as_Role (Role_value r) = Some r.
Proof. by destruct r. Qed.

Lemma jsonify_Role (r : Role) : jsonify (Role_value r) = Role_value r.
Proof. by destruct r. Qed.

Lemma revive_message_obj (props : list (jsstring * val)) (iso : jsstring) :
  lookup_prop (js "timestamp") props = VStr iso ->
  revive_message (VObj props)
  = Some (VObj (set_prop (js "timestamp") (VDate (Date_parse iso)) props)).
Proof. intros Hts. unfold revive_message. simpl. by rewrite Hts. Qed.

(** A message written and read back, at the declared type. *)
Lemma revive_message_jsonify (m : Message) :
  storable_message m ->
  exists v, revive_message (jsonify (Message_value m)) = Some v
            /\ as_Message v = Some m.
Proof.
  intros ((t & Htime & Hparse) & Hcontent & Hcalls).
  destruct m as [i r c d tc]. cbn [timestamp msg_content toolCalls] in *.
  subst d. unfold Message_value.
  cbn [msg_id role msg_content timestamp toolCalls].
  rewrite jsonify_VObj. cbn [map concat fst snd app].
  rewrite (json_member_plain _ c Hcontent).
  assert (Hopt : concat (map (fun kv : jsstring * val => json_member kv.1 kv.2)
                             (optional_prop (js "toolCalls") tc))
                 = optional_prop (js "toolCalls") tc).
  { destruct tc; try done; cbn [optional_prop map concat fst snd app];
      by rewrite (json_member_plain _ _ Hcalls). }
  rewrite Hopt. clear Hopt Hcontent Hcalls.
  destruct r, c, tc;
    cbn [json_member optional_prop app jsonify Date_toJSON Role_value];
    (eexists; split;
     [apply (revive_message_obj _ (Date_toISOString t)); by vm_compute
     |rewrite Hparse; by vm_compute]).
Qed.

Lemma revive_messages_jsonify (ms : list Message) :
  Forall storable_message ms ->
  exists vs,
    mapM revive_message (map (fun m => jsonify (Message_value m)) ms)
    = Some vs
    /\ mapM as_Message vs = Some ms.
Proof.
  induction 1 as [|m ms Hm _ (vs & Hrevive & Hread)].
  - by exists [].
  - destruct (revive_message_jsonify m Hm) as (v & Hv & Hvm).
    exists (v :: vs). cbn [map mapM]. rewrite Hv, Hrevive. cbn.
    split; [done|]. by rewrite Hvm, Hread.
Qed.

Lemma jsonify_VArr_map {A} (f : A -> val) (l : list A) :
  (forall a, f a <> VUndefined) ->
  jsonify (VArr (map f l)) = VArr (map (fun a => jsonify (f a)) l).
Proof.
  intros Hf. cbn [jsonify]. f_equal. rewrite map_map.
  apply map_ext. intros a. specialize (Hf a). by destruct (f a).
Qed.

Lemma revive_session_obj (props : list (jsstring * val))
    (isoc isou : jsstring) (items vs : list val) :
  lookup_prop (js "createdAt") props = VStr isoc ->
  lookup_prop (js "updatedAt") props = VStr isou ->
  lookup_prop (js "messages") props = VArr items ->
  mapM revive_message items = Some vs ->
  revive_session (VObj props)
  = Some (VObj (set_prop (js "messages") (VArr vs)
               (set_prop (js "updatedAt") (VDate (Date_parse isou))
               (set_prop (js "createdAt") (VDate (Date_parse isoc)) props)))).
Proof.
  intros Hc Hu Hm Hvs. unfold revive_session. cbn [Get].
  rewrite Hc, Hu, Hm. cbn [mbind option_bind new_Date revive_messages].
  rewrite Hvs. done.
Qed.

Lemma as_Session_obj (props : list (jsstring * val))
    (i n a : jsstring) (items : list val) (ms : list Message) (c u : Date) :
  lookup_prop (js "id") props = VStr i ->
  lookup_prop (js "name") props = VStr n ->
  lookup_prop (js "agentId") props = VStr a ->
  lookup_prop (js "messages") props = VArr items ->
  mapM as_Message items = Some ms ->
  lookup_prop (js "createdAt") props = VDate c ->
  lookup_prop (js "updatedAt") props = VDate u ->
  as_Session (VObj props)
  = Some {| session_id := i; session_name := n; agentId := a;
            session_messages := ms; createdAt := c; updatedAt := u |}.
Proof.
  intros Hi Hn Ha Hitems Hms Hc Hu. unfold as_Session.
  rewrite Hi, Hn, Ha, Hitems, Hms, Hc, Hu. done.
Qed.

(** A session written and read back, at the declared type. *)
Lemma revive_session_jsonify (s : Session) :
  storable s ->
  exists v, revive_session (jsonify (Session_value s)) = Some v
            /\ as_Session v = Some s.
Proof.
  intros ((tc & Hc & Hpc) & (tu & Hu & Hpu) & Hms).
  destruct s as [i n a ms c u]. cbn [createdAt updatedAt session_messages] in *.
  subst c u.
  destruct (revive_messages_jsonify ms Hms) as (vs & Hrevive & Hread).
  unfold Session_value.
  cbn [session_id session_name agentId session_messages createdAt updatedAt].
  rewrite jsonify_VObj. cbn [map concat fst snd app json_member].
  rewrite jsonify_VArr_map by done.
  cbn [jsonify Date_toJSON].
  eexists. split.
  - apply (revive_session_obj _ (Date_toISOString tc) (Date_toISOString tu)
             (map (fun m => jsonify (Message_value m)) ms) vs);
      [by vm_compute..|exact Hrevive].
  - rewrite Hpc, Hpu.
    apply (as_Session_obj _ i n a vs ms); [by vm_compute..|exact Hread|
                                           by vm_compute|by vm_compute].
Qed.

Lemma revive_sessions_jsonify (ss : list Session) :
  Forall storable ss ->
  exists vs,
    mapM revive_session (map (fun s => jsonify (Session_value s)) ss)
    = Some vs
    /\ mapM as_Session vs = Some ss.
Proof.
  induction 1 as [|s ss Hs _ (vs & Hrevive & Hread)].
  - by exists [].
  - destruct (revive_session_jsonify s Hs) as (v & Hv & Hvs).
    exists (v :: vs). cbn [map mapM]. rewrite Hv, Hrevive. cbn.
    split; [done|]. by rewrite Hvs, Hread.
Qed.

(** C9. Sessions saved to local storage and loaded back are the sessions
    that were saved, field for field, the dates read back from their ISO
    texts: this for a write that the storage takes, an engine whose
    [JSON.parse] reads what its [JSON.stringify] wrote, and sessions whose
    dates are valid (they have an ISO text) and whose message contents and
    tool calls are values of JSON. *)
Theorem load_after_save
    (ss : list Session) (ls : Storage) :
  let text := JSON_stringify (VArr (map Session_value ss)) in
  accepts ls STORAGE_KEY text = true ->
  text <> [] ->
  JSON_parse text = Some (jsonify (VArr (map Session_value ss))) ->
  Forall storable ss ->
  getItem STORAGE_KEY (saveSessions ss ls) = Some text
  /\ loadSessions_typed (saveSessions ss ls) = Some ss.
Proof.
  intros text Haccepts Htext Hparse Hstorable.
  assert (Hget : getItem STORAGE_KEY (saveSessions ss ls) = Some text).
  { unfold saveSessions, setItem. fold text. rewrite Haccepts.
    unfold getItem. cbn [items]. apply lookup_insert_eq. }
  split; [done|].
  unfold loadSessions_typed, loadSessions. rewrite Hget.
  apply jsstring_eqb_neq in Htext. rewrite Htext, Hparse.
  rewrite jsonify_VArr_map by done.
  destruct (revive_sessions_jsonify ss Hstorable) as (vs & Hrevive & Hread).
  by rewrite Hrevive.
Qed.

End PersistenceFacts.

(** * Further properties of the code *)

(** ** The read loop and the lines *)

Lemma split_without_sep (sep : N) (s : jsstring) :
  ~ In sep s -> split sep s = [s].
Proof.
  induction s as [|c s IH]; intros Hs; simpl; [done|].
  destruct (c =? sep)%N eqn:Hc.
  - apply N.eqb_eq in Hc. exfalso. apply Hs. by left.
  - rewrite IH; [done|]. intros Hin. apply Hs. by right.
Qed.

Section MorePipelineFacts.
Context {E : Engine}.

Local Abbreviation val := (value number).

(** The read loop is one read of all the bytes. *)
Lemma read_all_concat (chunks : list (list Byte.byte)) (c : ChatState) :
  read_all chunks c = on_chunk (reader_new, c) (concat chunks).
Proof.
  unfold read_all. rewrite <- fold_on_chunk_concat.
  by rewrite on_chunk_nil.
Qed.

(** X1. The read loop dispatches the lines that a line feed ends, in
    order, and nothing else: the text after the last line feed stays in the
    buffer and is dispatched by nothing, so that a stream whose text has no
    line feed leaves the view as it was. *)
Theorem unfinished_line_is_not_dispatched
    (chunks : list (list Byte.byte)) (c : ChatState) :
  let text := (decode decoder_new (concat chunks)).2 in
  (read_all chunks c).2
  = (fold_left on_line (removelast (split LF text)) (js "message", c)).2
  /\ buffer (read_all chunks c).1 = default [] (last (split LF text))
  /\ split LF text
     = removelast (split LF text) ++ [buffer (read_all chunks c).1]
  /\ (~ In LF text -> (read_all chunks c).2 = c).
Proof.
  intros text. rewrite read_all_concat, on_chunk_eq. cbv zeta.
  cbn [fst snd buffer reader_new decoder_state currentEventType app].
  fold text.
  split; [done|]. split; [done|]. split.
  - pose proof (split_not_nil LF text) as Hne.
    destruct (split LF text) as [|l ls] using rev_ind; [done|].
    by rewrite removelast_last, last_snoc.
  - intros Hno. by rewrite (split_without_sep LF text Hno).
Qed.

(** *** The content buffer while a stream is read *)

Lemma extends_refl (c : ChatState) : extends c c.
Proof. split; [exists []; by rewrite app_nil_r | done]. Qed.

Lemma extends_trans (a b c : ChatState) :
  extends a b -> extends b c -> extends a c.
Proof.
  intros [[x Hx] Hab] [[y Hy] Hbc]. split.
  - exists (x ++ y). by rewrite Hy, Hx, app_assoc.
  - intros Ha. by apply Hbc, Hab.
Qed.

Lemma extends_append_raw (text : jsstring) (c : ChatState) :
  extends c (append_raw text c).
Proof. split; [by exists text | done]. Qed.

Lemma extends_dispatch (ev : jsstring) (data : val) (c : ChatState) :
  extends c (dispatch ev data c).1.
Proof.
  unfold dispatch.
  destruct (jsstring_eqb ev (js "thinking")).
  { destruct (Get data (js "status")); cbn [fst];
      [split; [exists []; by rewrite app_nil_r | done] | apply extends_refl]. }
  destruct (jsstring_eqb ev (js "progress")).
  { destruct (Get data (js "tool")); [|apply extends_refl].
    cbv zeta.
    assert (H1 : extends c (if is_rich data
                            then setProgressSteps (upsert data) c else c)).
    { destruct (is_rich data); [|apply extends_refl].
      split; [exists []; by rewrite app_nil_r | done]. }
    destruct (ToString (prop data (js "content"))) as [text|]; cbn [fst];
      [|done].
    eapply extends_trans; [exact H1|]. split; [by exists text | done]. }
  destruct (jsstring_eqb ev (js "error")); [|apply extends_refl].
  destruct (Get data (js "content")); apply extends_refl.
Qed.

Lemma extends_on_data (ev payload : jsstring) (c : ChatState) :
  extends c (on_data ev payload c).
Proof.
  unfold on_data.
  destruct (JSON_parse payload) as [data|]; [|apply extends_append_raw].
  pose proof (extends_dispatch ev data c) as H.
  destruct (dispatch ev data c) as [c' []]; cbn [fst] in H; [done|].
  eapply extends_trans; [exact H | apply extends_append_raw].
Qed.

Lemma extends_on_line (st : jsstring * ChatState) (line : jsstring) :
  extends st.2 (on_line st line).2.
Proof.
  destruct st as [ev c]. unfold on_line.
  repeat case_match; try apply extends_refl.
  cbn [snd]. apply extends_on_data.
Qed.

Lemma extends_fold_on_line (lines : list jsstring)
    (st : jsstring * ChatState) :
  extends st.2 (fold_left on_line lines st).2.
Proof.
  revert st. induction lines as [|l lines IH]; intros st; cbn [fold_left];
    [apply extends_refl|].
  eapply extends_trans; [apply extends_on_line | apply IH].
Qed.

(** X2. While a stream is read the content buffer only grows at its end,
    whatever the lines are, and the partial content on display is the
    content buffer whenever it was before the read (as it is when
    [sendMessage] starts to read: both are empty). *)
Theorem content_buffer_only_grows
    (chunks : list (list Byte.byte)) (c : ChatState) :
  (exists added,
     streamingContentRef (read_all chunks c).2
     = streamingContentRef c ++ added)
  /\ (streamingContent c = streamingContentRef c ->
      streamingContent (read_all chunks c).2
      = streamingContentRef (read_all chunks c).2).
Proof.
  rewrite read_all_concat, on_chunk_eq. cbv zeta. cbn [snd].
  apply (extends_fold_on_line _ (_, c)).
Qed.

(** *** The lines that are dropped *)

Lemma dataContent_app (payload : jsstring) :
  dataContent (js "data:" ++ payload) = trim payload.
Proof. reflexivity. Qed.

Lemma dispatch_message (data : val) (c : ChatState) :
  dispatch (js "message") data c = (c, Normal).
Proof. reflexivity. Qed.

(** X3. The event type of an [event:] line holds for one [data:] line:
    a [data:] line that follows another [data:] line, or that no [event:]
    line precedes, is handled with the type [message], under which a
    payload that is JSON is dropped, whatever it holds, and a payload that
    is not JSON is appended to the content buffer. *)
Theorem event_type_holds_for_one_data_line
    (ev payload1 payload2 : jsstring) (c : ChatState) :
  let c1 := on_data ev (trim payload1) c in
  fold_left on_line [js "data:" ++ payload1; js "data:" ++ payload2] (ev, c)
  = (js "message", on_data (js "message") (trim payload2) c1)
  /\ (forall data, JSON_parse (trim payload2) = Some data ->
      on_data (js "message") (trim payload2) c1 = c1)
  /\ (JSON_parse (trim payload2) = None ->
      on_data (js "message") (trim payload2) c1
      = append_raw (trim payload2) c1).
Proof.
  intros c1. cbn [fold_left].
  rewrite (on_line_data ev c _ (startsWith_app _ _)), dataContent_app.
  rewrite (on_line_data _ _ _ (startsWith_app _ _)), dataContent_app.
  split; [done|]. unfold on_data. split.
  - intros data Hdata. by rewrite Hdata, dispatch_message.
  - intros Hnone. by rewrite Hnone.
Qed.

(** *** The progress list while a stream is read *)

Lemma findIndex_intro {A} (p : A -> bool) (l : list A) (i : nat) (x : A) :
  l !! i = Some x -> p x = true ->
  (forall j y, (j < i)%nat -> l !! j = Some y -> p y = false) ->
  findIndex p l = Some i.
Proof.
  revert i. induction l as [|a l IH]; intros i Hx Hp Hbefore; [done|].
  cbn [findIndex]. destruct i as [|i].
  - injection Hx as ->. by rewrite Hp.
  - rewrite (Hbefore 0%nat a) by (done || lia).
    rewrite (IH i Hx Hp); [done|].
    intros j y Hj Hy. apply (Hbefore (S j) y); [lia | done].
Qed.

Lemma same_key_newStep (data : val) :
  typed_key data -> same_key data (newStep data) = true.
Proof. intros Htyped. by apply (same_key_spec data _ Htyped). Qed.

Lemma upsert_idempotent (data : val) (prev : list ProgressStep) :
  typed_key data ->
  upsert data (upsert data prev) = upsert data prev.
Proof.
  intros Htyped. unfold upsert at 2 3.
  destruct (findIndex (same_key data) prev) as [i|] eqn:Hi.
  - destruct (findIndex_Some _ _ _ Hi) as (x & Hx & _ & Hbefore).
    assert (Hlt : (i < length prev)%nat) by (by eapply lookup_lt_Some).
    unfold upsert.
    rewrite (findIndex_intro _ (<[i:=newStep data]> prev) i (newStep data)).
    + apply list_insert_insert_eq.
    + by apply list_lookup_insert_eq.
    + by apply same_key_newStep.
    + intros j y Hj Hy. apply (Hbefore j y Hj).
      rewrite list_lookup_insert_ne in Hy; [done | lia].
  - apply findIndex_None in Hi. unfold upsert.
    rewrite (findIndex_intro _ (prev ++ [newStep data]) (length prev)
               (newStep data)).
    + rewrite insert_app_r_alt, Nat.sub_diag by lia. done.
    + by rewrite lookup_app_r, Nat.sub_diag.
    + by apply same_key_newStep.
    + intros j y Hj Hy. rewrite lookup_app_l in Hy by done.
      rewrite Forall_forall in Hi. apply Hi.
      by eapply list_elem_of_lookup_2.
Qed.

Lemma length_upsert (data : val) (prev : list ProgressStep) :
  (length prev <= length (upsert data prev) <= S (length prev))%nat.
Proof.
  unfold upsert. destruct (findIndex (same_key data) prev).
  - rewrite length_insert. lia.
  - rewrite length_app. simpl. lia.
Qed.

Lemma length_steps_dispatch (ev : jsstring) (data : val) (c : ChatState) :
  (length (progressSteps c)
   <= length (progressSteps (dispatch ev data c).1))%nat.
Proof.
  unfold dispatch. repeat case_match; cbn [fst progressSteps setIsThinking
    setStreamingContent setRef setProgressSteps]; try lia;
    apply length_upsert.
Qed.

Lemma length_steps_on_data (ev payload : jsstring) (c : ChatState) :
  (length (progressSteps c)
   <= length (progressSteps (on_data ev payload c)))%nat.
Proof.
  unfold on_data. destruct (JSON_parse payload) as [data|]; [|done].
  pose proof (length_steps_dispatch ev data c) as H.
  by destruct (dispatch ev data c) as [c' []].
Qed.

Lemma length_steps_on_line (st : jsstring * ChatState) (line : jsstring) :
  (length (progressSteps st.2)
   <= length (progressSteps (on_line st line).2))%nat.
Proof.
  destruct st as [ev c]. unfold on_line.
  repeat case_match; try done. cbn [snd]. apply length_steps_on_data.
Qed.

Lemma length_steps_fold (lines : list jsstring) (st : jsstring * ChatState) :
  (length (progressSteps st.2)
   <= length (progressSteps (fold_left on_line lines st).2))%nat.
Proof.
  revert st. induction lines as [|l lines IH]; intros st; cbn [fold_left];
    [done|].
  etrans; [apply length_steps_on_line | apply IH].
Qed.

(** X4. While a stream is read no step leaves the progress list: its
    length never goes down.  A progress event whose [tool] and [file] are
    of the declared type adds at most one step, and the same event once
    more changes nothing in the list. *)
Theorem progress_events_update_in_place
    (chunks : list (list Byte.byte)) (c : ChatState)
    (payload : jsstring) (data : val) :
  JSON_parse payload = Some data ->
  typed_key data ->
  (length (progressSteps c)
   <= length (progressSteps (read_all chunks c).2))%nat
  /\ (length (progressSteps (on_data (js "progress") payload c))
      <= S (length (progressSteps c)))%nat
  /\ progressSteps
       (on_data (js "progress") payload (on_data (js "progress") payload c))
     = progressSteps (on_data (js "progress") payload c).
Proof.
  intros Hparse Htyped. split; [|split].
  - rewrite read_all_concat, on_chunk_eq. cbv zeta. cbn [snd].
    apply (length_steps_fold _ (_, c)).
  - rewrite (on_data_progress_steps payload data c Hparse).
    destruct (is_rich data); [apply length_upsert | lia].
  - rewrite !(on_data_progress_steps payload data _ Hparse).
    destruct (is_rich data); [by apply upsert_idempotent | done].
Qed.

End MorePipelineFacts.

(** ** The session store, the sidebar and the storage *)

Section MoreStoreFacts.
Context {E : Engine}.

Local Abbreviation val := (value number).

Lemma update_session_unknown (sid : jsstring) (f : Session -> Session)
    (st : Store) :
  ~ In sid (map session_id (sessions st)) -> update_session sid f st = st.
Proof.
  destruct st as [ss a ls]. unfold update_session. cbn [sessions
    activeSessionId localStorage]. intros Hno. f_equal.
  induction ss as [|s ss IH]; [done|]. cbn [map] in *.
  destruct (jsstring_eqb (session_id s) sid) eqn:Hs.
  - apply jsstring_eqb_eq in Hs. exfalso. apply Hno. by left.
  - rewrite IH; [done|]. intros Hin. apply Hno. by right.
Qed.

(** X5. An update of a session that the collection does not have changes
    nothing: no session is renamed, given an agent or messages, and none
    is created. *)
Theorem update_of_an_unknown_session_changes_nothing
    (sid name agent : jsstring) (m : Message) (ms : list Message) (t : Z)
    (st : Store) :
  ~ In sid (map session_id (sessions st)) ->
  updateSessionName sid name t st = st
  /\ updateSessionAgent sid agent t st = st
  /\ addMessageToSession sid m t st = st
  /\ setSessionMessages sid ms t st = st
  /\ clearSessionMessages sid t st = st.
Proof.
  intros Hno. repeat split; by apply update_session_unknown.
Qed.

(** The active session after an update of the sessions that have its
    id. *)
Lemma activeSession_update (f : Session -> Session) (st : Store)
    (active : Session) :
  (forall s, session_id (f s) = session_id s) ->
  activeSession st = Some active ->
  activeSession (update_session (session_id active) f st) = Some (f active).
Proof.
  intros Hid. unfold activeSession, update_session.
  cbn [sessions activeSessionId].
  destruct (activeSessionId st) as [a|]; cbn [is_active].
  2: { intros H. by apply find_some in H as [_ H]. }
  induction (sessions st) as [|s ss IH]; [done|].
  cbn [List.find map is_active].
  destruct (jsstring_eqb (session_id s) a) eqn:Hs.
  - intros [= <-]. rewrite jsstring_eqb_refl. cbn [is_active].
    by rewrite Hid, Hs.
  - intros Hfind. specialize (IH Hfind).
    assert (Hother : jsstring_eqb
                       (session_id (if jsstring_eqb (session_id s)
                                         (session_id active)
                                    then f s else s)) a = false).
    { destruct (jsstring_eqb (session_id s) (session_id active));
        by rewrite ?Hid. }
    cbn [is_active]. by rewrite Hother.
Qed.

(** X6. Mounting the provider, when it succeeds, leaves a collection
    that is not empty and a pointer that references one of its sessions:
    the stored sessions with the stored pointer when that pointer
    references one of them, and with the first of them otherwise; one new
    empty session when nothing usable is stored. *)
Theorem mount_establishes_the_invariant
    (f : Fresh) (ls : Storage) (st : Store) :
  mount f ls = Some st ->
  sessions st <> []
  /\ pointer_ok st
  /\ (forall first rest,
        loadSessions_typed ls = Some (first :: rest) ->
        sessions st = first :: rest
        /\ localStorage st = ls
        /\ (In (getItem ACTIVE_SESSION_KEY ls)
               (map (fun s => Some (session_id s)) (first :: rest)) ->
            activeSessionId st = getItem ACTIVE_SESSION_KEY ls)
        /\ (~ In (getItem ACTIVE_SESSION_KEY ls)
                 (map (fun s => Some (session_id s)) (first :: rest)) ->
            activeSessionId st = Some (session_id first)))
  /\ (loadSessions_typed ls = Some [] ->
      sessions st = [createEmptySession (js "default") f]
      /\ activeSessionId st = Some (generateId f)).
Proof.
  unfold mount. intros Hmount.
  destruct (loadSessions_typed ls) as [[|first rest]|] eqn:Hload;
    cbn [mbind option_bind] in Hmount; [| |done].
  - destruct (setItem _ _ _) as [ls'|]; [|done].
    cbn [mbind option_bind] in Hmount. injection Hmount as <-.
    split; [done|]. split.
    { unfold pointer_ok, activeSession. cbn. by rewrite jsstring_eqb_refl. }
    split; [done|]. done.
  - injection Hmount as <-. cbn [sessions activeSessionId localStorage].
    set (stored := getItem ACTIVE_SESSION_KEY ls).
    assert (Hfind : forall l : list Session,
               is_Some (List.find (is_active stored) l)
               <-> In stored (map (fun s => Some (session_id s)) l)).
    { intros l. rewrite find_is_Some, in_map_iff. unfold is_active.
      split.
      - intros (s & Hin & Hs). exists s. split; [|done].
        destruct stored as [a|]; [|done].
        apply jsstring_eqb_eq in Hs. by rewrite Hs.
      - intros (s & Hs & Hin). exists s. split; [done|].
        rewrite <- Hs. apply jsstring_eqb_refl. }
    change (if is_active stored first then Some first
            else List.find (is_active stored) rest)
      with (List.find (is_active stored) (first :: rest)).
    split; [done|]. split.
    { unfold pointer_ok, activeSession. cbn [sessions activeSessionId].
      destruct (List.find (is_active stored) (first :: rest)) eqn:Hf;
        cbv iota; [by rewrite Hf|].
      cbn [List.find is_active]. by rewrite jsstring_eqb_refl. }
    split; [|done].
    intros first' rest' [= <- <-]. split; [done|]. split; [done|]. split.
    + intros Hin. apply Hfind in Hin as [s Hs]. by rewrite Hs.
    + intros Hno.
      destruct (List.find (is_active stored) (first :: rest)) eqn:Hf; [|done].
      exfalso. apply Hno, Hfind. by rewrite Hf.
Qed.

(** *** The storage behind the store *)

Lemma keys_differ : STORAGE_KEY <> ACTIVE_SESSION_KEY.
Proof. by apply jsstring_eqb_neq. Qed.

Lemma store_active_roomy (sid : jsstring) (ls : Storage) :
  roomy ls ->
  store_active sid ls
  = {| items := <[ACTIVE_SESSION_KEY := sid]> (items ls);
       accepts := accepts ls |}.
Proof. intros Hroomy. unfold store_active, setItem. by rewrite Hroomy. Qed.

Lemma saveSessions_roomy (ss : list Session) (ls : Storage) :
  roomy ls ->
  saveSessions ss ls
  = {| items := <[STORAGE_KEY :=
                    JSON_stringify (VArr (map Session_value ss))]> (items ls);
       accepts := accepts ls |}.
Proof. intros Hroomy. unfold saveSessions, setItem. by rewrite Hroomy. Qed.

Lemma save_effect_mirrors (st : Store) :
  roomy (localStorage st) ->
  getItem ACTIVE_SESSION_KEY (localStorage st) = activeSessionId st ->
  (sessions st = [] ->
   getItem STORAGE_KEY (localStorage st)
   = Some (JSON_stringify (VArr (map Session_value (sessions st))))) ->
  mirrors (save_effect st) /\ roomy (localStorage (save_effect st)).
Proof.
  intros Hroomy Hpointer Hempty. unfold save_effect.
  destruct (sessions st) as [|s ss] eqn:Hs.
  - split; [|done]. split; [done|]. rewrite Hs. by apply Hempty.
  - rewrite (saveSessions_roomy _ _ Hroomy). split; [|done].
    unfold mirrors, getItem in *.
    split; cbn [localStorage activeSessionId sessions items].
    + rewrite lookup_insert_ne by apply keys_differ. exact Hpointer.
    + by rewrite lookup_insert_eq.
Qed.

Lemma perform_mirrors (op : Op) (st st' : Store) :
  roomy (localStorage st) -> mirrors st ->
  perform op st = Some st' ->
  mirrors st' /\ roomy (localStorage st').
Proof.
  intros Hroomy [Hpointer Hsessions] Hperform.
  assert (Hupdate : forall sid g,
             mirrors (save_effect (update_session sid g st))
             /\ roomy (localStorage (save_effect (update_session sid g st)))).
  { intros sid g. apply save_effect_mirrors; [done..|].
    cbn [update_session sessions localStorage]. intros Hnil.
    apply map_eq_nil in Hnil. by rewrite Hsessions, Hnil. }
  destruct op; cbn [perform] in Hperform;
    try (injection Hperform as <-; apply Hupdate).
  - injection Hperform as <-. apply save_effect_mirrors;
      cbn [createSession localStorage activeSessionId sessions].
    + by rewrite (store_active_roomy _ _ Hroomy).
    + rewrite (store_active_roomy _ _ Hroomy). unfold getItem.
      cbn [items]. by rewrite lookup_insert_eq.
    + done.
  - injection Hperform as <-.
    unfold switchSession. rewrite (store_active_roomy _ _ Hroomy).
    split; [|done]. unfold mirrors, getItem in *.
    split; cbn [localStorage activeSessionId sessions items].
    + by rewrite lookup_insert_eq.
    + rewrite lookup_insert_ne by (intros H; by apply keys_differ).
      exact Hsessions.
  - destruct (deleteSession sid f st) as [st1|] eqn:Hdel; [|done].
    injection Hperform as <-. unfold deleteSession, setItem in Hdel.
    rewrite !Hroomy in Hdel. cbn [mbind option_bind] in Hdel.
    destruct (List.filter _ (sessions st)) as [|first rest] eqn:Hfiltered.
    + injection Hdel as <-. apply save_effect_mirrors; unfold getItem;
        cbn [localStorage activeSessionId sessions items];
        [done | by rewrite lookup_insert_eq | done].
    + rewrite Hroomy in Hdel. cbn [mbind option_bind] in Hdel.
      destruct (bool_decide (activeSessionId st = Some sid));
        injection Hdel as <-;
        apply save_effect_mirrors; unfold getItem;
        cbn [localStorage activeSessionId sessions items];
        [done | by rewrite lookup_insert_eq | done | done | done | done].
Qed.

(** X7. When local storage takes every write, it holds after every
    operation of the store what the store holds: under the key of the
    pointer the id of the active session, and under the key of the
    sessions the JSON text of the collection. *)
Theorem storage_mirrors_the_store (ops : list Op) (st st' : Store) :
  roomy (localStorage st) ->
  mirrors st ->
  run ops st = Some st' ->
  mirrors st' /\ roomy (localStorage st').
Proof.
  revert st. induction ops as [|op ops IH]; intros st Hroomy Hmirrors Hrun;
    cbn [run] in Hrun.
  - by injection Hrun as <-.
  - destruct (perform op st) as [st1|] eqn:Hperform; [|done].
    destruct (perform_mirrors op st st1 Hroomy Hmirrors Hperform).
    by apply (IH st1).
Qed.

(** X8. One stored session that cannot be read loses them all: when the
    stored array has a [null] among its entries, [loadSessions] yields no
    session, and the provider mounts with one new empty session, which it
    writes over the stored ones. *)
Theorem one_unreadable_session_loses_the_others
    (f : Fresh) (ls : Storage) (stored : jsstring) (entries : list val) :
  getItem STORAGE_KEY ls = Some stored ->
  JSON_parse stored = Some (VArr entries) ->
  In VNull entries ->
  roomy ls ->
  loadSessions ls = []
  /\ exists st,
       mount f ls = Some st
       /\ sessions st = [createEmptySession (js "default") f]
       /\ getItem STORAGE_KEY (localStorage st)
          = Some (JSON_stringify
                    (VArr [Session_value
                             (createEmptySession (js "default") f)])).
Proof.
  intros Hstored Hparse Hnull Hroomy.
  assert (Hload : loadSessions ls = []).
  { unfold loadSessions. rewrite Hstored, Hparse.
    destruct (jsstring_eqb stored []); [done|].
    assert (Hnone : mapM revive_session entries = None).
    { apply mapM_None_2, Exists_exists. exists VNull.
      split; [by apply list_elem_of_In | done]. }
    by rewrite Hnone. }
  split; [done|].
  unfold mount, loadSessions_typed. rewrite Hload. cbn [mapM mbind option_bind
    mret option_ret].
  rewrite (saveSessions_roomy _ _ Hroomy). unfold setItem.
  cbn [accepts]. rewrite Hroomy. cbn [mbind option_bind].
  eexists. split; [reflexivity|]. split; [done|].
  unfold getItem. cbn [localStorage items map].
  rewrite lookup_insert_ne by (intros H; by apply keys_differ).
  by rewrite lookup_insert_eq.
Qed.

(** *** Creating and deleting *)

Lemma filter_unknown (sid : jsstring) (l : list Session) :
  ~ In sid (map session_id l) ->
  List.filter (fun s => negb (jsstring_eqb (session_id s) sid)) l = l.
Proof.
  induction l as [|s l IH]; intros Hno; [done|]. cbn [List.filter map] in *.
  destruct (jsstring_eqb (session_id s) sid) eqn:Hs.
  - apply jsstring_eqb_eq in Hs. exfalso. apply Hno. by left.
  - cbn [negb]. rewrite IH; [done|]. intros Hin. apply Hno. by right.
Qed.

Lemma filter_gone (sid : jsstring) (l : list Session) :
  ~ In sid (map session_id
              (List.filter (fun s => negb (jsstring_eqb (session_id s) sid))
                           l)).
Proof.
  rewrite in_map_iff. intros (s & Hs & Hin).
  apply filter_In in Hin as [_ Hne].
  apply negb_true_iff, jsstring_eqb_neq in Hne. by apply Hne.
Qed.

Lemma filter_one (sid : jsstring) (l : list Session) :
  NoDup (map session_id l) -> In sid (map session_id l) ->
  S (length (List.filter
               (fun s => negb (jsstring_eqb (session_id s) sid)) l))
  = length l.
Proof.
  induction l as [|s l IH]; intros Hnodup Hin; [done|].
  cbn [map] in *. apply NoDup_cons in Hnodup as [Hs Hnodup].
  cbn [List.filter]. destruct (jsstring_eqb (session_id s) sid) eqn:Heq.
  - apply jsstring_eqb_eq in Heq. subst sid. cbn [negb length].
    rewrite filter_unknown; [done|]. intros H. apply Hs.
    by apply list_elem_of_In.
  - cbn [negb length]. f_equal. apply IH; [done|].
    destruct Hin as [Hin|Hin]; [|done].
    apply jsstring_eqb_neq in Heq. by rewrite Hin in Heq.
Qed.

(** X9. A session that is created and then deleted leaves the
    collection it was added to, and the pointer on the first session of
    that collection, which need not be the session that was active before:
    this when the new id is the id of no other session. *)
Theorem create_then_delete
    (agent : jsstring) (f g : Fresh) (st : Store)
    (first : Session) (rest : list Session) :
  sessions st = first :: rest ->
  ~ In (generateId f) (map session_id (sessions st)) ->
  accepts (localStorage st) ACTIVE_SESSION_KEY (session_id first) = true ->
  exists st',
    deleteSession (generateId f) g (createSession agent f st) = Some st'
    /\ sessions st' = sessions st
    /\ activeSessionId st' = Some (session_id first).
Proof.
  intros Hsessions Hfresh Haccepts.
  unfold deleteSession, createSession.
  cbn [sessions activeSessionId localStorage createEmptySession session_id
       List.filter].
  rewrite jsstring_eqb_refl. cbn [negb].
  rewrite (filter_unknown _ _ Hfresh), Hsessions.
  rewrite bool_decide_eq_true_2 by done.
  assert (Hsame : accepts (store_active (generateId f) (localStorage st))
                  = accepts (localStorage st)).
  { unfold store_active, setItem.
    destruct (accepts (localStorage st) ACTIVE_SESSION_KEY (generateId f));
      reflexivity. }
  unfold setItem at 1. rewrite Hsame, Haccepts. cbn [mbind option_bind].
  by eexists.
Qed.

(** X10. The sidebar deletes a session only when the collection has
    more than one: then, for a collection whose ids are distinct, the
    session with the given id goes and every other session stays, in
    order; no session is created in its place, and a pointer that
    referenced a session still does.  A collection of one session is left
    as it is. *)
Theorem sidebar_delete
    (sid : jsstring) (f : Fresh) (st : Store) :
  roomy (localStorage st) ->
  NoDup (map session_id (sessions st)) ->
  In sid (map session_id (sessions st)) ->
  exists st',
    handleDeleteSession sid f st = Some st'
    /\ sessions st' <> []
    /\ (pointer_ok st -> pointer_ok st')
    /\ ((length (sessions st) <= 1)%nat -> st' = st)
    /\ ((1 < length (sessions st))%nat ->
        sessions st'
        = List.filter (fun s => negb (jsstring_eqb (session_id s) sid))
                      (sessions st)
        /\ S (length (sessions st')) = length (sessions st)
        /\ ~ In sid (map session_id (sessions st'))
        /\ (activeSessionId st <> Some sid ->
            activeSessionId st' = activeSessionId st)).
Proof.
  intros Hroomy Hnodup Hin. unfold handleDeleteSession.
  destruct (1 <? length (sessions st))%nat eqn:Hlen.
  - apply Nat.ltb_lt in Hlen.
    pose proof (filter_one sid _ Hnodup Hin) as Hone.
    destruct (deleteSession sid f st) as [st'|] eqn:Hdel.
    2: { unfold deleteSession, setItem in Hdel.
         destruct (List.filter _ (sessions st)); rewrite ?Hroomy in Hdel;
           [done|]. by destruct (bool_decide _). }
    exists st'. split; [done|].
    assert (Hsessions :
              sessions st'
              = List.filter (fun s => negb (jsstring_eqb (session_id s) sid))
                            (sessions st)).
    { unfold deleteSession, setItem in Hdel.
      destruct (List.filter _ (sessions st)) as [|first rest] eqn:Hf;
        rewrite ?Hroomy in Hdel; cbn [mbind option_bind] in Hdel.
      - cbn [length] in Hone. lia.
      - destruct (bool_decide _); by injection Hdel as <-. }
    split.
    { rewrite Hsessions. intros Hnil. rewrite Hnil in Hone.
      cbn [length] in Hone. lia. }
    split; [intros Hok; by eapply pointer_ok_delete|].
    split; [lia|]. intros _. split; [done|]. rewrite Hsessions.
    split; [done|]. split; [apply filter_gone|].
    intros Hother. unfold deleteSession, setItem in Hdel.
    destruct (List.filter _ (sessions st)) as [|first rest];
      rewrite ?Hroomy in Hdel; cbn [mbind option_bind] in Hdel.
    + cbn [length] in Hone. lia.
    + rewrite bool_decide_eq_false_2 in Hdel by done.
      by injection Hdel as <-.
  - apply Nat.ltb_ge in Hlen. exists st. split; [done|].
    split; [intros Hnil; rewrite Hnil in Hin; by destruct Hin|].
    split; [done|]. split; [done|]. lia.
Qed.

(** X11. A session made from the sidebar is put first, is active at
    once and is empty; its agent is the agent of the session that was
    active, and the default agent when no session was active or when that
    agent is the empty text. *)
Theorem sidebar_new_session (f : Fresh) (st : Store) :
  exists new,
    sessions (handleNewSession f st) = new :: sessions st
    /\ activeSession (handleNewSession f st) = Some new
    /\ session_id new = generateId f
    /\ session_messages new = []
    /\ session_name new = js "New conversation"
    /\ (forall active,
          activeSession st = Some active -> agentId active <> [] ->
          agentId new = agentId active)
    /\ (forall active,
          activeSession st = Some active -> agentId active = [] ->
          agentId new = js "default")
    /\ (activeSession st = None -> agentId new = js "default").
Proof.
  unfold handleNewSession. eexists. split; [reflexivity|].
  split.
  { unfold activeSession. cbn [createSession sessions activeSessionId
      List.find is_active createEmptySession session_id].
    by rewrite jsstring_eqb_refl. }
  split; [done|]. split; [done|]. split; [done|].
  cbn [createEmptySession agentId].
  destruct (activeSession st) as [active|]; [|done].
  split; [|split; [|done]]; intros a [= <-] Ha.
  - by destruct (agentId active).
  - by rewrite Ha.
Qed.

(** X12. Choosing an agent in the sidebar gives it to the active
    session, and to the requests that are sent for it from then on; the
    session keeps its id, its name and its messages, and stays active. *)
Theorem sidebar_agent_select
    (agent text : jsstring) (t : Z) (st : Store) (active : Session) :
  activeSession st = Some active ->
  exists active',
    activeSession (handleAgentSelect agent t st) = Some active'
    /\ agentId active' = agent
    /\ session_id active' = session_id active
    /\ session_name active' = session_name active
    /\ session_messages active' = session_messages active
    /\ payload (stream_request active' text)
       = chat_payload text (session_id active) agent
    /\ payload (fallback_request active' text)
       = chat_payload text (session_id active) agent.
Proof.
  intros Hactive. unfold handleAgentSelect. rewrite Hactive.
  unfold updateSessionAgent.
  rewrite (activeSession_update _ st active) by done.
  by eexists.
Qed.

End MoreStoreFacts.

(** ** A send, from its guard to its [finally] *)

Section MoreSendFacts.
Context {E : Engine}.
Variable env : Env.

Local Abbreviation val := (value number).

#[local] Existing Instance M_ret.
#[local] Existing Instance M_bind.

(** X13. Every call of [sendMessage], of the view and of the hook,
    returns without an exception.  A call with a blank text, or made while
    another is loading, or (for the view) with no active session, changes
    nothing and sends nothing; every other call ends with the loading,
    streaming and thinking flags down, the progress list empty and the
    partial content empty, whatever the backend did. *)
Theorem send_always_settles
    (sessionId content : jsstring) (w : World) :
  ((sendMessage env content w).1 = Returned tt
   /\ (useChat_sendMessage env sessionId content w).1 = Returned tt)
  /\ (trim content = [] \/ isLoading (chat w) = true
      \/ activeSession (store w) = None ->
      sendMessage env content w = (Returned tt, w))
  /\ (trim content = [] \/ isLoading (chat w) = true ->
      useChat_sendMessage env sessionId content w = (Returned tt, w))
  /\ (trim content <> [] -> isLoading (chat w) = false ->
      (activeSession (store w) <> None ->
       settled (chat (sendMessage env content w).2))
      /\ settled (chat (useChat_sendMessage env sessionId content w).2)).
Proof.
  split; [split; [apply sendMessage_never_raises
                 |apply useChat_sendMessage_never_raises]|].
  split; [|split].
  - intros Hguard. rewrite sendMessage_eq.
    destruct (activeSession (store w)) as [active|]; [|done].
    destruct Hguard as [Hblank|[Hbusy|Hnone]]; [| |done].
    + by rewrite Hblank.
    + by rewrite Hbusy, orb_true_r.
  - intros Hguard. rewrite useChat_sendMessage_eq.
    destruct Hguard as [Hblank|Hbusy].
    + by rewrite Hblank.
    + by rewrite Hbusy, orb_true_r.
  - intros Htext Hloading. split.
    + destruct (activeSession (store w)) as [active|] eqn:Hactive; [|done].
      intros _.
      rewrite (sendMessage_run env content w active Hactive Htext Hloading).
      rewrite try_finally_run by apply settle_returns.
      cbn [snd]. by rewrite settle_run.
    + rewrite useChat_sendMessage_eq, Hloading.
      apply jsstring_eqb_neq in Htext. rewrite Htext. cbn [orb].
      rewrite try_finally_run by apply settle_returns.
      cbn [snd]. by rewrite settle_run.
Qed.

(** *** The store along a send *)

Lemma same_frame_update (sid : jsstring) (f : Session -> Session)
    (st : Store) :
  (forall s, session_id (f s) = session_id s) ->
  same_frame sid st (update_session sid f st).
Proof.
  intros Hid. unfold same_frame, update_session.
  cbn [sessions activeSessionId localStorage].
  split; [done|]. split; [done|]. split.
  - rewrite map_map. apply map_ext. intros s.
    by destruct (jsstring_eqb (session_id s) sid).
  - intros s Hin Hs. apply in_map_iff. exists s. split; [|done].
    apply jsstring_eqb_neq in Hs. by rewrite Hs.
Qed.

Lemma same_frame_trans (sid : jsstring) (a b c : Store) :
  same_frame sid a b -> same_frame sid b c -> same_frame sid a c.
Proof.
  intros (Ha & Hl & Hi & Ho) (Ha' & Hl' & Hi' & Ho').
  split; [congruence|]. split; [congruence|]. split; [congruence|].
  intros s Hin Hs. apply Ho'; [|done]. by apply Ho.
Qed.

Lemma name_first_store (active : Session) (text : jsstring) (w : World) :
  (name_first env active text w).1 = Returned tt
  /\ chat (name_first env active text w).2 = chat w
  /\ fetched (name_first env active text w).2 = fetched w
  /\ ((session_messages active <> []
       /\ store (name_first env active text w).2 = store w)
      \/ (session_messages active = []
          /\ exists t,
               store (name_first env active text w).2
               = updateSessionName (session_id active) (title_of text) t
                   (store w))).
Proof.
  unfold name_first. destruct (session_messages active).
  - split; [done|]. split; [done|]. split; [done|]. right.
    split; [done|]. by eexists.
  - split; [done|]. split; [done|]. split; [done|]. by left.
Qed.

Lemma recover_store (active : Session) (text : jsstring) (w : World) :
  let r := try_catch (fallback_attempt env active text)
                     (fun _ => apologize env active) w in
  exists a t,
    role a = assistant
    /\ msg_content a = reply_content env (fallback_request active text)
    /\ messages (chat r.2) = messages (chat w) ++ [a]
    /\ replied active text a t (store w) (store r.2).
Proof.
  cbv zeta. rewrite try_catch_run.
  assert (Hsorry : forall w',
             store w' = store w -> messages (chat w') = messages (chat w) ->
             exists a t,
               role a = assistant
               /\ msg_content a = VStr apology
               /\ messages (chat (apologize env active w').2)
                  = messages (chat w) ++ [a]
               /\ replied active text a t (store w)
                    (store (apologize env active w').2)).
  { intros w' Hstore Hmsgs. rewrite apologize_run.
    cbn [snd chat store messages setMessages]. rewrite Hstore, Hmsgs.
    eexists _, _. split; [|split; [|split; [reflexivity|by left]]]; done. }
  unfold reply_content, fallback_attempt, mbind, M_bind, bind, fetch.
  destruct (server env (fallback_request active text)) as [res|];
    cbn [fst snd]; [|by apply Hsorry].
  destruct (res_ok res); cbn [negb]; [|by apply Hsorry].
  unfold json. destruct (res_json res) as [data|]; [|by apply Hsorry].
  unfold ret, get, Date_now. cbn [fst snd].
  destruct (Get data (js "response")) as [response|] eqn:Hresponse;
    [|by apply Hsorry].
  assert (Hget : forall k, Get data k = Some (prop data k)).
  { intros k. destruct data; try done. }
  rewrite (Hget (js "message")), (Hget (js "toolCalls")).
  unfold ret. cbn [fst snd].
  unfold append_message, mbind, M_bind, bind, update_chat, update_store,
    Date_now. cbn [fst snd chat store fetched clock_reads].
  match goal with
  | |- context [name_first env active text ?w1] =>
      destruct (name_first_store active text w1)
        as (Hret & Hchat & _ & Hstore);
      destruct (name_first env active text w1) as [r1 w2]
  end.
  cbn [fst snd chat store] in *. subst r1.
  cbn [fst snd chat store]. rewrite Hchat.
  eexists _, _. split; [|split; [|split; [reflexivity|]]]; [done|done|].
  destruct Hstore as [[_ ->]|[Hempty [t' ->]]].
  - by left.
  - right. split; [done|]. by exists t'.
Qed.

Lemma completed_store (active : Session) (text : jsstring) (w : World)
    (res : Response) (b : Body) :
  server env (stream_request active text) = Some res ->
  res_ok res = true -> res_body res = Some b -> breaks b = false ->
  (stream_attempt env active text w).1 = Returned tt
  /\ fetched (stream_attempt env active text w).2
     = fetched w ++ [stream_request active text]
  /\ exists a t,
       role a = assistant
       /\ msg_content a = VStr (final_content (streamed b w))
       /\ messages (chat (stream_attempt env active text w).2)
          = messages (chat w) ++ [a]
       /\ replied active text a t (store w)
            (store (stream_attempt env active text w).2).
Proof.
  intros Hres Hok Hbody Hbreaks.
  unfold stream_attempt, mbind, M_bind, bind, fetch.
  rewrite Hres. cbn [fst snd]. rewrite Hok, Hbody. cbn [negb].
  unfold read_loop, update_chat, streamed, final_content.
  cbn [fst snd chat store fetched clock_reads].
  pose proof (read_all_messages (chunks b) (setIsStreaming true (chat w)))
    as Hmsgs.
  destruct (read_all (chunks b) (setIsStreaming true (chat w))) as [r c'].
  rewrite Hbreaks. cbn [fst snd] in *.
  unfold Date_now, get_chat, append_message, mbind, M_bind, bind,
    update_chat, update_store, Date_now.
  cbn [fst snd chat store fetched clock_reads].
  match goal with
  | |- context [name_first env active text ?w1] =>
      destruct (name_first_store active text w1)
        as (Hret & Hchat & Hfetched & Hstore);
      destruct (name_first env active text w1) as [r1 w2]
  end.
  cbn [fst snd chat store fetched] in *. subst r1.
  cbn [fst snd chat store fetched]. rewrite Hchat, Hfetched.
  split; [done|]. split; [done|].
  eexists _, _. split; [|split; [|split]]; [| |
    cbn [messages setStreamingContent setShowSummary setMessages
         setIsThinking setIsStreaming];
    rewrite Hmsgs; reflexivity|]; [done|done|].
  destruct Hstore as [[_ ->]|[Hempty [t' ->]]].
  - by left.
  - right. split; [done|]. by exists t'.
Qed.

(** A response that is ok and has no body: the streaming attempt of the
    view ends there, that of the hook throws. *)
Lemma bodiless_stream (active : Session) (text : jsstring) (w : World)
    (res : Response) :
  server env (stream_request active text) = Some res ->
  res_ok res = true -> res_body res = None ->
  stream_attempt env active text w
  = (Returned tt,
     {| chat := chat w; store := store w;
        fetched := fetched w ++ [stream_request active text];
        clock_reads := clock_reads w |}).
Proof.
  intros Hres Hok Hbody.
  unfold stream_attempt, mbind, M_bind, bind, fetch.
  rewrite Hres. cbn [fst snd]. by rewrite Hok, Hbody.
Qed.

(** What the sessions are after the user message, and after a reply. *)
Lemma active_after_the_user_message (active : Session) (u : Message)
    (text : jsstring) (t : Z) (st : Store) :
  activeSession st = Some active ->
  role u = user -> msg_content u = VStr text ->
  exists active',
    activeSession (addMessageToSession (session_id active) u t st)
    = Some active'
    /\ session_id active' = session_id active
    /\ agentId active' = agentId active
    /\ createdAt active' = createdAt active
    /\ session_messages active' = session_messages active ++ [u]
    /\ session_name active'
       = match session_messages active with
         | [] => title_of text
         | _ :: _ => session_name active
         end
    /\ same_frame (session_id active) st
         (addMessageToSession (session_id active) u t st).
Proof.
  intros Hactive Hrole Hcontent. unfold addMessageToSession.
  rewrite (activeSession_update _ st active) by done.
  eexists. split; [reflexivity|].
  cbn [session_id agentId createdAt session_messages session_name].
  rewrite Hrole, Hcontent.
  split; [done|]. split; [done|]. split; [done|]. split; [done|].
  split; [by destruct (session_messages active)|].
  by apply same_frame_update.
Qed.

Lemma active_after_the_reply (active mid : Session) (u a : Message)
    (text : jsstring) (t : Z) (st st' : Store) :
  activeSession st = Some mid ->
  session_id mid = session_id active ->
  session_messages mid = session_messages active ++ [u] ->
  session_name mid
  = match session_messages active with
    | [] => title_of text
    | _ :: _ => session_name active
    end ->
  replied active text a t st st' ->
  exists active',
    activeSession st' = Some active'
    /\ session_id active' = session_id active
    /\ agentId active' = agentId mid
    /\ createdAt active' = createdAt mid
    /\ session_messages active' = session_messages active ++ [u; a]
    /\ session_name active' = session_name mid
    /\ same_frame (session_id active) st st'.
Proof.
  intros Hmid Hid Hmsgs Hname Hreplied. unfold replied in Hreplied.
  rewrite <- Hid in Hreplied.
  assert (Hadded :
            activeSession (addMessageToSession (session_id mid) a t st)
            = Some {| session_id := session_id mid;
                      session_name := session_name mid;
                      agentId := agentId mid;
                      session_messages := session_messages mid ++ [a];
                      createdAt := createdAt mid;
                      updatedAt := Time t |}).
  { unfold addMessageToSession.
    rewrite (activeSession_update _ st mid) by done. do 2 f_equal.
    rewrite Hmsgs. by destruct (session_messages active). }
  assert (Hframe : same_frame (session_id mid) st
                     (addMessageToSession (session_id mid) a t st)).
  { by apply same_frame_update. }
  destruct Hreplied as [->|[Hempty [t' ->]]].
  - eexists. split; [exact Hadded|].
    cbn [session_id agentId createdAt session_messages session_name].
    rewrite Hmsgs, <- app_assoc, <- Hid. done.
  - set (st1 := addMessageToSession (session_id mid) a t st) in *.
    unfold updateSessionName.
    pose proof (activeSession_update
                  (fun s => {| session_id := session_id s;
                               session_name := title_of text;
                               agentId := agentId s;
                               session_messages := session_messages s;
                               createdAt := createdAt s;
                               updatedAt := Time t' |})
                  st1 _ (fun _ => eq_refl) Hadded) as Hnamed.
    cbn [session_id] in Hnamed.
    eexists. split; [exact Hnamed|].
    cbn [session_id agentId createdAt session_messages session_name].
    rewrite Hmsgs, <- app_assoc, <- Hid, Hname, Hempty.
    split; [done|]. split; [done|]. split; [done|]. split; [done|].
    split; [done|].
    eapply same_frame_trans; [exact Hframe|]. by apply same_frame_update.
Qed.

(** X14. A send of the view that passes the guard adds the user
    message and at most one assistant message, the same to the view and
    to the active session.  The session stays the active one and keeps its
    id, its agent and its creation date; when the send found it empty it
    is named after the text, cut at 30 units; the pointer, the storage, the
    ids and the sessions with another id are left alone.  No assistant
    message is added in one case only: the streaming response is ok and
    has no body. *)
Theorem send_reaches_the_active_session
    (content : jsstring) (w : World) (active : Session) :
  activeSession (store w) = Some active ->
  trim content <> [] ->
  isLoading (chat w) = false ->
  let u := userMessage_at env content w in
  let w' := (sendMessage env content w).2 in
  exists added active',
    (added = [] \/ exists a, added = [a] /\ role a = assistant)
    /\ messages (chat w') = messages (chat w) ++ u :: added
    /\ activeSession (store w') = Some active'
    /\ session_id active' = session_id active
    /\ agentId active' = agentId active
    /\ createdAt active' = createdAt active
    /\ session_messages active' = session_messages active ++ u :: added
    /\ session_name active'
       = match session_messages active with
         | [] => title_of (trim content)
         | _ :: _ => session_name active
         end
    /\ same_frame (session_id active) (store w) (store w')
    /\ (added = [] <->
        exists res,
          server env (stream_request active (trim content)) = Some res
          /\ res_ok res = true /\ res_body res = None).
Proof.
  intros Hactive Htext Hloading u w'. subst w'.
  rewrite (sendMessage_run env content w active Hactive Htext Hloading).
  rewrite try_finally_run by apply settle_returns. cbn [snd].
  rewrite settle_run.
  cbn [snd chat store messages setStreamingContent setProgressSteps
       setIsThinking setIsStreaming setIsLoading].
  rewrite try_catch_run.
  set (w0 := started env active content w).
  assert (Hmsgs0 : messages (chat w0) = messages (chat w) ++ [u])
    by reflexivity.
  destruct (active_after_the_user_message active u (trim content)
              (clock env (S (S (clock_reads w)))) (store w)
              Hactive eq_refl eq_refl)
    as (mid & Hmid & Hid & Hagent & Hcreated & Hmessages & Hname & Hframe).
  change (addMessageToSession (session_id active) u
            (clock env (S (S (clock_reads w)))) (store w))
    with (store w0) in Hmid, Hframe.
  set (run := match (stream_attempt env active (trim content) w0).1 with
              | Returned a =>
                  (Returned a,
                   (stream_attempt env active (trim content) w0).2)
              | Raised e =>
                  try_catch (fallback_attempt env active (trim content))
                    (fun _ => apologize env active)
                    (stream_attempt env active (trim content) w0).2
              end).
  set (bodiless := exists res,
         server env (stream_request active (trim content)) = Some res
         /\ res_ok res = true /\ res_body res = None).
  assert (Hreply : forall a t,
             role a = assistant ->
             messages (chat run.2) = messages (chat w0) ++ [a] ->
             replied active (trim content) a t (store w0) (store run.2) ->
             ~ bodiless ->
             exists added active',
               (added = [] \/ exists a, added = [a] /\ role a = assistant)
               /\ messages (chat run.2) = messages (chat w) ++ u :: added
               /\ activeSession (store run.2) = Some active'
               /\ session_id active' = session_id active
               /\ agentId active' = agentId active
               /\ createdAt active' = createdAt active
               /\ session_messages active'
                  = session_messages active ++ u :: added
               /\ session_name active'
                  = match session_messages active with
                    | [] => title_of (trim content)
                    | _ :: _ => session_name active
                    end
               /\ same_frame (session_id active) (store w) (store run.2)
               /\ (added = [] <-> bodiless)).
  { intros a t Hrole Hmsgs Hreplied Hbody.
    destruct (active_after_the_reply active mid u a (trim content) t
                (store w0) (store run.2) Hmid Hid Hmessages Hname Hreplied)
      as (active' & Hactive' & Hid' & Hagent' & Hcreated' & Hmessages'
          & Hname' & Hframe').
    exists [a], active'. split; [right; by exists a|].
    split; [by rewrite Hmsgs, Hmsgs0, <- app_assoc|].
    split; [done|]. split; [done|]. split; [congruence|].
    split; [congruence|]. split; [done|]. split; [congruence|].
    split; [by eapply same_frame_trans|]. by split. }
  destruct (server env (stream_request active (trim content))) as [res|]
    eqn:Hres.
  2: { destruct (stream_attempt_fails env active (trim content) w0
                   (stream_network_error env _ Hres))
         as ([e He] & Hstore & _ & _ & Hmsgs).
       destruct (recover_store active (trim content)
                   (stream_attempt env active (trim content) w0).2)
         as (a & t & Hrole & _ & Hmessages' & Hreplied).
       cbv zeta in *. rewrite Hstore, Hmsgs in *.
       apply (Hreply a t Hrole); subst run; rewrite ?He; try done.
       by intros (res & Hres' & _). }
  destruct (res_ok res) eqn:Hok.
  2: { destruct (stream_attempt_fails env active (trim content) w0
                   (stream_http_error env _ res Hres Hok))
         as ([e He] & Hstore & _ & _ & Hmsgs).
       destruct (recover_store active (trim content)
                   (stream_attempt env active (trim content) w0).2)
         as (a & t & Hrole & _ & Hmessages' & Hreplied).
       cbv zeta in *. rewrite Hstore, Hmsgs in *.
       apply (Hreply a t Hrole); subst run; rewrite ?He; try done.
       intros (res' & Hres' & Hok' & _). congruence. }
  destruct (res_body res) as [b|] eqn:Hbody.
  2: { subst run.
       rewrite (bodiless_stream active (trim content) w0 res Hres Hok Hbody).
       cbn [fst snd chat store].
       exists [], mid. split; [by left|]. split; [done|]. split; [done|].
       split; [done|]. split; [done|]. split; [done|]. split; [done|].
       split; [done|]. split; [done|]. split; [|done].
       intros _. by exists res. }
  destruct (breaks b) eqn:Hbreaks.
  - destruct (stream_attempt_fails env active (trim content) w0
                (stream_read_error env _ res b Hres Hok Hbody Hbreaks))
      as ([e He] & Hstore & _ & _ & Hmsgs).
    destruct (recover_store active (trim content)
                (stream_attempt env active (trim content) w0).2)
      as (a & t & Hrole & _ & Hmessages' & Hreplied).
    cbv zeta in *. rewrite Hstore, Hmsgs in *.
    apply (Hreply a t Hrole); subst run; rewrite ?He; try done.
    intros (res' & Hres' & _ & Hbody'). congruence.
  - destruct (completed_store active (trim content) w0 res b
                Hres Hok Hbody Hbreaks)
      as (Hret & _ & a & t & Hrole & _ & Hmessages' & Hreplied).
    apply (Hreply a t Hrole); subst run; rewrite ?Hret; try done.
    intros (res' & Hres' & _ & Hbody'). congruence.
Qed.

(** *** The hook *)

Lemma useChat_recover_saved (sessionId text : jsstring) (w : World) :
  let r := try_catch (useChat_fallback_attempt env sessionId text)
                     (fun _ => useChat_apologize env) w in
  fetched r.2 = fetched w ++ [useChat_fallback_request sessionId text]
  /\ exists a,
       role a = assistant
       /\ msg_content a
          = reply_content env (useChat_fallback_request sessionId text)
       /\ messages (chat r.2) = messages (chat w) ++ [a]
       /\ store r.2 = saved_with (messages (chat w) ++ [a]) (store w).
Proof.
  cbv zeta. rewrite try_catch_run.
  unfold reply_content, useChat_fallback_attempt, mbind, M_bind, bind, fetch.
  destruct (server env (useChat_fallback_request sessionId text)) as [res|];
    cbn [fst snd].
  2: { unfold throw. cbn [fst snd]. rewrite useChat_apologize_run.
       cbn [fst snd fetched chat store]. split; [done|].
       eexists. split; [|split; [|split]]; [| |reflexivity|];
         reflexivity. }
  destruct (res_ok res); cbn [negb].
  2: { unfold throw. cbn [fst snd]. rewrite useChat_apologize_run.
       cbn [fst snd fetched chat store]. split; [done|].
       eexists. split; [|split; [|split]]; [| |reflexivity|];
         reflexivity. }
  unfold json. destruct (res_json res) as [data|].
  2: { unfold throw. cbn [fst snd]. rewrite useChat_apologize_run.
       cbn [fst snd fetched chat store]. split; [done|].
       eexists. split; [|split; [|split]]; [| |reflexivity|];
         reflexivity. }
  unfold ret, get, Date_now. cbn [fst snd].
  destruct (Get data (js "response")) as [response|] eqn:Hresponse.
  2: { unfold throw. cbn [fst snd]. rewrite useChat_apologize_run.
       cbn [fst snd fetched chat store]. split; [done|].
       eexists. split; [|split; [|split]]; [| |reflexivity|];
         reflexivity. }
  assert (Hget : forall k, Get data k = Some (prop data k)).
  { intros k. destruct data; try done. }
  rewrite (Hget (js "message")), (Hget (js "toolCalls")).
  unfold ret. cbn [fst snd]. split; [done|].
  eexists. split; [|split; [|split]]; [| |reflexivity|]; reflexivity.
Qed.

Lemma useChat_completed_run (sessionId text : jsstring) (w : World)
    (res : Response) (b : Body) :
  server env (useChat_stream_request sessionId text) = Some res ->
  res_ok res = true -> res_body res = Some b -> breaks b = false ->
  (useChat_stream_attempt env sessionId text w).1 = Returned tt
  /\ fetched (useChat_stream_attempt env sessionId text w).2
     = fetched w ++ [useChat_stream_request sessionId text]
  /\ exists a,
       role a = assistant
       /\ msg_content a = VStr (final_content (streamed b w))
       /\ messages (chat (useChat_stream_attempt env sessionId text w).2)
          = messages (chat w) ++ [a]
       /\ store (useChat_stream_attempt env sessionId text w).2
          = saved_with (messages (chat w) ++ [a]) (store w).
Proof.
  intros Hres Hok Hbody Hbreaks.
  unfold useChat_stream_attempt, mbind, M_bind, bind, fetch.
  rewrite Hres. cbn [fst snd]. rewrite Hok, Hbody. cbn [negb].
  unfold read_loop, update_chat, streamed, final_content.
  cbn [fst snd chat store fetched clock_reads].
  pose proof (read_all_messages (chunks b) (setIsStreaming true (chat w)))
    as Hmsgs.
  destruct (read_all (chunks b) (setIsStreaming true (chat w))) as [r c'].
  rewrite Hbreaks. cbn [fst snd] in *.
  unfold Date_now, get_chat, useChat_append, mbind, M_bind, bind,
    update_chat.
  cbn [fst snd chat store fetched clock_reads messages setIsThinking
       setIsStreaming setStreamingContent setShowSummary setMessages].
  rewrite Hmsgs. cbn [messages setIsStreaming].
  split; [done|]. split; [done|].
  eexists. split; [|split; [|split]]; [| |reflexivity|]; reflexivity.
Qed.

Lemma useChat_bodiless_stream (sessionId text : jsstring) (w : World)
    (res : Response) :
  server env (useChat_stream_request sessionId text) = Some res ->
  res_ok res = true -> res_body res = None ->
  useChat_stream_attempt env sessionId text w
  = (Raised NoResponseBody,
     {| chat := chat w; store := store w;
        fetched := fetched w ++ [useChat_stream_request sessionId text];
        clock_reads := clock_reads w |}).
Proof.
  intros Hres Hok Hbody.
  unfold useChat_stream_attempt, mbind, M_bind, bind, fetch.
  rewrite Hres. cbn [fst snd]. by rewrite Hok, Hbody.
Qed.

Lemma useChat_stream_attempt_store (sessionId text : jsstring)
    (w : World) :
  stream_failure env (useChat_stream_request sessionId text) ->
  store (useChat_stream_attempt env sessionId text w).2 = store w.
Proof.
  intros Hfail. unfold useChat_stream_attempt, mbind, M_bind, bind, fetch.
  destruct Hfail as [Hnet | res Hres Hok | res b Hres Hok Hbody Hbreaks].
  - by rewrite Hnet.
  - by rewrite Hres, Hok.
  - rewrite Hres, Hok, Hbody. cbn [negb fst snd].
    unfold read_loop, update_chat. cbn [fst snd chat store].
    destruct (read_all (chunks b) (setIsStreaming true (chat w))) as [r c'].
    by rewrite Hbreaks.
Qed.

(** X15. A send of the hook that passes the guard adds two messages,
    the user message and one assistant message, whatever the backend does,
    and saves the messages after each of them: when local storage takes
    the writes, it holds at the end the JSON text of the messages of the
    hook. *)
Theorem hook_send_appends_and_saves
    (sessionId content : jsstring) (w : World) :
  trim content <> [] ->
  isLoading (chat w) = false ->
  let u := userMessage_at env content w in
  let w' := (useChat_sendMessage env sessionId content w).2 in
  exists a,
    role a = assistant
    /\ messages (chat w') = messages (chat w) ++ [u; a]
    /\ store w'
       = saved_with (messages (chat w) ++ [u; a])
           (saved_with (messages (chat w) ++ [u]) (store w))
    /\ (roomy (localStorage (store w)) ->
        getItem CHAT_STORAGE_KEY (localStorage (store w'))
        = Some (JSON_stringify
                  (VArr (map Message_value (messages (chat w')))))).
Proof.
  intros Htext Hloading u w'. subst w'.
  rewrite useChat_sendMessage_eq, Hloading.
  apply jsstring_eqb_neq in Htext. rewrite Htext. cbn [orb].
  rewrite try_finally_run by apply settle_returns. cbn [snd].
  rewrite settle_run.
  cbn [snd chat store messages setStreamingContent setProgressSteps
       setIsThinking setIsStreaming setIsLoading].
  rewrite try_catch_run.
  set (w0 := useChat_started env content w).
  assert (Hmsgs0 : messages (chat w0) = messages (chat w) ++ [u])
    by reflexivity.
  assert (Hstore0 : store w0
                    = saved_with (messages (chat w) ++ [u]) (store w))
    by reflexivity.
  set (run := match (useChat_stream_attempt env sessionId (trim content)
                       w0).1 with
              | Returned a =>
                  (Returned a,
                   (useChat_stream_attempt env sessionId (trim content)
                      w0).2)
              | Raised e =>
                  try_catch
                    (useChat_fallback_attempt env sessionId (trim content))
                    (fun _ => useChat_apologize env)
                    (useChat_stream_attempt env sessionId (trim content)
                       w0).2
              end).
  assert (Hdone : forall a,
             role a = assistant ->
             messages (chat run.2) = messages (chat w0) ++ [a] ->
             store run.2 = saved_with (messages (chat w0) ++ [a]) (store w0) ->
             exists a,
               role a = assistant
               /\ messages (chat run.2) = messages (chat w) ++ [u; a]
               /\ store run.2
                  = saved_with (messages (chat w) ++ [u; a])
                      (saved_with (messages (chat w) ++ [u]) (store w))
               /\ (roomy (localStorage (store w)) ->
                   getItem CHAT_STORAGE_KEY (localStorage (store run.2))
                   = Some (JSON_stringify
                             (VArr (map Message_value
                                        (messages (chat run.2))))))).
  { intros a Hrole Hmsgs Hstore. exists a.
    rewrite Hmsgs0, <- app_assoc in Hmsgs, Hstore. cbn [app] in Hmsgs, Hstore.
    rewrite Hstore0 in Hstore. split; [done|]. split; [done|].
    split; [done|]. intros Hroomy. rewrite Hstore, Hmsgs.
    unfold saved_with, saveMessages, setItem, getItem.
    cbn [localStorage]. rewrite Hroomy. cbn [accepts]. rewrite Hroomy.
    cbn [items]. by rewrite lookup_insert_eq. }
  assert (Hfailed : forall e w1,
             useChat_stream_attempt env sessionId (trim content) w0
             = (Raised e, w1) ->
             messages (chat w1) = messages (chat w0) ->
             store w1 = store w0 ->
             exists a,
               role a = assistant
               /\ messages (chat run.2) = messages (chat w) ++ [u; a]
               /\ store run.2
                  = saved_with (messages (chat w) ++ [u; a])
                      (saved_with (messages (chat w) ++ [u]) (store w))
               /\ (roomy (localStorage (store w)) ->
                   getItem CHAT_STORAGE_KEY (localStorage (store run.2))
                   = Some (JSON_stringify
                             (VArr (map Message_value
                                        (messages (chat run.2))))))).
  { intros e w1 Hrun Hmsgs Hstore. subst run. rewrite Hrun. cbn [fst snd].
    destruct (useChat_recover_saved sessionId (trim content) w1)
      as (_ & a & Hrole & _ & Hmessages & Hsaved).
    cbv zeta in *. rewrite Hmsgs, Hstore in *.
    revert Hdone. rewrite Hrun. cbn [fst snd]. intros Hdone.
    by apply (Hdone a). }
  destruct (server env (useChat_stream_request sessionId (trim content)))
    as [res|] eqn:Hres.
  2: { pose proof (stream_network_error env _ Hres) as Hfail.
       destruct (useChat_stream_attempt_fails env sessionId (trim content)
                   w0 Hfail) as ([e He] & _ & Hmsgs).
       pose proof (useChat_stream_attempt_store sessionId (trim content)
                     w0 Hfail) as Hstore.
       apply (Hfailed e _ (eq_trans (surjective_pairing _)
                             (f_equal (fun x => (x, _)) He)) Hmsgs Hstore). }
  destruct (res_ok res) eqn:Hok.
  2: { pose proof (stream_http_error env _ res Hres Hok) as Hfail.
       destruct (useChat_stream_attempt_fails env sessionId (trim content)
                   w0 Hfail) as ([e He] & _ & Hmsgs).
       pose proof (useChat_stream_attempt_store sessionId (trim content)
                     w0 Hfail) as Hstore.
       apply (Hfailed e _ (eq_trans (surjective_pairing _)
                             (f_equal (fun x => (x, _)) He)) Hmsgs Hstore). }
  destruct (res_body res) as [b|] eqn:Hbody.
  2: { apply (Hfailed NoResponseBody _
                (useChat_bodiless_stream sessionId (trim content) w0 res
                   Hres Hok Hbody)); done. }
  destruct (breaks b) eqn:Hbreaks.
  - pose proof (stream_read_error env _ res b Hres Hok Hbody Hbreaks)
      as Hfail.
    destruct (useChat_stream_attempt_fails env sessionId (trim content)
                w0 Hfail) as ([e He] & _ & Hmsgs).
    pose proof (useChat_stream_attempt_store sessionId (trim content)
                  w0 Hfail) as Hstore.
    apply (Hfailed e _ (eq_trans (surjective_pairing _)
                          (f_equal (fun x => (x, _)) He)) Hmsgs Hstore).
  - destruct (useChat_completed_run sessionId (trim content) w0 res b
                Hres Hok Hbody Hbreaks)
      as (Hret & _ & a & Hrole & _ & Hmessages & Hsaved).
    apply (Hdone a Hrole); subst run; by rewrite Hret.
Qed.

(** *** The requests of a send whose streaming response is ok *)

(** X16. When the streaming response is ok and its body is read to its
    end, a send makes that one request and no request to the fallback
    endpoint, and the assistant message it adds holds what the stream has
    accumulated, or the placeholder when that is nothing: this for the view
    and for the hook. *)
Theorem a_stream_read_to_its_end_needs_no_fallback
    (sessionId content : jsstring) (w : World) (active : Session)
    (res res' : Response) (b b' : Body) :
  activeSession (store w) = Some active ->
  trim content <> [] ->
  isLoading (chat w) = false ->
  server env (stream_request active (trim content)) = Some res ->
  res_ok res = true -> res_body res = Some b -> breaks b = false ->
  server env (useChat_stream_request sessionId (trim content)) = Some res' ->
  res_ok res' = true -> res_body res' = Some b' -> breaks b' = false ->
  (fetched (sendMessage env content w).2
   = fetched w ++ [stream_request active (trim content)]
   /\ exists a,
        role a = assistant
        /\ msg_content a
           = VStr (final_content
                     (streamed b (started env active content w)))
        /\ messages (chat (sendMessage env content w).2)
           = messages (chat w) ++ [userMessage_at env content w; a])
  /\ (fetched (useChat_sendMessage env sessionId content w).2
      = fetched w ++ [useChat_stream_request sessionId (trim content)]
      /\ exists a,
           role a = assistant
           /\ msg_content a
              = VStr (final_content
                        (streamed b' (useChat_started env content w)))
           /\ messages (chat (useChat_sendMessage env sessionId content w).2)
              = messages (chat w) ++ [userMessage_at env content w; a]).
Proof.
  intros Hactive Htext Hloading Hres Hok Hbody Hbreaks
         Hres' Hok' Hbody' Hbreaks'.
  split.
  - rewrite (sendMessage_run env content w active Hactive Htext Hloading).
    rewrite try_finally_run by apply settle_returns. cbn [snd].
    rewrite settle_run.
    cbn [snd chat fetched messages setStreamingContent setProgressSteps
         setIsThinking setIsStreaming setIsLoading].
    rewrite try_catch_run.
    destruct (completed_store active (trim content)
                (started env active content w) res b Hres Hok Hbody Hbreaks)
      as (Hret & Hfetched & a & t & Hrole & Hcontent & Hmessages & _).
    rewrite Hret. cbn [snd]. rewrite Hfetched, Hmessages.
    split; [done|]. exists a. split; [done|]. split; [done|].
    cbn [started chat messages setIsLoading setRef setIsThinking
         setIsStreaming setStreamingContent setMessages].
    by rewrite <- app_assoc.
  - rewrite useChat_sendMessage_eq, Hloading.
    apply jsstring_eqb_neq in Htext. rewrite Htext. cbn [orb].
    rewrite try_finally_run by apply settle_returns. cbn [snd].
    rewrite settle_run.
    cbn [snd chat fetched messages setStreamingContent setProgressSteps
         setIsThinking setIsStreaming setIsLoading].
    rewrite try_catch_run.
    destruct (useChat_completed_run sessionId (trim content)
                (useChat_started env content w) res' b'
                Hres' Hok' Hbody' Hbreaks')
      as (Hret & Hfetched & a & Hrole & Hcontent & Hmessages & _).
    rewrite Hret. cbn [snd]. rewrite Hfetched, Hmessages.
    split; [done|]. exists a. split; [done|]. split; [done|].
    cbn [useChat_started chat messages setIsLoading setRef setIsThinking
         setIsStreaming setStreamingContent setMessages].
    by rewrite <- app_assoc.
Qed.

(** X17. When the streaming response is ok and has no body, the view
    stops there: it has made one request and added the user message and no
    assistant message.  The hook takes the same response for a failure: it
    makes the fallback request and adds the assistant message that the
    fallback gives. *)
Theorem an_ok_response_without_a_body
    (sessionId content : jsstring) (w : World) (active : Session)
    (res res' : Response) :
  activeSession (store w) = Some active ->
  trim content <> [] ->
  isLoading (chat w) = false ->
  server env (stream_request active (trim content)) = Some res ->
  res_ok res = true -> res_body res = None ->
  server env (useChat_stream_request sessionId (trim content)) = Some res' ->
  res_ok res' = true -> res_body res' = None ->
  (fetched (sendMessage env content w).2
   = fetched w ++ [stream_request active (trim content)]
   /\ messages (chat (sendMessage env content w).2)
      = messages (chat w) ++ [userMessage_at env content w])
  /\ (fetched (useChat_sendMessage env sessionId content w).2
      = fetched w ++ [useChat_stream_request sessionId (trim content);
                      useChat_fallback_request sessionId (trim content)]
      /\ exists a,
           role a = assistant
           /\ msg_content a
              = reply_content env
                  (useChat_fallback_request sessionId (trim content))
           /\ messages (chat (useChat_sendMessage env sessionId content w).2)
              = messages (chat w) ++ [userMessage_at env content w; a]).
Proof.
  intros Hactive Htext Hloading Hres Hok Hbody Hres' Hok' Hbody'.
  split.
  - rewrite (sendMessage_run env content w active Hactive Htext Hloading).
    rewrite try_finally_run by apply settle_returns. cbn [snd].
    rewrite settle_run.
    cbn [snd chat fetched messages setStreamingContent setProgressSteps
         setIsThinking setIsStreaming setIsLoading].
    rewrite try_catch_run.
    by rewrite (bodiless_stream active (trim content) _ res Hres Hok Hbody).
  - rewrite useChat_sendMessage_eq, Hloading.
    apply jsstring_eqb_neq in Htext. rewrite Htext. cbn [orb].
    rewrite try_finally_run by apply settle_returns. cbn [snd].
    rewrite settle_run.
    cbn [snd chat fetched messages setStreamingContent setProgressSteps
         setIsThinking setIsStreaming setIsLoading].
    rewrite try_catch_run.
    rewrite (useChat_bodiless_stream sessionId (trim content) _ res'
               Hres' Hok' Hbody').
    cbn [fst snd].
    match goal with
    | |- context [try_catch _ _ ?w1] =>
        destruct (useChat_recover_saved sessionId (trim content) w1)
          as (Hfetched & a & Hrole & Hcontent & Hmessages & _)
    end.
    cbv zeta in *. rewrite Hfetched, Hmessages.
    cbn [useChat_started chat fetched messages setIsLoading setRef
         setIsThinking setIsStreaming setStreamingContent setMessages].
    split; [by rewrite <- app_assoc|].
    exists a. split; [done|]. split; [done|]. by rewrite <- app_assoc.
Qed.

End MoreSendFacts.

(** ** The history of the hook *)

Section MoreHookFacts.
Context {E : Engine}.

Local Abbreviation val := (value number).

Lemma has_In (set : list jsstring) (t : jsstring) :
  has set t = true <-> In t set.
Proof.
  unfold has. rewrite existsb_exists. split.
  - intros (x & Hin & Hx). apply jsstring_eqb_eq in Hx. by subst x.
  - intros Hin. exists t. split; [done | apply jsstring_eqb_refl].
Qed.

Lemma is_welcome_spec (i : val) :
  strict_eq i (VStr (js "welcome")) = false <-> i <> VStr (js "welcome").
Proof.
  rewrite <- (strict_eq_key i (VStr (js "welcome")) I).
  by destruct (strict_eq i (VStr (js "welcome"))).
Qed.

Lemma local_only_kept (set : list jsstring) (l r : list val) :
  local_only set l = Some r ->
  sublist r l /\ Forall (local_only_message set) r.
Proof.
  revert r. induction l as [|m l IH]; intros r; cbn [local_only].
  - intros [= <-]. split; constructor.
  - destruct (Get m (js "id")) as [i|] eqn:Hi; [|done].
    cbn [mbind option_bind].
    destruct (strict_eq i (VStr (js "welcome"))) eqn:Hw;
      cbn [mbind option_bind].
    + destruct (local_only set l) as [r'|]; [|done].
      cbn [mbind option_bind]. intros [= <-].
      destruct (IH r' eq_refl) as [Hsub Hall].
      split; [by apply sublist_cons | done].
    + destruct (content_trim m) as [t|] eqn:Ht; [|done].
      cbn [mbind option_bind].
      destruct (local_only set l) as [r'|]; [|done].
      cbn [mbind option_bind]. intros [= <-].
      destruct (IH r' eq_refl) as [Hsub Hall].
      destruct (has set t) eqn:Hhas; cbn [negb].
      * split; [by apply sublist_cons | done].
      * split; [by apply sublist_skip|]. constructor; [|done].
        exists i, t. split; [done|]. split; [by apply is_welcome_spec|].
        split; [done|]. rewrite <- has_In. by rewrite Hhas.
Qed.

Lemma local_only_again (set : list jsstring) (r : list val) :
  Forall (local_only_message set) r -> local_only set r = Some r.
Proof.
  induction 1 as [|m r (i & t & Hi & Hw & Ht & Hno) _ IH]; [done|].
  cbn [local_only]. rewrite Hi. cbn [mbind option_bind].
  apply is_welcome_spec in Hw. rewrite Hw, Ht. cbn [mbind option_bind].
  rewrite IH. cbn [mbind option_bind].
  assert (Hhas : has set t = false).
  { destruct (has set t) eqn:Hhas; [|done]. by apply has_In in Hhas. }
  by rewrite Hhas.
Qed.

Lemma local_only_covered (set : list jsstring) (b : list val) :
  Forall (fun m => exists t, content_trim m = Some t /\ In t set) b ->
  local_only set b = Some [].
Proof.
  induction 1 as [|m b (t & Ht & Hin) _ IH]; [done|].
  cbn [local_only].
  assert (Hid : exists i, Get m (js "id") = Some i).
  { unfold content_trim in Ht. destruct m; try done; by eexists. }
  destruct Hid as [i Hi]. rewrite Hi, Ht, IH. cbn [mbind option_bind].
  apply has_In in Hin. rewrite Hin.
  by destruct (strict_eq i (VStr (js "welcome"))).
Qed.

Lemma local_only_app (set : list jsstring) (x y rx ry : list val) :
  local_only set x = Some rx -> local_only set y = Some ry ->
  local_only set (x ++ y) = Some (rx ++ ry).
Proof.
  revert rx. induction x as [|m x IH]; intros rx; cbn [local_only app].
  - by intros [= <-].
  - destruct (Get m (js "id")) as [i|]; [|done]. cbn [mbind option_bind].
    destruct (if strict_eq i (VStr (js "welcome")) then Some false
              else content_trim m ≫= λ t, Some (negb (has set t)))
      as [keep|]; [|done].
    cbn [mbind option_bind].
    destruct (local_only set x) as [rx'|]; [|done].
    cbn [mbind option_bind]. intros [= <-] Hy.
    rewrite (IH rx' eq_refl Hy). cbn [mbind option_bind].
    by destruct keep.
Qed.

Lemma trims_cover (b : list val) (set : list jsstring) :
  mapM content_trim b = Some set ->
  Forall (fun m => exists t, content_trim m = Some t /\ In t set) b.
Proof.
  intros Hset. apply mapM_Some_1 in Hset.
  induction Hset as [|m t b set Ht _ IH]; [done|].
  constructor; [exists t; split; [done | by left]|].
  eapply Forall_impl; [exact IH|].
  intros m' (t' & Ht' & Hin). exists t'. split; [done | by right].
Qed.

(** X18. What [mergeMessages] returns starts with the backend messages,
    all of them and in their order; what follows are local messages, in
    their order, and, when there are backend messages, none of them is the
    welcome message and none has the content of a backend message.
    Merging the result with the same backend messages once more gives the
    result again. *)
Theorem merge_keeps_the_backend_history
    (backendMessages localMessages merged : list val)
    (backendContentSet : list jsstring) :
  mergeMessages backendMessages localMessages = Some merged ->
  mapM content_trim backendMessages = Some backendContentSet ->
  (exists kept,
     merged = backendMessages ++ kept
     /\ sublist kept localMessages
     /\ (backendMessages <> [] ->
         Forall (local_only_message backendContentSet) kept))
  /\ mergeMessages backendMessages merged = Some merged.
Proof.
  intros Hmerge Hset. unfold mergeMessages in Hmerge.
  pose proof (local_only_covered _ _ (trims_cover _ _ Hset)) as Hcovered.
  destruct ((length localMessages <=? 1)%nat && head_is_welcome localMessages)
    eqn:Hdefault.
  - destruct backendMessages as [|m b].
    + injection Hmerge as <-. split.
      * exists localMessages. by split.
      * unfold mergeMessages. by rewrite Hdefault.
    + injection Hmerge as <-. split.
      * exists []. rewrite app_nil_r. split; [done|].
        split; [apply sublist_nil_l | done].
      * unfold mergeMessages.
        destruct ((length (m :: b) <=? 1)%nat && head_is_welcome (m :: b));
          [done|].
        rewrite Hset. cbn [mbind option_bind]. rewrite Hcovered.
        cbn [mbind option_bind]. by rewrite app_nil_r.
  - rewrite Hset in Hmerge. cbn [mbind option_bind] in Hmerge.
    destruct (local_only backendContentSet localMessages) as [kept|] eqn:Hk;
      [|done].
    cbn [mbind option_bind] in Hmerge. injection Hmerge as <-.
    destruct (local_only_kept _ _ _ Hk) as [Hsub Hall].
    split; [by exists kept|].
    unfold mergeMessages.
    destruct ((length (backendMessages ++ kept) <=? 1)%nat
              && head_is_welcome (backendMessages ++ kept)) eqn:Hagain.
    + destruct backendMessages as [|m b]; [done|].
      apply andb_prop in Hagain as [Hlen _]. apply Nat.leb_le in Hlen.
      cbn [app length] in Hlen. rewrite length_app in Hlen.
      destruct kept; [by rewrite app_nil_r | cbn [length] in Hlen; lia].
    + rewrite Hset. cbn [mbind option_bind].
      rewrite (local_only_app _ _ _ [] kept Hcovered
                 (local_only_again _ _ Hall)).
      done.
Qed.

(** *** The session id of the hook *)

Lemma generateSessionId_not_nil (f : Fresh) : generateSessionId f <> [].
Proof. done. Qed.

(** X19. [getOrCreateSessionId] returns a text that is not empty: the
    stored id when one is stored that is not the empty text, a new id
    otherwise.  The new id is
    stored when the storage takes it; when the storage refuses it, nothing
    is stored and the id that is returned is yet another one, drawn in the
    [catch].  Once an id is stored, every later call returns it and
    leaves the storage as it is. *)
Theorem session_id_is_kept (f g f' g' : Fresh) (ls : Storage) :
  (getOrCreateSessionId f g ls).1 <> []
  /\ (forall stored,
        getItem SESSION_ID_KEY ls = Some stored -> stored <> [] ->
        getOrCreateSessionId f g ls = (stored, ls))
  /\ (getItem SESSION_ID_KEY ls = None
      \/ getItem SESSION_ID_KEY ls = Some [] ->
      (accepts ls SESSION_ID_KEY (generateSessionId f) = true ->
       (getOrCreateSessionId f g ls).1 = generateSessionId f
       /\ getItem SESSION_ID_KEY (getOrCreateSessionId f g ls).2
          = Some (generateSessionId f))
      /\ (accepts ls SESSION_ID_KEY (generateSessionId f) = false ->
          getOrCreateSessionId f g ls = (generateSessionId g, ls)))
  /\ (forall stored,
        getItem SESSION_ID_KEY (getOrCreateSessionId f g ls).2
        = Some stored ->
        stored <> [] ->
        getOrCreateSessionId f' g' (getOrCreateSessionId f g ls).2
        = getOrCreateSessionId f g ls).
Proof.
  assert (Hstable : forall stored ls0,
             getItem SESSION_ID_KEY ls0 = Some stored -> stored <> [] ->
             forall f0 g0, getOrCreateSessionId f0 g0 ls0 = (stored, ls0)).
  { intros stored ls0 Hstored Hne f0 g0. unfold getOrCreateSessionId.
    rewrite Hstored. by destruct stored. }
  split; [|split; [|split]].
  - unfold getOrCreateSessionId, setItem.
    destruct (getItem SESSION_ID_KEY ls) as [[|c stored]|]; [|done|];
      by destruct (accepts ls SESSION_ID_KEY (generateSessionId f)).
  - intros stored Hstored Hne. by apply Hstable.
  - intros Hnone. unfold getOrCreateSessionId, setItem.
    destruct Hnone as [Hnone|Hnone]; rewrite Hnone;
      (split; intros Ha; rewrite Ha; [|done]);
      (split; [done|]); unfold getItem; cbn [snd items];
      apply lookup_insert_eq.
  - intros stored Hstored Hne.
    rewrite (Hstable stored _ Hstored Hne f' g').
    destruct (getOrCreateSessionId f g ls) as [sid ls1] eqn:Hcall.
    cbn [snd] in *. f_equal.
    unfold getOrCreateSessionId, setItem in Hcall.
    destruct (getItem SESSION_ID_KEY ls) as [[|c s0]|] eqn:Hls.
    + destruct (accepts ls SESSION_ID_KEY (generateSessionId f));
        injection Hcall as <- <-.
      * unfold getItem in Hstored. cbn [items] in Hstored.
        rewrite lookup_insert_eq in Hstored. congruence.
      * rewrite Hls in Hstored. congruence.
    + injection Hcall as <- <-. congruence.
    + destruct (accepts ls SESSION_ID_KEY (generateSessionId f));
        injection Hcall as <- <-.
      * unfold getItem in Hstored. cbn [items] in Hstored.
        rewrite lookup_insert_eq in Hstored. congruence.
      * rewrite Hls in Hstored. congruence.
Qed.

(** *** Saving, loading and clearing the messages of the hook *)

Lemma as_Message_value (m : Message) : as_Message (Message_value m) = Some m.
Proof.
  destruct m as [i r c d tc]. unfold Message_value, as_Message.
  cbn [msg_id role msg_content timestamp toolCalls].
  assert (Hcalls : lookup_prop (js "toolCalls")
                     ([(js "id", VStr i); (js "role", Role_value r);
                       (js "content", c); (js "timestamp", VDate d)]
                      ++ optional_prop (js "toolCalls") tc) = tc).
  { by destruct tc. }
  rewrite Hcalls.
  change (lookup_prop (js "id") _) with (VStr i : val).
  change (lookup_prop (js "role") _) with (Role_value r).
  change (lookup_prop (js "timestamp") _) with (VDate d : val).
  change (lookup_prop (js "content") _) with c.
  cbn [as_text as_Date mbind option_bind]. by rewrite as_Role_value.
Qed.

Lemma loadMessages_default (loaded : Z) :
  mapM as_Message (map Message_value (DEFAULT_MESSAGES loaded))
  = Some (DEFAULT_MESSAGES loaded).
Proof.
  apply mapM_fmap_Some. apply as_Message_value.
Qed.

(** X20. The messages of the hook that are saved to local storage and
    loaded back are the messages that were saved, the dates read back from
    their ISO texts: this for a write that the storage takes, an engine
    whose [JSON.parse] reads what its [JSON.stringify] wrote, and messages
    whose dates are valid and whose contents and tool calls are values of
    JSON.  With nothing stored, with an empty text or with a text that is
    not JSON, what is loaded is the welcome message. *)
Theorem messages_load_after_save
    (loaded : Z) (ms : list Message) (ls : Storage) :
  let text := JSON_stringify (VArr (map Message_value ms)) in
  accepts ls CHAT_STORAGE_KEY text = true ->
  text <> [] ->
  JSON_parse text = Some (jsonify (VArr (map Message_value ms))) ->
  Forall storable_message ms ->
  loadMessages_typed loaded (saveMessages ms ls) = Some ms
  /\ (forall ls',
        getItem CHAT_STORAGE_KEY ls' = None
        \/ getItem CHAT_STORAGE_KEY ls' = Some []
        \/ (exists stored, getItem CHAT_STORAGE_KEY ls' = Some stored
                           /\ JSON_parse stored = None) ->
        loadMessages_typed loaded ls' = Some (DEFAULT_MESSAGES loaded)).
Proof.
  intros text Haccepts Htext Hparse Hstorable. split.
  - assert (Hget : getItem CHAT_STORAGE_KEY (saveMessages ms ls) = Some text).
    { unfold saveMessages, setItem. fold text. rewrite Haccepts.
      unfold getItem. cbn [items]. apply lookup_insert_eq. }
    unfold loadMessages_typed, loadMessages. rewrite Hget.
    apply jsstring_eqb_neq in Htext. rewrite Htext, Hparse.
    rewrite jsonify_VArr_map by (by intros m).
    destruct (revive_messages_jsonify ms Hstorable) as (vs & Hrevive & Hread).
    by rewrite Hrevive.
  - intros ls' Hnone. unfold loadMessages_typed, loadMessages.
    destruct Hnone as [->|[->|(stored & -> & Hstored)]];
      [apply loadMessages_default..|].
    rewrite Hstored.
    destruct (jsstring_eqb stored []); apply loadMessages_default.
Qed.

(** X21. The mount of the hook, once [loadHistory] has answered: the
    loading flag is cleared in every case.  An empty answer, which is also
    what a failed request gives, leaves the messages and the storage as
    they are.  On a first visit (nothing stored under the key of the
    history) a backend history that is not empty replaces the welcome
    message: the messages are the backend messages, and they are what is
    stored when the storage takes the write. *)
Theorem mount_takes_the_backend_history
    (loaded : Z) (backendMessages : list val) (h : History) :
  isLoadingHistory (initChat loaded backendMessages h) = false
  /\ (backendMessages = [] ->
      history_messages (initChat loaded backendMessages h)
      = history_messages h
      /\ history_storage (initChat loaded backendMessages h)
         = history_storage h)
  /\ (backendMessages <> [] ->
      getItem CHAT_STORAGE_KEY (history_storage h) = None ->
      history_messages (initChat loaded backendMessages h) = backendMessages
      /\ (accepts (history_storage h) CHAT_STORAGE_KEY
                  (JSON_stringify (VArr backendMessages)) = true ->
          getItem CHAT_STORAGE_KEY
                  (history_storage (initChat loaded backendMessages h))
          = Some (JSON_stringify (VArr backendMessages)))).
Proof.
  split; [|split].
  - unfold initChat. destruct backendMessages; [done|].
    by destruct (mergeMessages _ _).
  - intros ->. done.
  - intros Hne Hnone. unfold initChat, loadMessages. rewrite Hnone.
    destruct backendMessages as [|m b]; [done|].
    assert (Hmerge : mergeMessages (m :: b)
                       (map Message_value (DEFAULT_MESSAGES loaded))
                     = Some (m :: b)) by reflexivity.
    rewrite Hmerge. cbn [history_messages history_storage].
    split; [done|]. intros Haccepts.
    unfold saveMessages_values, setItem. rewrite Haccepts.
    unfold getItem. cbn [items]. apply lookup_insert_eq.
Qed.

End MoreHookFacts.

(** ** Clearing, and naming a session *)

Section MoreViewFacts.
Context {E : Engine}.
Variable env : Env.

Local Abbreviation val := (value number).

#[local] Existing Instance M_ret.
#[local] Existing Instance M_bind.

(** X22. [clearHistory] of the hook asks the backend once to clear the
    session and, whether that request succeeds or not, returns with the
    welcome message as the only message and with nothing stored under the
    key of the history, so that what is loaded afterwards is the welcome
    message.  The other keys of the storage, the session id among them,
    are left as they are. *)
Theorem clear_history_resets
    (loaded : Z) (sessionId : jsstring) (w : World) :
  (clearHistory env loaded sessionId w).1 = Returned tt
  /\ fetched (clearHistory env loaded sessionId w).2
     = fetched w ++ [clear_request sessionId]
  /\ messages (chat (clearHistory env loaded sessionId w).2)
     = DEFAULT_MESSAGES loaded
  /\ getItem CHAT_STORAGE_KEY
       (localStorage (store (clearHistory env loaded sessionId w).2))
     = None
  /\ loadMessages_typed loaded
       (localStorage (store (clearHistory env loaded sessionId w).2))
     = Some (DEFAULT_MESSAGES loaded)
  /\ (forall k, k <> CHAT_STORAGE_KEY ->
      getItem k (localStorage (store (clearHistory env loaded sessionId w).2))
      = getItem k (localStorage (store w))).
Proof.
  unfold clearHistory, mbind, M_bind, bind. rewrite try_catch_run.
  unfold fetch, ret, update_chat, update_store.
  assert (Hload : forall ls,
             getItem CHAT_STORAGE_KEY ls = None ->
             loadMessages_typed loaded ls = Some (DEFAULT_MESSAGES loaded)).
  { intros ls Hnone. unfold loadMessages_typed, loadMessages.
    rewrite Hnone. apply loadMessages_default. }
  destruct (server env (clear_request sessionId)) as [res|];
    cbn [fst snd chat store fetched localStorage messages setMessages];
    (split; [done|]); (split; [done|]); (split; [done|]);
    (assert (Hgone : getItem CHAT_STORAGE_KEY
                       (removeItem CHAT_STORAGE_KEY (localStorage (store w)))
                     = None)
       by (unfold getItem, removeItem; cbn [items];
           apply lookup_delete_eq));
    (split; [done|]); (split; [by apply Hload|]);
    intros k Hk; unfold getItem, removeItem; cbn [items];
    by apply lookup_delete_ne.
Qed.

(** X23. [handleClearHistory] of the view empties the messages of the
    active session and shows the welcome message, which is what the view
    shows for a session without messages.  The session keeps its id, its
    name and its agent and stays active, the other sessions are left
    alone, and no request is made: the backend is not told. *)
Theorem clear_chat_empties_the_active_session
    (loaded : Z) (w : World) (active : Session) :
  activeSession (store w) = Some active ->
  (handleClearHistory env loaded w).1 = Returned tt
  /\ fetched (handleClearHistory env loaded w).2 = fetched w
  /\ messages (chat (handleClearHistory env loaded w).2)
     = DEFAULT_MESSAGES loaded
  /\ (exists active',
        activeSession (store (handleClearHistory env loaded w).2)
        = Some active'
        /\ session_messages active' = []
        /\ session_id active' = session_id active
        /\ session_name active' = session_name active
        /\ agentId active' = agentId active)
  /\ show_session loaded
       (activeSession (store (handleClearHistory env loaded w).2))
     = messages (chat (handleClearHistory env loaded w).2)
  /\ same_frame (session_id active) (store w)
       (store (handleClearHistory env loaded w).2).
Proof.
  intros Hactive. unfold handleClearHistory. rewrite Hactive.
  unfold mbind, M_bind, bind, Date_now, update_store, update_chat.
  cbn [fst snd chat store fetched messages setMessages].
  unfold clearSessionMessages.
  rewrite (activeSession_update _ (store w) active) by done.
  split; [done|]. split; [done|]. split; [done|].
  split; [by eexists|]. split; [done|].
  by apply same_frame_update.
Qed.

(** X24. The name that the store gives a session: a session without
    messages to which a user message is added is named after the text of
    the message, the whole text when it has at most 30 units and its first
    30 units followed by three dots otherwise, so at most 33 units; a
    message added to a session that has messages, or an assistant message,
    leaves the name. *)
Theorem session_name_is_a_short_title
    (m : Message) (t : Z) (st : Store) (active : Session) :
  activeSession st = Some active ->
  exists active',
    activeSession (addMessageToSession (session_id active) m t st)
    = Some active'
    /\ session_messages active' = session_messages active ++ [m]
    /\ (forall text,
          session_messages active = [] -> role m = user ->
          msg_content m = VStr text ->
          session_name active' = title_of text
          /\ (length (title_of text) <= 33)%nat
          /\ ((length text <= 30)%nat -> title_of text = text)
          /\ ((30 < length text)%nat ->
              title_of text = take 30 text ++ js "..."))
    /\ (session_messages active <> [] \/ role m = assistant ->
        session_name active' = session_name active).
Proof.
  intros Hactive. unfold addMessageToSession.
  rewrite (activeSession_update _ st active) by done.
  eexists. split; [reflexivity|].
  cbn [session_messages session_name]. split; [done|]. split.
  - intros text Hempty Hrole Hcontent. rewrite Hempty, Hrole, Hcontent.
    split; [done|]. unfold title_of, slice_to.
    destruct (30 <? length text)%nat eqn:Hlen.
    + apply Nat.ltb_lt in Hlen. split; [|split; [lia|done]].
      assert (Hdots : length (js "...") = 3%nat) by reflexivity.
      rewrite length_app, length_take, Hdots. lia.
    + apply Nat.ltb_ge in Hlen. rewrite app_nil_r.
      split; [rewrite length_take; lia|]. split; [|lia].
      intros _. by apply take_ge.
  - intros [Hne|Hrole].
    + by destruct (session_messages active).
    + rewrite Hrole. by destruct (session_messages active).
Qed.

End MoreViewFacts.

(** * Examples on the reference engine *)

Module Examples.
Import Reference.
Import Samples.
#[local] Existing Instance engine.
Local Open Scope string_scope.
Local Open Scope list_scope.

Example grep_frames_over_the_wire :
  map fields (progressSteps (read_all [wire grep_frames] chat0).2)
  = [(VStr (js "grep"), VStr (js "a.py"), VUndefined,
      VStr (js "completed"), VStr (js "y"))]
  /\ streamingContentRef (read_all [wire grep_frames] chat0).2 = js "xy"
  /\ map fields
       (progressSteps
          (read_all [take 100 (wire grep_frames);
                     drop 100 (wire grep_frames)] chat0).2)
     = [(VStr (js "grep"), VStr (js "a.py"), VUndefined,
         VStr (js "completed"), VStr (js "y"))]
  /\ streamingContentRef
       (read_all [take 100 (wire grep_frames);
                  drop 100 (wire grep_frames)] chat0).2 = js "xy".
Proof. repeat split; vm_compute; reflexivity. Qed.

(** C1, as stated, fails: a progress payload that has no [content] adds
    the text "undefined" to the content buffer, not the empty text. *)
Lemma absent_content_appends_undefined :
  let frames := [{| frame_event := js "progress";
                    frame_data := text "{'tool':'grep'}" |}] in
  Forall well_formed frames
  /\ concat (map specified_contribution frames) = []
  /\ streamingContentRef
       (fold_left on_line (concat (map frame_lines frames))
                  (js "message", chat0)).2 = js "undefined"
  /\ streamingContentRef
       (read_all [wire ["event:progress"; "data:{'tool':'grep'}"]] chat0).2
     = js "undefined"
  /\ streamingContentRef
       (fold_left on_line (concat (map frame_lines frames))
                  (js "message", chat0)).2
     <> streamingContentRef chat0
        ++ concat (map specified_contribution frames).
Proof.
  cbv zeta. split.
  { apply List.Forall_cons; [|apply List.Forall_nil].
    eexists. vm_compute. reflexivity. }
  split; [vm_compute; reflexivity|]. split; [vm_compute; reflexivity|].
  split; [vm_compute; reflexivity|].
  vm_compute. discriminate.
Qed.

Lemma content_is_the_progress_contents_witness :
  let frames :=
    [{| frame_event := js "progress";
        frame_data := text "{'tool':'grep','content':'ab'}" |};
     {| frame_event := js "thinking";
        frame_data := text "{'status':'queued'}" |};
     {| frame_event := js "progress";
        frame_data := text "{'content':'c'}" |}] in
  Forall well_formed frames
  /\ Forall has_text_content frames
  /\ streamingContentRef
       (fold_left on_line (concat (map frame_lines frames))
                  (js "message", chat0)).2
     = streamingContentRef chat0
       ++ concat (map specified_contribution frames).
Proof.
  cbv zeta.
  assert (Hwf : Forall well_formed
            [{| frame_event := js "progress";
                frame_data := text "{'tool':'grep','content':'ab'}" |};
             {| frame_event := js "thinking";
                frame_data := text "{'status':'queued'}" |};
             {| frame_event := js "progress";
                frame_data := text "{'content':'c'}" |}]).
  { repeat (apply List.Forall_cons; [eexists; vm_compute; reflexivity|]).
    apply List.Forall_nil. }
  assert (Htext : Forall has_text_content
            [{| frame_event := js "progress";
                frame_data := text "{'tool':'grep','content':'ab'}" |};
             {| frame_event := js "thinking";
                frame_data := text "{'status':'queued'}" |};
             {| frame_event := js "progress";
                frame_data := text "{'content':'c'}" |}]).
  { apply List.Forall_cons; [|apply List.Forall_cons; [|apply List.Forall_cons;
                                                  [|apply List.Forall_nil]]];
      intros Hprogress.
    - eexists _, _. split; vm_compute; reflexivity.
    - vm_compute in Hprogress. discriminate Hprogress.
    - eexists _, _. split; vm_compute; reflexivity. }
  split; [exact Hwf|]. split; [exact Htext|].
  exact (content_is_the_progress_contents _ (js "message") chat0 Hwf Htext).
Defined.

(** C2, as stated, fails: a progress event that carries no [tool], no
    [file] and no [action] is not put into the list, though no step has its
    key; and it does not replace the step that has its key. *)
Lemma plain_progress_event_is_not_upserted :
  let payload := text "{'content':'x'}" in
  let data : rval := VObj [(js "content", VStr (js "x"))] in
  let first := text "{'action':'scan','content':'a'}" in
  let c1 := on_data (js "progress") first chat0 in
  JSON_parse payload = Some data
  /\ typed_key data
  /\ length (progressSteps (on_data (js "progress") payload chat0)) = 0%nat
  /\ length (specified_upsert data (progressSteps chat0)) = 1%nat
  /\ map step_key (progressSteps c1) = [step_key (newStep data)]
  /\ map fields (progressSteps (on_data (js "progress") payload c1))
     = [(VUndefined, VUndefined, VStr (js "scan"), VStr (js "running"),
         VStr (js "a"))]
  /\ map fields (specified_upsert data (progressSteps c1))
     = [(VUndefined, VUndefined, VUndefined, VStr (js "running"),
         VStr (js "x"))].
Proof.
  cbv zeta. split; [vm_compute; reflexivity|]. split; [by split|].
  repeat split; vm_compute; reflexivity.
Qed.

Lemma progress_list_is_keyed_witness :
  let payloads :=
    [text "{'tool':'grep','file':'a.py','status':'running','content':'x'}";
     text "{'tool':'grep','file':'a.py','status':'completed','content':'y'}"]
  in
  let payload := text "{'tool':'ls','content':''}" in
  let data : rval := VObj [(js "tool", VStr (js "ls"));
                           (js "content", VStr [])] in
  Forall progress_payload payloads
  /\ NoDup (map step_key (progressSteps chat0))
  /\ JSON_parse payload = Some data
  /\ typed_key data
  /\ NoDup (map step_key
              (progressSteps
                 (fold_left (fun c p => on_data (js "progress") p c)
                            payloads chat0)))
  /\ (is_rich data = false ->
      progressSteps (on_data (js "progress") payload chat0)
      = progressSteps chat0).
Proof.
  cbv zeta.
  assert (H1 : Forall progress_payload
    [text "{'tool':'grep','file':'a.py','status':'running','content':'x'}";
     text "{'tool':'grep','file':'a.py','status':'completed','content':'y'}"]).
  { apply List.Forall_cons; [|apply List.Forall_cons; [|apply List.Forall_nil]];
      (eexists; split; [vm_compute; reflexivity | by split]). }
  assert (H2 : NoDup (map step_key (progressSteps chat0)))
    by apply NoDup_nil_2.
  assert (H3 : JSON_parse (text "{'tool':'ls','content':''}")
               = Some (VObj [(js "tool", VStr (js "ls"));
                             (js "content", VStr [])]))
    by (vm_compute; reflexivity).
  assert (H4 : typed_key (VObj [(js "tool", VStr (js "ls"));
                                (js "content", VStr [])] : rval))
    by (by split).
  destruct (progress_list_is_keyed _ chat0 _ _ H1 H2 H3 H4)
    as (Hnodup & _ & _ & Hplain & _).
  repeat split; assumption.
Defined.



Lemma one_fallback_request_witness :
  activeSession (store world0) = Some session0
  /\ trim (js "hi") <> []
  /\ isLoading (chat world0) = false
  /\ stream_failure env_500 (stream_request session0 (trim (js "hi")))
  /\ stream_failure env_500
       (useChat_stream_request (js "web:session_1") (trim (js "hi")))
  /\ fetched (sendMessage env_500 (js "hi") world0).2
     = fetched world0 ++ [stream_request session0 (trim (js "hi"));
                          fallback_request session0 (trim (js "hi"))]
  /\ payload (fallback_request session0 (trim (js "hi")))
     = payload (stream_request session0 (trim (js "hi"))).
Proof.
  assert (H1 : activeSession (store world0) = Some session0) by reflexivity.
  assert (H2 : trim (js "hi") <> []) by (vm_compute; discriminate).
  assert (H3 : isLoading (chat world0) = false) by reflexivity.
  assert (H4 : stream_failure env_500
                 (stream_request session0 (trim (js "hi")))).
  { eapply stream_http_error; reflexivity. }
  assert (H5 : stream_failure env_500
                 (useChat_stream_request (js "web:session_1")
                    (trim (js "hi")))).
  { eapply stream_http_error; reflexivity. }
  destruct (one_fallback_request_with_the_same_payload env_500 (js "hi")
              world0 session0 (js "web:session_1") H1 H2 H3 H4 H5)
    as ((Hfetched & _ & _ & Hpayload) & _).
  exact (conj H1 (conj H2 (conj H3 (conj H4 (conj H5
           (conj Hfetched Hpayload)))))).
Defined.

Lemma both_fail_witness :
  activeSession (store world0) = Some session0
  /\ trim (js "hi") <> []
  /\ isLoading (chat world0) = false
  /\ stream_failure env_500 (stream_request session0 (trim (js "hi")))
  /\ fallback_failure env_500 (fallback_request session0 (trim (js "hi")))
  /\ stream_failure env_500
       (useChat_stream_request (js "web:session_1") (trim (js "hi")))
  /\ fallback_failure env_500
       (useChat_fallback_request (js "web:session_1") (trim (js "hi")))
  /\ (sendMessage env_500 (js "hi") world0).1 = Returned tt
  /\ (useChat_sendMessage env_500 (js "web:session_1") (js "hi") world0).1
     = Returned tt.
Proof.
  assert (H1 : activeSession (store world0) = Some session0) by reflexivity.
  assert (H2 : trim (js "hi") <> []) by (vm_compute; discriminate).
  assert (H3 : isLoading (chat world0) = false) by reflexivity.
  assert (H4 : stream_failure env_500
                 (stream_request session0 (trim (js "hi")))).
  { eapply stream_http_error; reflexivity. }
  assert (H5 : fallback_failure env_500
                 (fallback_request session0 (trim (js "hi")))).
  { eapply fallback_http_error; reflexivity. }
  assert (H6 : stream_failure env_500
                 (useChat_stream_request (js "web:session_1")
                    (trim (js "hi")))).
  { eapply stream_http_error; reflexivity. }
  assert (H7 : fallback_failure env_500
                 (useChat_fallback_request (js "web:session_1")
                    (trim (js "hi")))).
  { eapply fallback_http_error; reflexivity. }
  destruct (both_fail_appends_the_apology_once env_500 (js "hi") world0
              session0 (js "web:session_1") H1 H2 H3 H4 H5 H6 H7)
    as ((Hreturned & _) & (Hreturned' & _)).
  exact (conj H1 (conj H2 (conj H3 (conj H4 (conj H5 (conj H6 (conj H7
           (conj Hreturned Hreturned')))))))).
Defined.

(** What both failures leave in the transcript of the view. *)
Example both_fail_transcript :
  map msg_content (messages (chat (sendMessage env_500 (js "hi") world0).2))
  = [VStr (js "hi"); VStr apology]
  /\ map (fun r => url r) (fetched (sendMessage env_500 (js "hi") world0).2)
     = [js "/api/chat/stream"; js "/api/chat"].
Proof. split; vm_compute; reflexivity. Qed.

(** C6, as stated, fails: the stream has accumulated the text hello when
    its read rejects; the assistant message that is appended is the apology
    (the fallback is unreachable here), and hello is no part of it. *)
Lemma broken_stream_discards_the_accumulated_content :
  streamingContentRef (chat (sendMessage env_broken (js "hi") world0).2)
  = js "hello"
  /\ map msg_content
       (messages (chat (sendMessage env_broken (js "hi") world0).2))
     = [VStr (js "hi"); VStr apology]
  /\ includes (js "hello") apology = false.
Proof. split; [|split]; vm_compute; reflexivity. Qed.

Lemma broken_stream_witness :
  activeSession (store world0) = Some session0
  /\ trim (js "hi") <> []
  /\ isLoading (chat world0) = false
  /\ server env_broken (stream_request session0 (trim (js "hi")))
     = Some broken_response
  /\ res_ok broken_response = true
  /\ res_body broken_response = Some broken_body
  /\ breaks broken_body = true
  /\ exists u a,
       role a = assistant
       /\ msg_content a
          = reply_content env_broken
              (fallback_request session0 (trim (js "hi")))
       /\ messages (chat (sendMessage env_broken (js "hi") world0).2)
          = messages (chat world0) ++ [u; a].
Proof.
  assert (H1 : activeSession (store world0) = Some session0) by reflexivity.
  assert (H2 : trim (js "hi") <> []) by (vm_compute; discriminate).
  assert (H3 : isLoading (chat world0) = false) by reflexivity.
  assert (H4 : server env_broken (stream_request session0 (trim (js "hi")))
               = Some broken_response) by reflexivity.
  destruct (broken_stream_is_answered_by_the_fallback env_broken (js "hi")
              world0 session0 (js "web:session_1") H1 H2 H3)
    as (Hbroken & _).
  destruct (Hbroken broken_response broken_body H4 eq_refl eq_refl eq_refl)
    as (u & a & _ & _ & Ha & Hca & Hmsgs & _).
  refine (conj H1 (conj H2 (conj H3 (conj H4 (conj eq_refl (conj eq_refl
            (conj eq_refl _))))))).
  exists u, a. exact (conj Ha (conj Hca Hmsgs)).
Defined.

(** An [error] event in a stream that is read to its end: what the
    progress events before it and after it carry is the reply. *)
Example error_event_keeps_the_content :
  map msg_content
    (messages (chat (sendMessage env_error_event (js "hi") world0).2))
  = [VStr (js "hi"); VStr (js "abc")]
  /\ map (fun r => url r)
       (fetched (sendMessage env_error_event (js "hi") world0).2)
     = [js "/api/chat/stream"].
Proof. split; vm_compute; reflexivity. Qed.

(** C7, as stated, fails: a switch to an id that no session has leaves
    the pointer on no session of the collection. *)
Lemma switch_to_an_unknown_session :
  map session_id (sessions store0) = [js "session_1_abc"]
  /\ pointer_ok store0
  /\ exists st',
       perform (OpSwitch (js "nowhere")) store0 = Some st'
       /\ map session_id (sessions st') = [js "session_1_abc"]
       /\ activeSessionId st' = Some (js "nowhere")
       /\ activeSession st' = None
       /\ ~ pointer_ok st'.
Proof.
  split; [reflexivity|]. split; [by eexists|].
  exists (switchSession (js "nowhere") store0).
  assert (Hnone : activeSession (switchSession (js "nowhere") store0) = None)
    by reflexivity.
  refine (conj eq_refl (conj eq_refl (conj eq_refl (conj Hnone _)))).
  unfold pointer_ok. rewrite Hnone. by intros [x Hx].
Qed.

Lemma store_keeps_a_session_witness :
  let ops := [OpSwitch (js "session_1_abc")] in
  let st' := switchSession (js "session_1_abc") store0 in
  sessions store0 <> []
  /\ run ops store0 = Some st'
  /\ pointer_ok store0
  /\ switches_known ops store0
  /\ sessions store0 = [session0]
  /\ accepts (localStorage store0) ACTIVE_SESSION_KEY (generateId fresh1)
     = true
  /\ sessions st' <> []
  /\ pointer_ok st'
  /\ exists st1,
       perform (OpDelete (session_id session0) fresh1) store0 = Some st1
       /\ length (sessions st1) = 1%nat
       /\ activeSessionId st1
          = Some (session_id (createEmptySession (js "default") fresh1)).
Proof.
  cbv zeta.
  assert (H1 : sessions store0 <> []) by discriminate.
  assert (H2 : run [OpSwitch (js "session_1_abc")] store0
               = Some (switchSession (js "session_1_abc") store0))
    by reflexivity.
  assert (H3 : pointer_ok store0) by (by eexists).
  assert (H4 : switches_known [OpSwitch (js "session_1_abc")] store0).
  { split; [by left | exact I]. }
  destruct (store_keeps_a_session _ store0 _ session0 fresh1 H1 H2)
    as (Hne & Hptr & Hsole).
  destruct (Hsole eq_refl eq_refl) as (st1 & Hdel & Hlen & _ & _ & Hactive).
  refine (conj H1 (conj H2 (conj H3 (conj H4 (conj eq_refl (conj eq_refl
            (conj Hne (conj (Hptr H3 H4) _)))))))).
  exists st1. exact (conj Hdel (conj Hlen Hactive)).
Defined.

Lemma load_after_save_witness :
  let text := JSON_stringify (VArr (map Session_value [stored_session])) in
  accepts storage0 STORAGE_KEY text = true
  /\ text <> []
  /\ JSON_parse text
     = Some (jsonify (VArr (map Session_value [stored_session])))
  /\ Forall storable [stored_session]
  /\ loadSessions_typed (saveSessions [stored_session] storage0)
     = Some [stored_session].
Proof.
  cbv zeta.
  assert (H1 : accepts storage0 STORAGE_KEY
                 (JSON_stringify (VArr (map Session_value [stored_session])))
               = true) by reflexivity.
  assert (H2 : JSON_stringify (VArr (map Session_value [stored_session]))
               <> []) by (vm_compute; discriminate).
  assert (H3 : JSON_parse
                 (JSON_stringify (VArr (map Session_value [stored_session])))
               = Some (jsonify (VArr (map Session_value [stored_session]))))
    by (vm_compute; reflexivity).
  assert (Hdate : forall t, parse_date (toISOString t) = Time t ->
                            valid_date (Time t)).
  { intros t Ht. exact (ex_intro _ t (conj eq_refl Ht)). }
  assert (H4 : Forall storable [stored_session]).
  { apply List.Forall_cons; [|apply List.Forall_nil].
    split; [apply Hdate; vm_compute; reflexivity|].
    split; [apply Hdate; vm_compute; reflexivity|].
    apply List.Forall_cons; [|apply List.Forall_cons; [|apply List.Forall_nil]];
      (split; [apply Hdate; vm_compute; reflexivity|];
       split; reflexivity). }
  exact (conj H1 (conj H2 (conj H3 (conj H4
           (proj2 (load_after_save [stored_session] storage0 H1 H2 H3 H4)))))).
Defined.

(** ** The further properties, on the data of the examples *)

Lemma progress_events_update_in_place_witness :
  let payload := text "{'tool':'ls','content':'a'}" in
  let data : rval := VObj [(js "tool", VStr (js "ls"));
                           (js "content", VStr (js "a"))] in
  JSON_parse payload = Some data
  /\ typed_key data
  /\ (length (progressSteps chat0)
      <= length (progressSteps (read_all [wire grep_frames] chat0).2))%nat
  /\ (length (progressSteps (on_data (js "progress") payload chat0))
      <= S (length (progressSteps chat0)))%nat
  /\ progressSteps
       (on_data (js "progress") payload
          (on_data (js "progress") payload chat0))
     = progressSteps (on_data (js "progress") payload chat0).
Proof.
  cbv zeta.
  assert (H1 : JSON_parse (text "{'tool':'ls','content':'a'}")
               = Some (VObj [(js "tool", VStr (js "ls"));
                             (js "content", VStr (js "a"))]))
    by (vm_compute; reflexivity).
  assert (H2 : typed_key (VObj [(js "tool", VStr (js "ls"));
                                (js "content", VStr (js "a"))] : rval))
    by (by split).
  exact (conj H1 (conj H2
           (progress_events_update_in_place [wire grep_frames] chat0 _ _
              H1 H2))).
Defined.

Lemma update_of_an_unknown_session_witness :
  ~ In (js "nowhere") (map session_id (sessions store0))
  /\ updateSessionName (js "nowhere") (js "a name") 1730600004000 store0
     = store0
  /\ addMessageToSession (js "nowhere") question 1730600004000 store0
     = store0
  /\ clearSessionMessages (js "nowhere") 1730600004000 store0 = store0.
Proof.
  assert (H1 : ~ In (js "nowhere") (map session_id (sessions store0))).
  { intros [H|[]]. vm_compute in H. discriminate H. }
  destruct (update_of_an_unknown_session_changes_nothing
              (js "nowhere") (js "a name") (js "coder") question []
              1730600004000 store0 H1)
    as (Hname & _ & Hadd & _ & Hclear).
  exact (conj H1 (conj Hname (conj Hadd Hclear))).
Defined.

Lemma mount_establishes_the_invariant_witness :
  exists st,
    mount fresh1 storage0 = Some st
    /\ sessions st <> []
    /\ pointer_ok st.
Proof.
  eexists. split; [reflexivity|].
  match goal with
  | |- sessions ?st <> [] /\ _ =>
      destruct (mount_establishes_the_invariant fresh1 storage0 st eq_refl)
        as (Hne & Hptr & _)
  end.
  exact (conj Hne Hptr).
Defined.

Lemma storage_mirrors_the_store_witness :
  let ops := [OpCreate (js "coder") fresh1;
              OpAddMessage (generateId fresh1) question 1730600003001;
              OpSwitch (js "session_1_abc");
              OpDelete (js "session_1_abc") fresh2] in
  roomy (localStorage store1)
  /\ mirrors store1
  /\ exists st',
       run ops store1 = Some st'
       /\ mirrors st'
       /\ roomy (localStorage st').
Proof.
  cbv zeta.
  assert (H1 : roomy (localStorage store1)) by (intros k v; reflexivity).
  assert (H2 : mirrors store1) by (split; vm_compute; reflexivity).
  refine (conj H1 (conj H2 _)).
  eexists. split; [reflexivity|].
  exact (storage_mirrors_the_store
           [OpCreate (js "coder") fresh1;
            OpAddMessage (generateId fresh1) question 1730600003001;
            OpSwitch (js "session_1_abc");
            OpDelete (js "session_1_abc") fresh2]
           store1 _ H1 H2 eq_refl).
Defined.

Lemma one_unreadable_session_witness :
  getItem STORAGE_KEY storage_null = Some (text "[null]")
  /\ JSON_parse (text "[null]") = Some (VArr [VNull])
  /\ In (VNull : rval) [VNull]
  /\ roomy storage_null
  /\ loadSessions storage_null = []
  /\ exists st,
       mount fresh1 storage_null = Some st
       /\ sessions st = [createEmptySession (js "default") fresh1].
Proof.
  assert (H1 : getItem STORAGE_KEY storage_null = Some (text "[null]"))
    by (vm_compute; reflexivity).
  assert (H2 : JSON_parse (text "[null]") = Some (VArr [VNull]))
    by (vm_compute; reflexivity).
  assert (H3 : In (VNull : rval) [VNull]) by (by left).
  assert (H4 : roomy storage_null) by (intros k v; reflexivity).
  destruct (one_unreadable_session_loses_the_others fresh1 storage_null
              _ _ H1 H2 H3 H4) as (Hload & st & Hmount & Hsessions & _).
  refine (conj H1 (conj H2 (conj H3 (conj H4 (conj Hload _))))).
  exists st. exact (conj Hmount Hsessions).
Defined.

Lemma create_then_delete_witness :
  sessions store0 = [session0]
  /\ ~ In (generateId fresh1) (map session_id (sessions store0))
  /\ accepts (localStorage store0) ACTIVE_SESSION_KEY (session_id session0)
     = true
  /\ exists st',
       deleteSession (generateId fresh1) fresh2
         (createSession (js "coder") fresh1 store0) = Some st'
       /\ sessions st' = sessions store0
       /\ activeSessionId st' = Some (session_id session0).
Proof.
  assert (H1 : sessions store0 = [session0]) by reflexivity.
  assert (H2 : ~ In (generateId fresh1) (map session_id (sessions store0))).
  { intros [H|[]]. vm_compute in H. discriminate H. }
  assert (H3 : accepts (localStorage store0) ACTIVE_SESSION_KEY
                 (session_id session0) = true) by reflexivity.
  exact (conj H1 (conj H2 (conj H3
           (create_then_delete (js "coder") fresh1 fresh2 store0 session0 []
              H1 H2 H3)))).
Defined.

Lemma sidebar_delete_witness :
  roomy (localStorage store2)
  /\ NoDup (map session_id (sessions store2))
  /\ In (js "session_1_abc") (map session_id (sessions store2))
  /\ exists st',
       handleDeleteSession (js "session_1_abc") fresh2 store2 = Some st'
       /\ sessions st' <> []
       /\ ((1 < length (sessions store2))%nat ->
           S (length (sessions st')) = length (sessions store2)
           /\ ~ In (js "session_1_abc") (map session_id (sessions st'))).
Proof.
  assert (H1 : roomy (localStorage store2)) by (intros k v; reflexivity).
  assert (H2 : NoDup (map session_id (sessions store2))).
  { apply NoDup_cons_2; [|apply NoDup_singleton].
    intros [H|[]]%list_elem_of_In. vm_compute in H. discriminate H. }
  assert (H3 : In (js "session_1_abc") (map session_id (sessions store2)))
    by (right; left; reflexivity).
  destruct (sidebar_delete (js "session_1_abc") fresh2 store2 H1 H2 H3)
    as (st' & Hdel & Hne & _ & _ & Hmany).
  refine (conj H1 (conj H2 (conj H3 _))).
  exists st'. refine (conj Hdel (conj Hne _)).
  intros Hlen. destruct (Hmany Hlen) as (_ & Hcount & Hgone & _).
  exact (conj Hcount Hgone).
Defined.

Lemma sidebar_agent_select_witness :
  activeSession store0 = Some session0
  /\ exists active',
       activeSession (handleAgentSelect (js "coder") 1730600004000 store0)
       = Some active'
       /\ agentId active' = js "coder"
       /\ session_id active' = session_id session0
       /\ payload (stream_request active' (js "hi"))
          = chat_payload (js "hi") (session_id session0) (js "coder").
Proof.
  assert (H1 : activeSession store0 = Some session0) by reflexivity.
  destruct (sidebar_agent_select (js "coder") (js "hi") 1730600004000
              store0 session0 H1)
    as (active' & Hactive & Hagent & Hid & _ & _ & Hpayload & _).
  refine (conj H1 _). exists active'.
  exact (conj Hactive (conj Hagent (conj Hid Hpayload))).
Defined.

Lemma send_reaches_the_active_session_witness :
  activeSession (store world0) = Some session0
  /\ trim (js "hi") <> []
  /\ isLoading (chat world0) = false
  /\ exists added active',
       messages (chat (sendMessage env_500 (js "hi") world0).2)
       = messages (chat world0)
         ++ userMessage_at env_500 (js "hi") world0 :: added
       /\ activeSession (store (sendMessage env_500 (js "hi") world0).2)
          = Some active'
       /\ session_messages active'
          = session_messages session0
            ++ userMessage_at env_500 (js "hi") world0 :: added
       /\ session_name active' = title_of (trim (js "hi")).
Proof.
  assert (H1 : activeSession (store world0) = Some session0) by reflexivity.
  assert (H2 : trim (js "hi") <> []) by (vm_compute; discriminate).
  assert (H3 : isLoading (chat world0) = false) by reflexivity.
  destruct (send_reaches_the_active_session env_500 (js "hi") world0 session0
              H1 H2 H3)
    as (added & active' & _ & Hmsgs & Hactive & _ & _ & _ & Hsession
        & Hname & _).
  refine (conj H1 (conj H2 (conj H3 _))).
  exists added, active'.
  exact (conj Hmsgs (conj Hactive (conj Hsession Hname))).
Defined.

Lemma hook_send_appends_and_saves_witness :
  trim (js "hi") <> []
  /\ isLoading (chat world0) = false
  /\ exists a,
       role a = assistant
       /\ messages
            (chat (useChat_sendMessage env_500 (js "web:session_1") (js "hi")
                     world0).2)
          = messages (chat world0)
            ++ [userMessage_at env_500 (js "hi") world0; a].
Proof.
  assert (H1 : trim (js "hi") <> []) by (vm_compute; discriminate).
  assert (H2 : isLoading (chat world0) = false) by reflexivity.
  destruct (hook_send_appends_and_saves env_500 (js "web:session_1")
              (js "hi") world0 H1 H2)
    as (a & Hrole & Hmsgs & _).
  refine (conj H1 (conj H2 _)). exists a. exact (conj Hrole Hmsgs).
Defined.

Lemma a_stream_read_to_its_end_witness :
  activeSession (store world0) = Some session0
  /\ trim (js "hi") <> []
  /\ isLoading (chat world0) = false
  /\ server env_complete (stream_request session0 (trim (js "hi")))
     = Some complete_response
  /\ server env_complete
       (useChat_stream_request (js "web:session_1") (trim (js "hi")))
     = Some complete_response
  /\ res_ok complete_response = true
  /\ res_body complete_response = Some complete_body
  /\ breaks complete_body = false
  /\ fetched (sendMessage env_complete (js "hi") world0).2
     = fetched world0 ++ [stream_request session0 (trim (js "hi"))]
  /\ fetched
       (useChat_sendMessage env_complete (js "web:session_1") (js "hi")
          world0).2
     = fetched world0
       ++ [useChat_stream_request (js "web:session_1") (trim (js "hi"))].
Proof.
  assert (H1 : activeSession (store world0) = Some session0) by reflexivity.
  assert (H2 : trim (js "hi") <> []) by (vm_compute; discriminate).
  assert (H3 : isLoading (chat world0) = false) by reflexivity.
  assert (H4 : server env_complete (stream_request session0 (trim (js "hi")))
               = Some complete_response) by reflexivity.
  assert (H5 : server env_complete
                 (useChat_stream_request (js "web:session_1")
                    (trim (js "hi")))
               = Some complete_response) by reflexivity.
  destruct (a_stream_read_to_its_end_needs_no_fallback env_complete
              (js "web:session_1") (js "hi") world0 session0
              complete_response complete_response complete_body complete_body
              H1 H2 H3 H4 eq_refl eq_refl eq_refl H5 eq_refl eq_refl eq_refl)
    as ((Hfetched & _) & (Hfetched' & _)).
  exact (conj H1 (conj H2 (conj H3 (conj H4 (conj H5 (conj eq_refl
           (conj eq_refl (conj eq_refl (conj Hfetched Hfetched'))))))))).
Defined.

Lemma an_ok_response_without_a_body_witness :
  activeSession (store world0) = Some session0
  /\ trim (js "hi") <> []
  /\ isLoading (chat world0) = false
  /\ server env_bodiless (stream_request session0 (trim (js "hi")))
     = Some bodiless_response
  /\ server env_bodiless
       (useChat_stream_request (js "web:session_1") (trim (js "hi")))
     = Some bodiless_response
  /\ res_ok bodiless_response = true
  /\ res_body bodiless_response = None
  /\ messages (chat (sendMessage env_bodiless (js "hi") world0).2)
     = messages (chat world0) ++ [userMessage_at env_bodiless (js "hi") world0]
  /\ fetched
       (useChat_sendMessage env_bodiless (js "web:session_1") (js "hi")
          world0).2
     = fetched world0
       ++ [useChat_stream_request (js "web:session_1") (trim (js "hi"));
           useChat_fallback_request (js "web:session_1") (trim (js "hi"))].
Proof.
  assert (H1 : activeSession (store world0) = Some session0) by reflexivity.
  assert (H2 : trim (js "hi") <> []) by (vm_compute; discriminate).
  assert (H3 : isLoading (chat world0) = false) by reflexivity.
  assert (H4 : server env_bodiless (stream_request session0 (trim (js "hi")))
               = Some bodiless_response) by reflexivity.
  assert (H5 : server env_bodiless
                 (useChat_stream_request (js "web:session_1")
                    (trim (js "hi")))
               = Some bodiless_response) by reflexivity.
  destruct (an_ok_response_without_a_body env_bodiless (js "web:session_1")
              (js "hi") world0 session0 bodiless_response bodiless_response
              H1 H2 H3 H4 eq_refl eq_refl H5 eq_refl eq_refl)
    as ((_ & Hmsgs) & (Hfetched' & _)).
  exact (conj H1 (conj H2 (conj H3 (conj H4 (conj H5 (conj eq_refl
           (conj eq_refl (conj Hmsgs Hfetched')))))))).
Defined.

Lemma merge_keeps_the_backend_history_witness :
  let merged := backend_history ++ [VObj [(js "id", VStr (js "msg-8"));
                                          (js "role", VStr (js "user"));
                                          (js "content", VStr (js "draft"))]]
  in
  mergeMessages backend_history local_history = Some merged
  /\ mapM content_trim backend_history = Some [js "hi"]
  /\ (exists kept,
        merged = backend_history ++ kept /\ sublist kept local_history)
  /\ mergeMessages backend_history merged = Some merged.
Proof.
  cbv zeta.
  assert (H1 : mergeMessages backend_history local_history
               = Some (backend_history
                       ++ [VObj [(js "id", VStr (js "msg-8"));
                                 (js "role", VStr (js "user"));
                                 (js "content", VStr (js "draft"))]]))
    by (vm_compute; reflexivity).
  assert (H2 : mapM content_trim backend_history = Some [js "hi"])
    by (vm_compute; reflexivity).
  destruct (merge_keeps_the_backend_history (E := engine)
              backend_history local_history
              _ _ H1 H2) as ((kept & Hmerged & Hsub & _) & Hagain).
  refine (conj H1 (conj H2 (conj _ Hagain))).
  exists kept. exact (conj Hmerged Hsub).
Defined.

Lemma messages_load_after_save_witness :
  let ms := session_messages stored_session in
  let text := JSON_stringify (VArr (map Message_value ms)) in
  accepts storage0 CHAT_STORAGE_KEY text = true
  /\ text <> []
  /\ JSON_parse text = Some (jsonify (VArr (map Message_value ms)))
  /\ Forall storable_message ms
  /\ loadMessages_typed 1730600009000 (saveMessages ms storage0) = Some ms.
Proof.
  cbv zeta.
  assert (H1 : accepts storage0 CHAT_STORAGE_KEY
                 (JSON_stringify
                    (VArr (map Message_value
                             (session_messages stored_session))))
               = true) by reflexivity.
  assert (H2 : JSON_stringify
                 (VArr (map Message_value (session_messages stored_session)))
               <> []) by (vm_compute; discriminate).
  assert (H3 : JSON_parse
                 (JSON_stringify
                    (VArr (map Message_value
                             (session_messages stored_session))))
               = Some (jsonify
                         (VArr (map Message_value
                                  (session_messages stored_session)))))
    by (vm_compute; reflexivity).
  assert (Hdate : forall t, parse_date (toISOString t) = Time t ->
                            valid_date (Time t)).
  { intros t Ht. exact (ex_intro _ t (conj eq_refl Ht)). }
  assert (H4 : Forall storable_message (session_messages stored_session)).
  { apply List.Forall_cons; [|apply List.Forall_cons; [|apply List.Forall_nil]];
      (split; [apply Hdate; vm_compute; reflexivity|];
       split; reflexivity). }
  exact (conj H1 (conj H2 (conj H3 (conj H4
           (proj1 (messages_load_after_save 1730600009000
                     (session_messages stored_session) storage0
                     H1 H2 H3 H4)))))).
Defined.

Lemma clear_chat_witness :
  activeSession (store world0) = Some session0
  /\ fetched (handleClearHistory env_500 1730600009000 world0).2
     = fetched world0
  /\ messages (chat (handleClearHistory env_500 1730600009000 world0).2)
     = DEFAULT_MESSAGES 1730600009000
  /\ exists active',
       activeSession (store (handleClearHistory env_500 1730600009000
                               world0).2)
       = Some active'
       /\ session_messages active' = [].
Proof.
  assert (H1 : activeSession (store world0) = Some session0) by reflexivity.
  destruct (clear_chat_empties_the_active_session env_500 1730600009000
              world0 session0 H1)
    as (_ & Hfetched & Hmsgs & (active' & Hactive & Hempty & _) & _).
  refine (conj H1 (conj Hfetched (conj Hmsgs _))).
  exists active'. exact (conj Hactive Hempty).
Defined.

Lemma session_name_witness :
  activeSession store0 = Some session0
  /\ session_messages session0 = []
  /\ role question = user
  /\ exists active',
       activeSession
         (addMessageToSession (session_id session0) question 1730600003001
            store0)
       = Some active'
       /\ session_messages active' = session_messages session0 ++ [question]
       /\ session_name active'
          = js "How do I read a stream of serv..."
       /\ (length (session_name active') <= 33)%nat.
Proof.
  assert (H1 : activeSession store0 = Some session0) by reflexivity.
  destruct (session_name_is_a_short_title question 1730600003001 store0
              session0 H1)
    as (active' & Hactive & Hmsgs & Hname & _).
  destruct (Hname _ eq_refl eq_refl eq_refl) as (Htitle & Hlen & _).
  refine (conj H1 (conj eq_refl (conj eq_refl _))).
  exists active'. refine (conj Hactive (conj Hmsgs _)).
  rewrite Htitle. split; [vm_compute; reflexivity | exact Hlen].
Defined.

End Examples.
